(** * Rocinante bot: login and post-launch automation

    A shallow embedding of [src/bot/bolt_login.py] and
    [src/bot/post_launch.py], and the properties of the two scripts.

    Conventions of the embedding.

    - The scripts talk to the outside world through subprocesses
      ([import], [xdotool], [oathtool]), the [random] and [time] modules,
      the file system and OpenCV.  Every such call is an [event]; a run is
      the list of its events, most recent first.  What the world answers is
      given by an environment [Env], whose answers may depend on the whole
      history of the run, so that a theorem quantified over [Env] speaks
      about every run.
    - Python floats are modelled by exact rationals [Q]: [0.5] is [1 # 2],
      [MATCH_THRESHOLD * 0.75] is [(8 # 10) * (75 # 100)].  Integers are
      [Z].  [int(f)] truncates towards zero.
    - Log lines are recorded by severity only; their text is not modelled.
    - Device commands launched with [check=False] are assumed to start;
      the scripts discard their exit status.
    - [cv2.matchTemplate] is taken as an interface: it yields the map of
      correlation scores, which is never empty.  [cv2.minMaxLoc] is the
      scan of that map. *)

From Stdlib Require Import Reals Lra.
From Stdlib Require Import ZArith QArith Qround Lia Lqa List Ascii String.
From stdpp Require Import gmap strings list.

Local Open Scope Z_scope.

(** ** Events and traces *)

Inductive level := INFO | WARN | ERROR | STEP | DEBUG.

Inductive event :=
| Import                                   (* import -window root /tmp/screen.png, cv2.imread *)
| Imread (template_name : string)          (* cv2.imread(TEMPLATES_DIR / name) *)
| GetMouseLocation                         (* xdotool getmouselocation *)
| MouseMove (x y : Z)                      (* xdotool mousemove x y *)
| Click                                    (* xdotool click 1 *)
| TypeChar (c : ascii)                     (* xdotool type -- c *)
| Key (key : string)                       (* xdotool key k *)
| Search (window_name : string)            (* xdotool search --name n *)
| WindowMove (window_id : string) (x y : Z)
| WindowSize (window_id : string) (w h : Z)
| Oathtool (secret : string)               (* oathtool --totp -b secret *)
| OpenConfig (config_path : string)        (* open(path), json.load *)
| Sleep (seconds : Q)                      (* time.sleep *)
| Random                                   (* one draw of the random module *)
| Log (l : level).

(** Most recent event first. *)
Definition trace := list event.

(** ** Exceptions and the run monad *)

Inductive exn :=
| KeyError (key : string)
| TypeError
| ValueError
| OSError                (* open() or subprocess.run failed *)
| JSONDecodeError
| OutOfFuel.             (* out of the fuel of a [while] loop; the loops are given enough *)

Inductive outcome (A : Type) :=
| Ok (a : A)
| Raise (e : exn).
Arguments Ok {A} a.
Arguments Raise {A} e.

Definition M (A : Type) : Type := trace -> outcome A * trace.

Definition ret {A} (a : A) : M A := fun tr => (Ok a, tr).

Definition bind {A B} (m : M A) (k : A -> M B) : M B :=
  fun tr =>
    match m tr with
    | (Ok a, tr') => k a tr'
    | (Raise e, tr') => (Raise e, tr')
    end.

Definition raise {A} (e : exn) : M A := fun tr => (Raise e, tr).

(** Perform an effect that needs no answer. *)
Definition emit (e : event) : M unit := fun tr => (Ok tt, e :: tr).

(** Perform an effect and read the world's answer, which may depend on
    everything that happened before. *)
Definition query {A} (e : event) (answer : trace -> A) : M A :=
  fun tr => (Ok (answer tr), e :: tr).

Declare Scope run_scope.
Delimit Scope run_scope with run.
Notation "x <- m ;; k" := (bind m (fun x => k))
  (at level 20, m at level 99, k at level 200, only parsing) : run_scope.
Notation "m ;; k" := (bind m (fun _ => k))
  (at level 100, k at level 200, right associativity, only parsing) : run_scope.
Local Open Scope run_scope.

(** The events a computation adds to the trace, and its result. *)
Definition result_of {A} (m : M A) (tr : trace) : outcome A := fst (m tr).
Definition trace_of {A} (m : M A) (tr : trace) : trace := snd (m tr).

(** ** OpenCV *)

(** The result of [cv2.matchTemplate]: one score per placement of the
    template, [sm_cols] by [sm_rows] of them, neither zero. *)
Record ScoreMap := {
  sm_cols : positive;
  sm_rows : positive;
  sm_at : Z -> Z -> Q            (* score at column x, row y *)
}.

Class OpenCV (Image : Type) := {
  Gray : Type;
  shape : Image -> Z * Z;                       (* (height, width) *)
  cvtColor_BGR2GRAY : Image -> Gray;
  matchTemplate_CCOEFF_NORMED : Gray -> Gray -> ScoreMap
}.

Definition indices (n : positive) : list Z := map Z.of_nat (seq 0 (Pos.to_nat n)).

(** Placements in scan order: row by row, left to right. *)
Definition placements (r : ScoreMap) : list (Z * Z) :=
  flat_map (fun y => map (fun x => (x, y)) (indices (sm_cols r))) (indices (sm_rows r)).

Definition Qlt_bool (a b : Q) : bool := negb (Qle_bool b a).

Definition scan_max (r : ScoreMap) (best : Q * (Z * Z)) (p : Z * Z) : Q * (Z * Z) :=
  if Qlt_bool (fst best) (sm_at r (fst p) (snd p)) then (sm_at r (fst p) (snd p), p) else best.

Definition scan_min (r : ScoreMap) (best : Q * (Z * Z)) (p : Z * Z) : Q * (Z * Z) :=
  if Qlt_bool (sm_at r (fst p) (snd p)) (fst best) then (sm_at r (fst p) (snd p), p) else best.

Definition score_at (r : ScoreMap) (p : Z * Z) : Q := sm_at r (fst p) (snd p).

(** [cv2.minMaxLoc]: (minVal, maxVal, minLoc, maxLoc). *)
Definition minMaxLoc (r : ScoreMap) : Q * Q * (Z * Z) * (Z * Z) :=
  let start := (sm_at r 0 0, (0, 0)) in
  let lo := fold_left (scan_min r) (placements r) start in
  let hi := fold_left (scan_max r) (placements r) start in
  (fst lo, fst hi, snd lo, snd hi).

(** ** The world *)

(** What [cv2.imread] of a template file finds. *)
Inductive template_file (Image : Type) :=
| Absent                       (* no such file *)
| Undecodable                  (* the file is there, imread returns None *)
| Decoded (img : Image).
Arguments Absent {Image}.
Arguments Undecodable {Image}.
Arguments Decoded {Image} img.

(** The ways of [take_screenshot]. *)
Inductive capture :=
| ImportFailed                 (* returncode != 0 *)
| ScreenUnreadable             (* imread(SCREENSHOT_PATH) is None *)
| CaptureRaised                (* subprocess.run raised *)
.

(** Answer of [xdotool search --name]. *)
Inductive search_reply :=
| SearchRaised
| SearchDone (returncode : Z) (window_ids : list string).   (* lines of stdout.strip(); [] when blank *)

(** JSON values of the configuration file.  Only scalars are modelled, and
    a top level that is an object. *)
Inductive json :=
| JNull
| JBool (b : bool)
| JInt (n : Z)
| JStr (s : string).

Inductive config_file :=
| ConfigMissing                                (* open() fails *)
| ConfigMalformed                              (* json.load fails *)
| ConfigObject (fields : gmap string json).

Record Env (Image : Type) := {
  screen : trace -> capture + Image;
  templates : string -> template_file Image;
  mouse : trace -> option (Z * Z);             (* parsed getmouselocation; None when parsing raises *)
  entropy : trace -> Z;                        (* raw randomness *)
  windows : trace -> string -> search_reply;
  oathtool : trace -> string -> option string; (* None: CalledProcessError *)
  config_files : string -> config_file
}.
Arguments screen {Image} e tr.
Arguments templates {Image} e name.
Arguments mouse {Image} e tr.
Arguments entropy {Image} e tr.
Arguments windows {Image} e tr name.
Arguments oathtool {Image} e tr secret.
Arguments config_files {Image} e path.

(** ** Reading a run *)

(** [m] only adds events of kind [P] to the trace, and leaves what was
    there. *)
Definition adds {A} (P : event -> bool) (m : M A) : Prop :=
  forall tr, exists added, snd (m tr) = added ++ tr /\ Forall (fun e => P e = true) added.

(** [m] raises nothing. *)
Definition succeeds {A} (m : M A) : Prop :=
  forall tr, exists a, fst (m tr) = Ok a.

(** Events of the pointer: where it is, where it goes, clicks, the pauses
    and random draws in between, and the log lines about them. *)
Definition pointer_event (e : event) : bool :=
  match e with
  | GetMouseLocation | MouseMove _ _ | Click | Sleep _ | Random | Log _ => true
  | _ => false
  end.

(** Events of a pointer movement. *)
Definition move_event (e : event) : bool :=
  match e with
  | GetMouseLocation | MouseMove _ _ | Sleep _ | Random => true
  | _ => false
  end.

(** Events of looking for the template [name] on screen. *)
Definition vision_event (name : string) (e : event) : bool :=
  match e with
  | Import | Log _ => true
  | Imread n => String.eqb n name
  | _ => false
  end.

(** Events of waiting for the template [name] and clicking it. *)
Definition click_event (name : string) (e : event) : bool :=
  pointer_event e || vision_event name e.

(** Events of a screen capture. *)
Definition capture_event (e : event) : bool :=
  match e with
  | Import | Log _ => true
  | _ => false
  end.

(** Events that are no part of entering credentials: no key typed or
    pressed, no one-time code generated, no look for the authenticator
    button. *)
Definition no_credentials (e : event) : bool :=
  match e with
  | TypeChar _ | Key _ | Oathtool _ => false
  | Imread n => negb (String.eqb n "login_authenticator_app_button.png")
  | _ => true
  end.

(** [m] returns [v], whatever the run before it. *)
Definition returns {A} (v : A) (m : M A) : Prop :=
  forall tr, fst (m tr) = Ok v.

(** Events of looking for a window. *)
Definition window_event (e : event) : bool :=
  match e with
  | Search _ | WindowMove _ _ _ | WindowSize _ _ _ | Sleep _ | Log _ => true
  | _ => false
  end.

(** Where the pointer is: the target of the latest [mousemove]. *)
Fixpoint last_move (tr : trace) : option (Z * Z) :=
  match tr with
  | [] => None
  | MouseMove x y :: _ => Some (x, y)
  | _ :: tr' => last_move tr'
  end.

(** Where the clicks of a run went, latest first. *)
Fixpoint clicks (tr : trace) : list (option (Z * Z)) :=
  match tr with
  | [] => []
  | Click :: tr' => last_move tr' :: clicks tr'
  | _ :: tr' => clicks tr'
  end.

(** The positions the pointer was sent to, in the order of the run. *)
Definition moves (tr : trace) : list (Z * Z) :=
  rev (omap (fun e => match e with MouseMove x y => Some (x, y) | _ => None end) tr).

(** The characters typed in a run, in the order of the run. *)
Definition typed (tr : trace) : list ascii :=
  rev (omap (fun e => match e with TypeChar c => Some c | _ => None end) tr).

(** The keys pressed in a run, in the order of the run. *)
Definition keys (tr : trace) : list string :=
  rev (omap (fun e => match e with Key k => Some k | _ => None end) tr).

(** [m] raises nothing, and what it types and the keys it presses are as
    [allowed] says. *)
Definition keyboard_use {A} (allowed : list ascii -> list string -> Prop) (m : M A) : Prop :=
  forall tr, exists a added,
    m tr = (Ok a, added ++ tr) /\ allowed (typed added) (keys added).

(** [m] raises nothing and leaves the keyboard alone. *)
Definition silent {A} (m : M A) : Prop :=
  keyboard_use (fun t k => t = [] /\ k = []) m.


(** Whenever [m] returns, its result and the run so far satisfy [R]. *)
Definition ensures {A} (R : A -> trace -> Prop) (m : M A) : Prop :=
  forall tr a tr', m tr = (Ok a, tr') -> R a tr'.

(** Events of polling for a window: the search, the sleep, log lines. *)
Definition search_event (e : event) : bool :=
  match e with
  | Search _ | Sleep _ | Log _ => true
  | _ => false
  end.

(** Every result of [m] satisfies [Q]. *)
Definition yields {A} (Q : A -> Prop) (m : M A) : Prop :=
  forall tr a, fst (m tr) = Ok a -> Q a.

(** Events that touch neither the screen, nor the pointer, nor the
    keyboard: log lines, the configuration, window searches and sleeps. *)
Definition hands_off_event (e : event) : bool :=
  match e with
  | Log _ | OpenConfig _ | Search _ | Sleep _ => true
  | _ => false
  end.

(** Events other than typing a character or pressing a key. *)
Definition not_keyboard (e : event) : bool :=
  match e with
  | TypeChar _ | Key _ => false
  | _ => true
  end.

(** Events other than a click. *)
Definition not_click (e : event) : bool :=
  match e with
  | Click => false
  | _ => true
  end.

(** Events other than a screen capture. *)
Definition not_import (e : event) : bool :=
  match e with
  | Import => false
  | _ => true
  end.

(** Events that are neither a click nor a pointer move. *)
Definition not_pointer (e : event) : bool :=
  match e with
  | Click | MouseMove _ _ => false
  | _ => true
  end.

(** Events of reading a template and logging about it. *)
Definition lookup_event (e : event) : bool :=
  match e with
  | Imread _ | Log _ => true
  | _ => false
  end.

(** The events [added] click at [cs], latest first, whatever came before
    them: each click follows a pointer move of [added]. *)
Definition clicks_at (added : trace) (cs : list (option (Z * Z))) : Prop :=
  forall older, clicks (added ++ older) = cs ++ clicks older.


(** Events of one look at the screen: the capture, reading the template,
    log lines. *)
Definition look_event (e : event) : bool :=
  match e with
  | Import | Imread _ | Log _ => true
  | _ => false
  end.

Definition is_import (e : event) : bool :=
  match e with Import => true | _ => false end.

Definition is_search (e : event) : bool :=
  match e with Search _ => true | _ => false end.

Definition count_event (p : event -> bool) (tr : trace) : nat :=
  length (List.filter p tr).

(** The screen captures of a run. *)
Definition captures (tr : trace) : nat := count_event is_import tr.

(** ** Functions the two scripts share

    [take_screenshot], [get_mouse_position], [bezier_curve],
    [human_move_mouse], [click_at], [click_random_within], [type_text] and
    [press_key] are the same in [bolt_login.py] and [post_launch.py] up to
    comments and the prefix of the log lines; they are embedded once. *)

Section Runtime.
Context {Image : Type} `{OpenCV Image} (env : Env Image).

Definition log_info : M unit := emit (Log INFO).
Definition log_warn : M unit := emit (Log WARN).
Definition log_error : M unit := emit (Log ERROR).
Definition log_step : M unit := emit (Log STEP).
Definition log_debug : M unit := emit (Log DEBUG).

Definition time_sleep (seconds : Q) : M unit := emit (Sleep seconds).

(** [random.randint(a, b)]: an integer N with a <= N <= b. *)
Definition randint (a b : Z) : M Z :=
  if a <=? b
  then r <- query Random (entropy env);; ret (a + r mod (b - a + 1))
  else raise ValueError.

(** [random.random()]: k / 2^53 with 0 <= k < 2^53. *)
Definition unit_draw (tr : trace) : Q := Qmake (entropy env tr mod 2 ^ 53) (2 ^ 53).

Definition random_random : M Q := query Random unit_draw.

(** [random.uniform(a, b)] is [a + (b - a) * random()]. *)
Definition uniform (a b : Q) : M Q :=
  u <- random_random;; ret (a + (b - a) * u)%Q.

(** [for x in l: body(x)] *)
Fixpoint for_each {A} (l : list A) (body : A -> M unit) : M unit :=
  match l with
  | [] => ret tt
  | x :: l' => body x;; for_each l' body
  end.

Definition range (n : Z) : list Z := map Z.of_nat (seq 0 (Z.to_nat n)).

(** [int(f)] on a float: truncation towards zero. *)
Definition int (f : Q) : Z := if Qle_bool 0 f then Qfloor f else Qceiling f.

Definition take_screenshot : M (option Image) :=
  r <- query Import (screen env);;
  match r with
  | inl ImportFailed => log_error;; ret None
  | inl ScreenUnreadable => log_error;; ret None
  | inl CaptureRaised => log_error;; ret None
  | inr img => ret (Some img)
  end.

(** What [get_mouse_position] answers at this point of the run. *)
Definition mouse_position (tr : trace) : Z * Z :=
  match mouse env tr with
  | Some (x, y) => (x, y)
  | None => (960, 540)
  end.

Definition get_mouse_position : M (Z * Z) :=
  r <- query GetMouseLocation (mouse env);;
  match r with
  | Some (x, y) => ret (x, y)
  | None => ret (960, 540)
  end.

Definition bezier_curve (t p0 p1 p2 p3 : Q) : Q :=
  ((1 - t) ^ 3 * p0 + 3 * (1 - t) ^ 2 * t * p1 + 3 * (1 - t) * t ^ 2 * p2 + t ^ 3 * p3)%Q.

(** [steps = max(10, int(distance / 15))] with
    [distance = ((tx - sx)**2 + (ty - sy)**2)**0.5]: the integer part of
    [sqrt(n) / 15] is that of [floor(sqrt(n)) / 15], which computes; see
    [int_distance_over_15]. *)
Definition distance_squared (start_x start_y target_x target_y : Z) : Z :=
  (target_x - start_x) ^ 2 + (target_y - start_y) ^ 2.

(** The distance itself, a real number. *)
Definition distance (start_x start_y target_x target_y : Z) : R :=
  sqrt (IZR (distance_squared start_x start_y target_x target_y)).

Definition move_steps (start_x start_y target_x target_y : Z) : Z :=
  Z.max 10 (Z.sqrt (distance_squared start_x start_y target_x target_y) / 15).

Definition smoothstep (t : Q) : Q := (t * t * (3 - 2 * t))%Q.

(** The point of the curve emitted at iteration [i]. *)
Definition waypoint (steps : Z) (p0 p1 p2 p3 : Q) (i : Z) : Z :=
  let t := (inject_Z i / inject_Z steps)%Q in
  let t := smoothstep t in
  int (bezier_curve t p0 p1 p2 p3).

Definition human_move_mouse (target_x target_y : Z) : M unit :=
  start <- get_mouse_position;;
  let start_x := fst start in
  let start_y := snd start in
  r1 <- randint (-50) 50;;
  let cp1_x := (inject_Z start_x + inject_Z (target_x - start_x) * (3 # 10) + inject_Z r1)%Q in
  r2 <- randint (-30) 30;;
  let cp1_y := (inject_Z start_y + inject_Z (target_y - start_y) * (1 # 10) + inject_Z r2)%Q in
  r3 <- randint (-50) 50;;
  let cp2_x := (inject_Z start_x + inject_Z (target_x - start_x) * (7 # 10) + inject_Z r3)%Q in
  r4 <- randint (-30) 30;;
  let cp2_y := (inject_Z start_y + inject_Z (target_y - start_y) * (9 # 10) + inject_Z r4)%Q in
  let steps := move_steps start_x start_y target_x target_y in
  for_each (range (steps + 1)) (fun i =>
    let x := waypoint steps (inject_Z start_x) cp1_x cp2_x (inject_Z target_x) i in
    let y := waypoint steps (inject_Z start_y) cp1_y cp2_y (inject_Z target_y) i in
    emit (MouseMove x y);;
    pause <- uniform (5 # 1000) (15 # 1000);;
    time_sleep pause);;
  emit (MouseMove target_x target_y).

Definition click_at (x y : Z) : M unit :=
  human_move_mouse x y;;
  pause <- uniform (5 # 100) (15 # 100);;
  time_sleep pause;;
  emit Click;;
  pause <- uniform (1 # 10) (3 # 10);;
  time_sleep pause.

Definition click_random_within (x y width height : Z) : M unit :=
  let margin := 5 in
  dx <- randint margin (Z.max (margin + 1) (width - margin));;
  let rand_x := x + dx in
  dy <- randint margin (Z.max (margin + 1) (height - margin));;
  let rand_y := y + dy in
  log_info;;
  click_at rand_x rand_y.

Definition type_text (text : string) : M unit :=
  for_each (list_ascii_of_string text) (fun char =>
    emit (TypeChar char);;
    pause <- uniform (5 # 100) (15 # 100);;
    time_sleep pause).

Definition press_key (key : string) : M unit :=
  emit (Key key);;
  pause <- uniform (1 # 10) (2 # 10);;
  time_sleep pause.

(** What [find_template] returns when it finds: the centre of the match,
    or its top-left corner and size. *)
Inductive found :=
| Center (x y : Z)
| Bounds (x y w h : Z).

(** [coords[0]] and [coords[1]]. *)
Definition item0 (c : found) : Z := match c with Center x _ => x | Bounds x _ _ _ => x end.
Definition item1 (c : found) : Z := match c with Center _ y => y | Bounds _ y _ _ => y end.

(** Lines 91-108 of [bolt_login.py], 90-107 of [post_launch.py]: the
    match of a decoded template against the frame. *)
Definition match_template (log_score : M unit) (screen_img template : Image)
    (threshold : Q) (return_bounds : bool) : M (option found) :=
  let screen_gray := cvtColor_BGR2GRAY screen_img in
  let template_gray := cvtColor_BGR2GRAY template in
  let result := matchTemplate_CCOEFF_NORMED screen_gray template_gray in
  let '(_, max_val, _, max_loc) := minMaxLoc result in
  log_score;;
  if Qle_bool threshold max_val then
    let '(h, w) := shape template in
    if return_bounds then ret (Some (Bounds (fst max_loc) (snd max_loc) w h))
    else
      let center_x := fst max_loc + w / 2 in
      let center_y := snd max_loc + h / 2 in
      ret (Some (Center center_x center_y))
  else ret None.

Definition MATCH_THRESHOLD : Q := 8 # 10.
Definition POLL_INTERVAL : Q := 1 # 2.

(** [template_path.exists()] and [cv2.imread(str(template_path))]. *)
Definition path_exists (template_name : string) : bool :=
  match templates env template_name with
  | Absent => false
  | _ => true
  end.

Definition imread (template_name : string) : M (option Image) :=
  query (Imread template_name) (fun _ =>
    match templates env template_name with
    | Decoded img => Some img
    | _ => None
    end).

(** Iterations a [while elapsed < timeout] loop can make, and one more
    for the test that ends it. *)
Definition polls (timeout : Q) : nat :=
  S (Z.to_nat (Qceiling (timeout / POLL_INTERVAL))).

(** The loop of [wait_and_click] (lines 200-213 of [bolt_login.py],
    195-208 of [post_launch.py]); [find] is the call of [find_template]
    of the script. *)
Fixpoint poll_and_click (fuel : nat) (find : Image -> M (option found))
    (timeout elapsed : Q) : M bool :=
  match fuel with
  | O => raise OutOfFuel
  | S fuel' =>
    if Qlt_bool elapsed timeout then
      screen_img <- take_screenshot;;
      clicked <- match screen_img with
                 | Some s =>
                   coords <- find s;;
                   match coords with
                   | Some c => log_info;; click_at (item0 c) (item1 c);; ret true
                   | None => ret false
                   end
                 | None => ret false
                 end;;
      if clicked : bool then ret true
      else
        time_sleep POLL_INTERVAL;;
        poll_and_click fuel' find timeout (elapsed + POLL_INTERVAL)%Q
    else
      log_warn;; ret false
  end.

(** One attempt of the loop: capture the screen and look for the
    template. *)
Definition look (find : Image -> M (option found)) : M (option found) :=
  screen_img <- take_screenshot;;
  match screen_img with
  | Some s => find s
  | None => ret None
  end.

(** The run after an attempt that found nothing, and the sleep that
    follows it; and after [k] of them. *)
Definition after_miss (find : Image -> M (option found)) (tr : trace) : trace :=
  Sleep POLL_INTERVAL :: trace_of (look find) tr.

Fixpoint poll_state (find : Image -> M (option found)) (k : nat) (tr : trace) : trace :=
  match k with
  | O => tr
  | S k' => poll_state find k' (after_miss find tr)
  end.

(** [elapsed] after [k] sleeps. *)
Definition elapsed_after (k : nat) : Q := (inject_Z (Z.of_nat k) * POLL_INTERVAL)%Q.

(** What it is for [wait], entered with the run [tr], to log its step
    and poll with [find] up to [timeout]: attempts are numbered from 0,
    attempt [k] is made after [k] sleeps.

    - If attempt [k] is the first to find the template, and
      [k * POLL_INTERVAL < timeout], then [wait] returns [True]; after
      that attempt it only moves the pointer and clicks, once, on what
      was found.
    - If no attempt made before the timeout finds it, then [wait] returns
      [False] after some [n] attempts and sleeps, the first [n] with
      [timeout <= n * POLL_INTERVAL]: less than one interval past the
      timeout. *)
Definition polls_and_clicks (find : Image -> M (option found)) (wait : M bool)
    (timeout : Q) (tr : trace) : Prop :=
  let entry := Log STEP :: tr in
  (forall (k : nat) (c : found),
      (elapsed_after k < timeout)%Q ->
      (forall j, (j < k)%nat -> result_of (look find) (poll_state find j entry) = Ok None) ->
      result_of (look find) (poll_state find k entry) = Ok (Some c) ->
      exists added,
        wait tr = (Ok true, added ++ trace_of (look find) (poll_state find k entry)) /\
        Forall (fun e => pointer_event e = true) added /\
        clicks (added ++ trace_of (look find) (poll_state find k entry)) =
          Some (item0 c, item1 c) :: clicks (trace_of (look find) (poll_state find k entry)))
  /\
  ((forall j, (elapsed_after j < timeout)%Q ->
              result_of (look find) (poll_state find j entry) = Ok None) ->
   exists n : nat,
     wait tr = (Ok false, Log WARN :: poll_state find n entry) /\
     (timeout <= elapsed_after n)%Q /\
     (n = O \/ (elapsed_after n < timeout + POLL_INTERVAL)%Q)).
(** [find] is a look-up of a template: it raises nothing and only reads
    the template and logs. *)
Definition looks_up (find : Image -> M (option found)) : Prop :=
  forall s tr, exists r added,
    find s tr = (Ok r, added ++ tr) /\ Forall (fun e => lookup_event e = true) added.

End Runtime.

(** The run [tr] has seen a search for the game's window answered with a
    window id. *)
Definition game_seen {Image : Type} (env : Env Image) (tr : trace) : Prop :=
  exists post before window_id ids,
    tr = post ++ Search "RuneLite" :: before /\
    windows env before "RuneLite" = SearchDone 0 (window_id :: ids).

(** An exit code of the login script, and the run it ends: 0 or 1, and 0
    only if the game's window was seen. *)
Definition exit_ok {Image : Type} (env : Env Image) (code : Z) (tr : trace) : Prop :=
  (code = 0 \/ code = 1) /\ (code = 0 -> game_seen env tr).

(** ** bolt_login.py *)

Module BoltLogin.
Section Flow.
Context {Image : Type} `{OpenCV Image} (env : Env Image).

Definition find_template (screen_img : Image) (template_name : string)
    (threshold : Q) (return_bounds : bool) : M (option found) :=
  if negb (path_exists env template_name) then
    log_error;; ret None
  else
    template <- imread env template_name;;
    match template with
    | None => log_error;; ret None
    | Some template => match_template log_info screen_img template threshold return_bounds
    end.

Definition wait_and_click (template_name : string) (timeout : Q) : M bool :=
  log_step;;
  poll_and_click env (polls timeout)
    (fun s => find_template s template_name MATCH_THRESHOLD false) timeout 0.

Definition check_template_present (template_name : string) : M bool :=
  screen_img <- take_screenshot env;;
  match screen_img with
  | None => ret false
  | Some s =>
    r <- find_template s template_name MATCH_THRESHOLD false;;
    ret (bool_decide (is_Some r))
  end.

Fixpoint wait_for_window_loop (fuel : nat) (window_name : string)
    (timeout elapsed : Q) : M (option string) :=
  match fuel with
  | O => raise OutOfFuel
  | S fuel' =>
    if Qlt_bool elapsed timeout then
      result <- query (Search window_name) (fun tr => windows env tr window_name);;
      match result with
      | SearchDone 0 (window_id :: _) => log_info;; ret (Some window_id)
      | _ =>
        time_sleep POLL_INTERVAL;;
        wait_for_window_loop fuel' window_name timeout (elapsed + POLL_INTERVAL)%Q
      end
    else
      log_error;; ret None
  end.

Definition wait_for_window (window_name : string) (timeout : Q) : M (option string) :=
  log_info;;
  wait_for_window_loop (polls timeout) window_name timeout 0.

(** [d[k]] on a dict. *)
Definition getitem (d : gmap string json) (k : string) : M json :=
  match d !! k with
  | Some v => ret v
  | None => raise (KeyError k)
  end.

(** The keys [load_config] reads, lines 254-257. *)
Definition required_fields : list string :=
  ["username"; "password"; "totpSecret"; "characterName"]%string.

Definition load_config (config_path : string) : M (gmap string json) :=
  f <- query (OpenConfig config_path) (fun _ => config_files env config_path);;
  match f with
  | ConfigMissing => raise OSError
  | ConfigMalformed => raise JSONDecodeError
  | ConfigObject config =>
    getitem config "username";;
    getitem config "password";;
    getitem config "totpSecret";;
    getitem config "characterName";;
    ret config
  end.

(** Truth value of a JSON scalar in an [if]. *)
Definition truthy (v : json) : bool :=
  match v with
  | JNull => false
  | JBool b => b
  | JInt n => negb (n =? 0)
  | JStr s => negb (String.eqb s "")
  end.

(** A value used where the code needs a [str]: iterating over it in
    [type_text], or passing it on a command line. *)
Definition as_str (v : json) : M string :=
  match v with
  | JStr s => ret s
  | _ => raise TypeError
  end.

(** Step 1, lines 302-305: the probe for the disclaimer. *)
Definition detect_session_state : M bool :=
  log_step;;
  screen_img <- take_screenshot env;;
  match screen_img with
  | None => ret false
  | Some s =>
    r <- find_template s "i_understand_button.png" MATCH_THRESHOLD false;;
    ret (bool_decide (is_Some r))
  end.

(** Lines 308-311. *)
Definition step1_dismiss_disclaimer : M unit :=
  log_info;;
  clicked <- wait_and_click "i_understand_button.png" 5;;
  if clicked then log_info;; time_sleep 2 else ret tt.

(** Step 2, lines 316-322. *)
Definition step2_click_login : M unit :=
  log_step;;
  clicked <- wait_and_click "login_button.png" 10;;
  if clicked then log_info;; time_sleep 3 else log_warn.

(** Step 3, lines 327-344. *)
Definition step3_cloudflare : M unit :=
  log_step;;
  wait_time <- uniform env (32 # 10) (36 # 10);;
  log_info;;
  time_sleep wait_time;;
  screen_img <- take_screenshot env;;
  match screen_img with
  | None => ret tt
  | Some s =>
    bounds <- find_template s "cloudflare_human_checkbox.png"
                (MATCH_THRESHOLD * (75 # 100))%Q true;;
    match bounds with
    | Some (Bounds x y w h) =>
      log_info;; click_random_within env x y w h;; time_sleep 3
    | Some (Center _ _) => raise ValueError     (* x, y, w, h = bounds *)
    | None => log_info
    end
  end.

(** Step 4, lines 349-365; yields the password read at line 353. *)
Definition step4_enter_email (CONFIG : gmap string json) : M json :=
  log_step;;
  email <- getitem CONFIG "username";;
  password <- getitem CONFIG "password";;
  pause <- uniform env (13 # 10) (16 # 10);;
  time_sleep pause;;
  text <- as_str email;;
  type_text env text;;
  pause <- uniform env (2 # 10) (4 # 10);;
  time_sleep pause;;
  press_key env "Return";;
  log_info;;
  time_sleep 2;;
  ret password.

(** Lines 368-369: is the "can't open page" banner on screen? *)
Definition error_banner_detected : M bool :=
  screen_img <- take_screenshot env;;
  match screen_img with
  | None => ret false
  | Some s =>
    r <- find_template s "error_login_cant_open_page.png" MATCH_THRESHOLD false;;
    ret (bool_decide (is_Some r))
  end.

(** Step 5, lines 376-388. *)
Definition step5_enter_password (password : json) : M unit :=
  log_step;;
  pause <- uniform env (3 # 10) (6 # 10);;
  time_sleep pause;;
  text <- as_str password;;
  type_text env text;;
  pause <- uniform env (2 # 10) (4 # 10);;
  time_sleep pause;;
  press_key env "Return";;
  log_info;;
  time_sleep 3.

(** Step 6, lines 393-428; [Some 1] is the [return 1] of line 426. *)
Definition step6_two_factor (CONFIG : gmap string json) : M (option Z) :=
  totp_secret <- getitem CONFIG "totpSecret";;
  if truthy totp_secret then
    log_step;;
    pause <- uniform env 2 (23 # 10);;
    time_sleep pause;;
    clicked <- wait_and_click "login_authenticator_app_button.png" 10;;
    (if clicked then log_info else log_warn);;
    pause <- uniform env 2 (23 # 10);;
    time_sleep pause;;
    secret <- as_str totp_secret;;
    result <- query (Oathtool secret) (fun tr => oathtool env tr secret);;
    match result with
    | Some totp_code =>
      log_info;;
      type_text env totp_code;;
      pause <- uniform env (2 # 10) (4 # 10);;
      time_sleep pause;;
      press_key env "Return";;
      log_info;;
      time_sleep 3;;
      ret None
    | None => log_error;; ret (Some 1)
    end
  else
    log_step;; ret None.

(** Lines 308-365: the full login up to the submission of the e-mail. *)
Definition submit_email (CONFIG : gmap string json) : M json :=
  step1_dismiss_disclaimer;;
  step2_click_login;;
  step3_cloudflare;;
  step4_enter_email CONFIG.

(** The branch [if need_login:], lines 308-428. *)
Definition full_login (CONFIG : gmap string json) : M (option Z) :=
  password <- submit_email CONFIG;;
  banner <- error_banner_detected;;
  if banner then
    log_error;; ret (Some 1)
  else
    step5_enter_password password;;
    step6_two_factor CONFIG.

(** The branch [else:], lines 430-494. *)
Definition persisted_session : M unit :=
  log_info;;
  (* Step 2 (persisted) *)
  log_step;;
  pause <- uniform env (5 # 10) (8 # 10);;
  time_sleep pause;;
  screen_img <- take_screenshot env;;
  select_account_coords <-
    match screen_img with
    | None => ret None
    | Some s =>
      coords <- find_template s "select_account_button.png" MATCH_THRESHOLD false;;
      match coords with
      | Some c => log_info;; click_at env (item0 c) (item1 c);; ret coords
      | None => log_warn;; ret coords
      end
    end;;
  (* Step 3 (persisted) *)
  log_step;;
  pause <- uniform env (5 # 10) (8 # 10);;
  time_sleep pause;;
  clicked <- wait_and_click "user_select_label.png" 10;;
  (if clicked then log_info else log_warn);;
  (* Step 4 (persisted) *)
  log_step;;
  pause <- uniform env (8 # 10) (12 # 10);;
  time_sleep pause;;
  screen_img <- take_screenshot env;;
  match screen_img with
  | None => ret tt
  | Some s =>
    coords <- find_template s "user_select_header.png" MATCH_THRESHOLD false;;
    match coords with
    | Some c =>
      let click_x := item0 c in
      let click_y := item1 c + 20 in
      log_info;; click_at env click_x click_y;; time_sleep 1
    | None => log_warn
    end
  end;;
  (* Step 5 (persisted) *)
  log_step;;
  pause <- uniform env (5 # 10) (8 # 10);;
  time_sleep pause;;
  match select_account_coords with
  | Some c => log_info;; click_at env (item0 c) (item1 c);; time_sleep (5 # 10)
  | None => log_warn
  end.

(** Steps 7, 7a, 8 and the wait for RuneLite, lines 496-580. *)
Definition character_select_and_launch : M Z :=
  (* Step 7 *)
  log_step;;
  pause <- uniform env 2 (23 # 10);;
  time_sleep pause;;
  screen_img <- take_screenshot env;;
  match screen_img with
  | None => ret tt
  | Some s =>
    coords <- find_template s "character_select_label.png" MATCH_THRESHOLD false;;
    match coords with
    | Some c =>
      let click_x := item0 c in
      let click_y := item1 c + 30 in
      log_info;; click_at env click_x click_y
    | None => log_warn
    end
  end;;
  (* Step 7a *)
  log_step;;
  pause <- uniform env (15 # 10) (18 # 10);;
  time_sleep pause;;
  screen_img <- take_screenshot env;;
  match screen_img with
  | None => ret tt
  | Some s =>
    coords <- find_template s "character_select_header.png" MATCH_THRESHOLD false;;
    match coords with
    | Some c =>
      let click_x := item0 c in
      let click_y := item1 c + 30 in
      log_info;; click_at env click_x click_y;; time_sleep 1
    | None => log_warn
    end
  end;;
  (* Step 8 *)
  log_step;;
  pause <- uniform env (5 # 10) (8 # 10);;
  time_sleep pause;;
  clicked <- wait_and_click "play_button.png" 10;;
  (if clicked then log_info;; time_sleep 3 else log_warn);;
  (* Wait for RuneLite to launch *)
  log_step;;
  runelite <- wait_for_window "RuneLite" 300;;
  match runelite with
  | Some _ =>
    log_info;;
    time_sleep 20;;
    log_info;;
    result <- query (Search "RuneLite") (fun tr => windows env tr "RuneLite");;
    match result with
    | SearchRaised => log_warn
    | SearchDone _ (window_id :: _) =>
      emit (WindowMove window_id 0 0);;
      emit (WindowSize window_id 1920 1080);;
      log_info
    | SearchDone _ [] => ret tt
    end;;
    ret 0
  | None => log_warn;; ret 1
  end.

(** Lines 302-580: from the probe to the end. *)
Definition login_flow (CONFIG : gmap string json) : M Z :=
  need_login <- detect_session_state;;
  if need_login then
    early <- full_login CONFIG;;
    match early with
    | Some code => ret code
    | None => character_select_and_launch
    end
  else
    persisted_session;;
    character_select_and_launch.

(** Lines 269-295: what [main] does before the probe; [inl code] is an
    early [return code]. *)
Definition startup (config_path : string) : M (Z + gmap string json) :=
  log_info;; log_info;; log_info;;
  log_info;;
  CONFIG <- load_config config_path;;
  getitem CONFIG "username";; log_info;;
  getitem CONFIG "characterName";; log_info;;
  result <- query (Search "RuneLite") (fun tr => windows env tr "RuneLite");;
  match result with
  | SearchRaised => raise OSError
  | SearchDone 0 (_ :: _) => log_info;; ret (inl 0)
  | SearchDone _ _ =>
    bolt_window <- wait_for_window "Bolt" 60;;
    match bolt_window with
    | None => log_error;; ret (inl 1)
    | Some _ => time_sleep 2;; ret (inr CONFIG)
    end
  end.

(** [main()], with [--config config_path] on the command line. *)
Definition main (config_path : string) : M Z :=
  started <- startup config_path;;
  match started with
  | inl code => ret code
  | inr CONFIG => login_flow CONFIG
  end.
End Flow.
End BoltLogin.

(** ** post_launch.py *)

Module PostLaunch.
Section Flow.
Context {Image : Type} `{OpenCV Image} (env : Env Image).

Definition find_template (screen_img : Image) (template_name : string)
    (threshold : Q) (return_bounds : bool) : M (option found) :=
  template <- imread env template_name;;
  match template with
  | None => ret None
  | Some template => match_template log_debug screen_img template threshold return_bounds
  end.

Definition wait_and_click (template_name : string) (timeout : Q) (threshold : Q) : M bool :=
  log_step;;
  poll_and_click env (polls timeout)
    (fun s => find_template s template_name threshold false) timeout 0.

Definition check_template_present (template_name : string) : M bool :=
  screen_img <- take_screenshot env;;
  match screen_img with
  | None => ret false
  | Some s =>
    r <- find_template s template_name MATCH_THRESHOLD false;;
    ret (bool_decide (is_Some r))
  end.

(** Phase 2.5, lines 270-281: [for attempt in range(6): ... else: ...]
    with [attempts] iterations still to make. *)
Fixpoint lobby_attempts (attempts : nat) : M unit :=
  match attempts with
  | O => log_info
  | S attempts' =>
    screen_img <- take_screenshot env;;
    clicked <- match screen_img with
               | None => ret false
               | Some s =>
                 coords <- find_template s "lobby_click_to_play.png" (7 # 10) false;;
                 match coords with
                 | Some c =>
                   log_info;; click_at env (item0 c) (item1 c);; time_sleep 3;; ret true
                 | None => ret false
                 end
               end;;
    if clicked : bool then ret tt
    else time_sleep (25 # 10);; lobby_attempts attempts'
  end.

(** [main()]; [CHARACTER_NAME] is the environment variable, if set. *)
Definition main (CHARACTER_NAME : option string) : M Z :=
  log_info;; log_info;; log_info;; log_info;;
  let character_name := default "" CHARACTER_NAME in
  log_info;;
  log_step;;
  time_sleep 20;;
  (* Phase 1 *)
  log_step;;
  screen_img <- take_screenshot env;;
  match screen_img with
  | None => ret tt
  | Some s =>
    coords <- find_template s "license_accept_button.png" MATCH_THRESHOLD false;;
    match coords with
    | Some c => log_info;; click_at env (item0 c) (item1 c);; time_sleep 1
    | None => log_info
    end
  end;;
  (* Phase 2 *)
  log_step;;
  clicked <- wait_and_click "runelite_play_button.png" 30 (6 # 10);;
  (if clicked then log_info;; time_sleep 5 else log_warn);;
  (* Phase 2.5 *)
  log_step;;
  time_sleep 3;;
  lobby_attempts 6;;
  (* Phase 3 *)
  (if negb (String.eqb character_name "") then
     log_step;;
     time_sleep 3;;
     screen_img <- take_screenshot env;;
     match screen_img with
     | None => ret tt
     | Some s =>
       coords <- find_template s "name_entry_field.png" MATCH_THRESHOLD false;;
       match coords with
       | Some c =>
         log_info;;
         click_at env (item0 c) (item1 c);;
         time_sleep (5 # 10);;
         log_info;;
         type_text env character_name;;
         time_sleep (5 # 10);;
         confirmed <- wait_and_click "name_confirm_button.png" 5 MATCH_THRESHOLD;;
         (if confirmed then log_info else press_key env "Return");;
         time_sleep 2
       | None => log_info
       end
     end
   else log_info);;
  log_info;; log_info;; log_info;;
  ret 0.
End Flow.
End PostLaunch.


(** ** A synthetic display, for running the scripts

    A picture has a size, a name, and shows some templates at some
    places; the score of a template at a place is 1 where the frame shows
    it and 0 elsewhere. *)

Module Demo.
Record picture := {
  pic_h : Z;
  pic_w : Z;
  pic_name : string;
  pic_shows : list (string * (Z * Z))
}.

Definition shows (frame : picture) (name : string) (x y : Z) : bool :=
  existsb (fun s => String.eqb (fst s) name && (fst (snd s) =? x) && (snd (snd s) =? y))
          (pic_shows frame).

Definition correlate (frame template : picture) : ScoreMap :=
  {| sm_cols := Z.to_pos (pic_w frame - pic_w template + 1);
     sm_rows := Z.to_pos (pic_h frame - pic_h template + 1);
     sm_at := fun x y => if shows frame (pic_name template) x y then 1%Q else 0%Q |}.

#[global] Instance demo_cv : OpenCV picture := {|
  Gray := picture;
  shape := fun p => (pic_h p, pic_w p);
  cvtColor_BGR2GRAY := fun p => p;
  matchTemplate_CCOEFF_NORMED := correlate
|}.

(** A 40 x 30 frame showing the given templates. *)
Definition frame (shows : list (string * (Z * Z))) : picture :=
  {| pic_h := 30; pic_w := 40; pic_name := "screen"; pic_shows := shows |}.

(** Every template is 10 wide and 6 high; "broken.png" does not decode
    and "missing.png" is not in the directory. *)
Definition store (name : string) : template_file picture :=
  if String.eqb name "missing.png" then Absent
  else if String.eqb name "broken.png" then Undecodable
  else Decoded {| pic_h := 6; pic_w := 10; pic_name := name; pic_shows := [] |}.

Definition full_config : gmap string json :=
  <["username" := JStr "user@example.org"]>
  (<["password" := JStr "hunter2"]>
  (<["totpSecret" := JStr "JBSWY3DP"]>
  (<["characterName" := JStr "Zezima"]> ∅))).

(** A world: what is on screen (by the history of the run), which
    windows exist, and the configuration file. *)
Definition world (on_screen : trace -> capture + picture)
    (open_windows : trace -> string -> search_reply)
    (config : config_file) : Env picture :=
  {| screen := on_screen;
     templates := store;
     mouse := fun _ => Some (3, 4);
     entropy := fun tr => 7919 * Z.of_nat (length tr);
     windows := open_windows;
     oathtool := fun _ _ => Some "123456"%string;
     config_files := fun _ => config |}.

(** The launcher is up, the game is not, and shows up once asked for the
    fourth time. *)
Definition launcher_windows (tr : trace) (name : string) : search_reply :=
  if String.eqb name "Bolt" then SearchDone 0 ["4194305"%string]
  else if (3 <=? count_event is_search tr)%nat then SearchDone 0 ["6291457"%string]
  else SearchDone 1 [].

(** A still screen. *)
Definition still (shows : list (string * (Z * Z))) : Env picture :=
  world (fun _ => inr (frame shows)) launcher_windows (ConfigObject full_config).

(** A screen that is blank for the first [n] captures and shows the
    templates from then on. *)
Definition appearing (n : nat) (shows : list (string * (Z * Z))) : Env picture :=
  world (fun tr => if (n <=? captures tr)%nat then inr (frame shows) else inr (frame []))
        launcher_windows (ConfigObject full_config).

(** A configuration with neither [totpSecret] nor [characterName]. *)
Definition two_field_config : gmap string json :=
  <["username" := JStr "user@example.org"]>
  (<["password" := JStr "hunter2"]> ∅).

(** A configuration whose [totpSecret] is the empty string. *)
Definition no_totp_config : gmap string json :=
  <["totpSecret" := JStr ""]> full_config.

Definition configured (config : gmap string json) : Env picture :=
  world (fun _ => inr (frame [])) launcher_windows (ConfigObject config).

(** The first capture fails, the screen is blank afterwards. *)
Definition first_capture_fails : Env picture :=
  world (fun tr => if (captures tr =? 0)%nat then inl ImportFailed else inr (frame []))
        launcher_windows (ConfigObject full_config).

(** The disclaimer is up, and so is the "can't open page" banner. *)
Definition cant_open_page : Env picture :=
  still [("i_understand_button.png"%string, (2, 3));
         ("error_login_cant_open_page.png"%string, (20, 10))].

(** No window ever shows up. *)
Definition no_windows : Env picture :=
    world (fun _ => inr (frame [])) (fun _ _ => SearchDone 1 []) (ConfigObject full_config).

(** The game is already running. *)
Definition already_running : Env picture :=
    world (fun _ => inr (frame [])) (fun _ _ => SearchDone 0 ["6291457"%string])
          (ConfigObject full_config).

End Demo.
(** * Properties *)

(** ** Unfolding the run monad *)

Lemma bind_ok {A B} (m : M A) (k : A -> M B) tr a tr' :
  m tr = (Ok a, tr') -> bind m k tr = k a tr'.
Proof. intros E. unfold bind. now rewrite E. Qed.

Lemma bind_raise {A B} (m : M A) (k : A -> M B) tr e tr' :
  m tr = (Raise e, tr') -> bind m k tr = (Raise e, tr').
Proof. intros E. unfold bind. now rewrite E. Qed.

Lemma bind_emit {B} (e : event) (k : unit -> M B) tr :
  bind (emit e) k tr = k tt (e :: tr).
Proof. reflexivity. Qed.

Lemma bind_query {A B} (e : event) (answer : trace -> A) (k : A -> M B) tr :
  bind (query e answer) k tr = k (answer tr) (e :: tr).
Proof. reflexivity. Qed.

Lemma bind_ret {A B} (a : A) (k : A -> M B) tr : bind (ret a) k tr = k a tr.
Proof. reflexivity. Qed.

Lemma bind_assoc {A B C} (m : M A) (k : A -> M B) (k' : B -> M C) tr :
  bind (bind m k) k' tr = bind m (fun a => bind (k a) k') tr.
Proof. unfold bind. destruct (m tr) as [[a | e] tr']; reflexivity. Qed.

(** ** The scan of the score map *)

Lemma Qlt_bool_true a b : Qlt_bool a b = true <-> (a < b)%Q.
Proof.
  unfold Qlt_bool. rewrite negb_true_iff. split.
  - intros E. apply Qnot_le_lt. intros L. apply Qle_bool_iff in L. congruence.
  - intros L. destruct (Qle_bool b a) eqn:E; [|reflexivity].
    apply Qle_bool_iff in E. exfalso. exact (Qlt_not_le _ _ L E).
Qed.

Lemma Qlt_bool_false a b : Qlt_bool a b = false <-> (b <= a)%Q.
Proof.
  unfold Qlt_bool. rewrite negb_false_iff. apply Qle_bool_iff.
Qed.

Lemma Qle_bool_false a b : Qle_bool a b = false <-> (b < a)%Q.
Proof.
  split.
  - intros E. apply Qnot_le_lt. intros L. apply Qle_bool_iff in L. congruence.
  - intros L. destruct (Qle_bool a b) eqn:E; [|reflexivity].
    apply Qle_bool_iff in E. exfalso. exact (Qlt_not_le _ _ L E).
Qed.

(** What the upward scan keeps: a placement it has seen, with its score,
    no smaller than any score seen. *)
Lemma scan_max_fold (r : ScoreMap) (l : list (Z * Z)) (best : Q * (Z * Z)) :
  fst best = score_at r (snd best) ->
  let hi := fold_left (scan_max r) l best in
  fst hi = score_at r (snd hi) /\
  (snd hi = snd best \/ In (snd hi) l) /\
  (fst best <= fst hi)%Q /\
  (forall p, In p l -> (score_at r p <= fst hi)%Q).
Proof.
  revert best. induction l as [|q l IH]; intros best Hb; simpl.
  - repeat split; auto. apply Qle_refl. intros p [].
  - assert (Hs : fst (scan_max r best q) = score_at r (snd (scan_max r best q))).
    { unfold scan_max. destruct (Qlt_bool _ _); [reflexivity | exact Hb]. }
    destruct (IH _ Hs) as (H1 & H2 & H3 & H4).
    assert (Hq : (score_at r q <= fst (scan_max r best q))%Q /\
                 (fst best <= fst (scan_max r best q))%Q /\
                 (snd (scan_max r best q) = snd best \/ snd (scan_max r best q) = q)).
    { unfold scan_max, score_at. destruct (Qlt_bool _ _) eqn:E; simpl.
      - apply Qlt_bool_true in E. repeat split; [apply Qle_refl | now apply Qlt_le_weak | now right].
      - apply Qlt_bool_false in E. repeat split; [exact E | apply Qle_refl | now left]. }
    destruct Hq as (Hq1 & Hq2 & Hq3).
    repeat split.
    + exact H1.
    + destruct H2 as [H2 | H2]; [|now right; right].
      rewrite H2. destruct Hq3 as [-> | ->]; [now left | now right; left].
    + eapply Qle_trans; eassumption.
    + intros p [<- | Hp]; [eapply Qle_trans; eassumption | now apply H4].
Qed.

Lemma indices_head (n : positive) : In 0 (indices n).
Proof.
  unfold indices. apply in_map_iff. exists 0%nat. split; [reflexivity|].
  apply in_seq. lia.
Qed.

Lemma origin_in_placements (r : ScoreMap) : In (0, 0) (placements r).
Proof.
  unfold placements. apply in_flat_map. exists 0. split; [apply indices_head|].
  apply in_map_iff. exists 0. split; [reflexivity | apply indices_head].
Qed.

Lemma in_placements (r : ScoreMap) (x y : Z) :
  In (x, y) (placements r) <->
  0 <= x < Z.pos (sm_cols r) /\ 0 <= y < Z.pos (sm_rows r).
Proof.
  assert (Hi : forall n z, In z (indices n) <-> 0 <= z < Z.pos n).
  { intros n z. unfold indices. rewrite in_map_iff. split.
    - intros (k & <- & Hk). apply in_seq in Hk. lia.
    - intros Hz. exists (Z.to_nat z). split; [lia | apply in_seq; lia]. }
  unfold placements. rewrite in_flat_map. split.
  - intros (y' & Hy & Hx). apply in_map_iff in Hx as (x' & E & Hx).
    inversion E; subst. apply Hi in Hy, Hx. tauto.
  - intros [Hx Hy]. exists y. split; [now apply Hi|].
    apply in_map_iff. exists x. split; [reflexivity | now apply Hi].
Qed.

(** [maxVal] is the largest score of the map and [maxLoc] a placement
    that has it. *)
Lemma minMaxLoc_max (r : ScoreMap) :
  let '(_, max_val, _, max_loc) := minMaxLoc r in
  max_val = score_at r max_loc /\
  In max_loc (placements r) /\
  forall p, In p (placements r) -> (score_at r p <= max_val)%Q.
Proof.
  unfold minMaxLoc. cbv zeta.
  destruct (scan_max_fold r (placements r) (sm_at r 0 0, (0, 0)) eq_refl)
    as (H1 & H2 & _ & H4).
  repeat split; auto.
  destruct H2 as [H2 | H2]; [|exact H2].
  rewrite H2. apply origin_in_placements.
Qed.

(** ** find_template *)

Section FindTemplate.
Context {Image : Type} `{OpenCV Image} (env : Env Image).

Lemma match_template_result (log_score : M unit) (screen_img template : Image)
    (threshold : Q) (return_bounds : bool) (tr : trace) (l : level) :
  (forall tr0, log_score tr0 = (Ok tt, Log l :: tr0)) ->
  exists max_val x y,
    let r := matchTemplate_CCOEFF_NORMED (cvtColor_BGR2GRAY screen_img)
                                         (cvtColor_BGR2GRAY template) in
    max_val = sm_at r x y /\
    In (x, y) (placements r) /\
    (forall p, In p (placements r) -> (score_at r p <= max_val)%Q) /\
    match_template log_score screen_img template threshold return_bounds tr =
    (Ok (if Qle_bool threshold max_val
         then Some (if return_bounds
                    then Bounds x y (snd (shape template)) (fst (shape template))
                    else Center (x + snd (shape template) / 2)
                                (y + fst (shape template) / 2))
         else None),
     Log l :: tr).
Proof.
  intros Hlog. unfold match_template.
  pose proof (minMaxLoc_max (matchTemplate_CCOEFF_NORMED (cvtColor_BGR2GRAY screen_img)
                                                         (cvtColor_BGR2GRAY template))) as Hm.
  destruct (minMaxLoc _) as [[[min_val max_val] min_loc] [x y]].
  destruct Hm as (E & Hin & Hmax).
  exists max_val, x, y. cbv zeta.
  repeat split; auto.
  rewrite (bind_ok _ _ _ _ _ (Hlog tr)).
  destruct (shape template) as [h w]. simpl.
  destruct (Qle_bool threshold max_val); [destruct return_bounds|]; reflexivity.
Qed.
End FindTemplate.

Section BoltFindTemplate.
Context {Image : Type} `{OpenCV Image} (env : Env Image).

Lemma bolt_find_template_decoded screen_img name template threshold return_bounds tr :
  templates env name = Decoded template ->
  BoltLogin.find_template env screen_img name threshold return_bounds tr =
  match_template log_info screen_img template threshold return_bounds (Imread name :: tr).
Proof.
  intros E. unfold BoltLogin.find_template, path_exists, imread.
  rewrite E. reflexivity.
Qed.

(** C3.  For a frame and a template that decodes, [find_template] of
    [bolt_login.py] looks at the largest score of the correlation map and
    a placement [(x, y)] that has it.  If that score is at least the
    threshold it returns the centre [(x + w // 2, y + h // 2)], or with
    [return_bounds] the corner and size [(x, y, w, h)]; if it is below the
    threshold it returns [None].  It reports that one match at most. *)
Theorem find_template_accepts_best_match
    (screen_img : Image) (name : string) (template : Image)
    (threshold : Q) (return_bounds : bool) (tr : trace) :
  templates env name = Decoded template ->
  exists (max_val : Q) (x y : Z),
    let r := matchTemplate_CCOEFF_NORMED (cvtColor_BGR2GRAY screen_img)
                                         (cvtColor_BGR2GRAY template) in
    let h := fst (shape template) in
    let w := snd (shape template) in
    In (x, y) (placements r) /\
    max_val = sm_at r x y /\
    (forall x' y', In (x', y') (placements r) -> (sm_at r x' y' <= max_val)%Q) /\
    ((threshold <= max_val)%Q ->
     result_of (BoltLogin.find_template env screen_img name threshold return_bounds) tr =
     Ok (Some (if return_bounds then Bounds x y w h
               else Center (x + w / 2) (y + h / 2)))) /\
    ((max_val < threshold)%Q ->
     result_of (BoltLogin.find_template env screen_img name threshold return_bounds) tr =
     Ok None).
Proof.
  intros E.
  destruct (match_template_result log_info screen_img template threshold return_bounds
              (Imread name :: tr) INFO) as (max_val & x & y & Hv & Hin & Hmax & Hrun).
  { reflexivity. }
  exists max_val, x, y. cbv zeta in *.
  unfold result_of. rewrite (bolt_find_template_decoded _ _ _ _ _ _ E), Hrun. simpl.
  repeat split; auto.
  - intros x' y' Hp. exact (Hmax (x', y') Hp).
  - intros Hle. apply Qle_bool_iff in Hle. now rewrite Hle.
  - intros Hlt. apply Qle_bool_false in Hlt. now rewrite Hlt.
Qed.
End BoltFindTemplate.

Lemma find_template_accepts_best_match_witness :
  templates (Demo.still [("play_button.png"%string, (7, 9))]) "play_button.png"
  = Decoded {| Demo.pic_h := 6; Demo.pic_w := 10;
               Demo.pic_name := "play_button.png"; Demo.pic_shows := [] |} /\
  exists v,
    result_of (BoltLogin.find_template (Demo.still [("play_button.png"%string, (7, 9))])
                 (Demo.frame [("play_button.png"%string, (7, 9))])
                 "play_button.png" MATCH_THRESHOLD false) [] = Ok v.
Proof.
  split; [reflexivity|].
  destruct (find_template_accepts_best_match
              (Demo.still [("play_button.png"%string, (7, 9))])
              (Demo.frame [("play_button.png"%string, (7, 9))])
              "play_button.png" _ MATCH_THRESHOLD false [] eq_refl)
    as (max_val & x & y & _ & _ & _ & Hacc & Hrej).
  destruct (Qlt_le_dec max_val MATCH_THRESHOLD) as [Hlt | Hle].
  - eexists. exact (Hrej Hlt).
  - eexists. exact (Hacc Hle).
Defined.

Example find_template_demo_center :
  result_of (BoltLogin.find_template (Demo.still [("play_button.png"%string, (7, 9))])
               (Demo.frame [("play_button.png"%string, (7, 9))])
               "play_button.png" MATCH_THRESHOLD false) [] = Ok (Some (Center 12 12)).
Proof. vm_compute. reflexivity. Qed.

Example find_template_demo_bounds :
  result_of (BoltLogin.find_template (Demo.still [("play_button.png"%string, (7, 9))])
               (Demo.frame [("play_button.png"%string, (7, 9))])
               "play_button.png" MATCH_THRESHOLD true) [] = Ok (Some (Bounds 7 9 10 6)).
Proof. vm_compute. reflexivity. Qed.

(** ** Missing and unreadable templates *)

Section AssetErrors.
Context {Image : Type} `{OpenCV Image} (env : Env Image).

Lemma post_find_template_decoded screen_img name template threshold return_bounds tr :
  templates env name = Decoded template ->
  PostLaunch.find_template env screen_img name threshold return_bounds tr =
  match_template log_debug screen_img template threshold return_bounds (Imread name :: tr).
Proof.
  intros E. unfold PostLaunch.find_template, imread. rewrite E. reflexivity.
Qed.

(** C1, as the code has it.  When the template file is missing or does
    not decode, [find_template] returns [None], the very value it returns
    when the template is not on screen.  [bolt_login.py] tells the two
    apart only in its log: an error line for the asset, an info line with
    the score for a template that decoded.  [post_launch.py] logs nothing
    for a bad asset. *)
Theorem find_template_bad_asset_returns_none
    (screen_img : Image) (name : string) (threshold : Q) (return_bounds : bool)
    (tr : trace) :
  templates env name = Absent \/ templates env name = Undecodable ->
  result_of (BoltLogin.find_template env screen_img name threshold return_bounds) tr
    = Ok None /\
  (exists rest,
    trace_of (BoltLogin.find_template env screen_img name threshold return_bounds) tr
    = Log ERROR :: rest) /\
  PostLaunch.find_template env screen_img name threshold return_bounds tr
    = (Ok None, Imread name :: tr) /\
  (forall other template,
    templates env other = Decoded template ->
    exists rest,
      trace_of (BoltLogin.find_template env screen_img other threshold return_bounds) tr
      = Log INFO :: rest).
Proof.
  intros E. repeat split.
  - unfold result_of, BoltLogin.find_template, path_exists, imread.
    destruct E as [E | E]; rewrite E; reflexivity.
  - unfold trace_of, BoltLogin.find_template, path_exists, imread.
    destruct E as [E | E]; rewrite E; eexists; reflexivity.
  - unfold PostLaunch.find_template, imread.
    destruct E as [E | E]; rewrite E; reflexivity.
  - intros other template Ed. unfold trace_of.
    rewrite (bolt_find_template_decoded env _ _ _ _ _ _ Ed).
    destruct (match_template_result log_info screen_img template threshold return_bounds
                (Imread other :: tr) INFO) as (max_val & x & y & _ & _ & _ & Hrun).
    { reflexivity. }
    rewrite Hrun. eexists. reflexivity.
Qed.
End AssetErrors.

Lemma find_template_bad_asset_returns_none_witness :
  (templates (Demo.still []) "missing.png" = Absent \/
   templates (Demo.still []) "missing.png" = Undecodable) /\
  result_of (BoltLogin.find_template (Demo.still []) (Demo.frame [])
               "missing.png" MATCH_THRESHOLD false) [] = Ok None.
Proof.
  split; [left; reflexivity|].
  apply (find_template_bad_asset_returns_none (Demo.still []) (Demo.frame [])
           "missing.png" MATCH_THRESHOLD false []).
  left. reflexivity.
Defined.

(** C1, as the spec has it, fails: on a screen that does not show the play
    button, looking for a template whose file is missing, or for one that
    does not decode, returns what looking for the play button returns. *)
Lemma bad_asset_same_as_not_on_screen :
  let env := Demo.still [] in
  let not_on_screen :=
    result_of (BoltLogin.find_template env (Demo.frame []) "play_button.png"
                 MATCH_THRESHOLD false) [] in
  templates env "missing.png" = Absent /\
  templates env "broken.png" = Undecodable /\
  (exists t, templates env "play_button.png" = Decoded t) /\
  result_of (BoltLogin.find_template env (Demo.frame []) "missing.png"
               MATCH_THRESHOLD false) [] = not_on_screen /\
  result_of (BoltLogin.find_template env (Demo.frame []) "broken.png"
               MATCH_THRESHOLD false) [] = not_on_screen /\
  result_of (PostLaunch.find_template env (Demo.frame []) "missing.png"
               MATCH_THRESHOLD false) [] =
  result_of (PostLaunch.find_template env (Demo.frame []) "play_button.png"
               MATCH_THRESHOLD false) [].
Proof.
  cbv zeta. repeat split; try (vm_compute; reflexivity).
  eexists. reflexivity.
Qed.

(** ** Rules for [adds] and [succeeds] *)

Lemma adds_ret {A} (P : event -> bool) (a : A) : adds P (ret a).
Proof. intros tr. exists []. split; [reflexivity | constructor]. Qed.

Lemma adds_raise {A} (P : event -> bool) (e : exn) : adds P (@raise A e).
Proof. intros tr. exists []. split; [reflexivity | constructor]. Qed.

Lemma adds_emit (P : event -> bool) (e : event) : P e = true -> adds P (emit e).
Proof. intros He tr. exists [e]. split; [reflexivity | repeat constructor; exact He]. Qed.

Lemma adds_query {A} (P : event -> bool) (e : event) (answer : trace -> A) :
  P e = true -> adds P (query e answer).
Proof. intros He tr. exists [e]. split; [reflexivity | repeat constructor; exact He]. Qed.

Lemma adds_bind {A B} (P : event -> bool) (m : M A) (k : A -> M B) :
  adds P m -> (forall a, adds P (k a)) -> adds P (bind m k).
Proof.
  intros Hm Hk tr. destruct (Hm tr) as (added & E & F).
  unfold bind. destruct (m tr) as [[a | e] tr1]; simpl in E; subst tr1.
  - destruct (Hk a (added ++ tr)) as (added' & E' & F').
    exists (added' ++ added). rewrite E'. split.
    + now rewrite app_assoc.
    + apply Forall_app; split; assumption.
  - exists added. split; [reflexivity | exact F].
Qed.

Lemma adds_mono {A} (P Q : event -> bool) (m : M A) :
  (forall e, P e = true -> Q e = true) -> adds P m -> adds Q m.
Proof.
  intros HPQ Hm tr. destruct (Hm tr) as (added & E & F).
  exists added. split; [exact E|]. eapply Forall_impl; [exact F | exact HPQ].
Qed.

Lemma succeeds_ret {A} (a : A) : succeeds (ret a).
Proof. intros tr. now exists a. Qed.

Lemma succeeds_emit (e : event) : succeeds (emit e).
Proof. intros tr. now exists tt. Qed.

Lemma succeeds_query {A} (e : event) (answer : trace -> A) : succeeds (query e answer).
Proof. intros tr. now exists (answer tr). Qed.

Lemma succeeds_bind {A B} (m : M A) (k : A -> M B) :
  succeeds m -> (forall a, succeeds (k a)) -> succeeds (bind m k).
Proof.
  intros Hm Hk tr. destruct (Hm tr) as (a & E).
  unfold bind. destruct (m tr) as [[a' | e] tr1]; simpl in E; [|discriminate].
  apply Hk.
Qed.

(** Take a computation apart along its binds, branches and effects. *)
Ltac run_step :=
  match goal with
  | |- adds _ (bind _ _) => apply adds_bind; [|intros ?]
  | |- adds _ (ret _) => apply adds_ret
  | |- adds _ (raise _) => apply adds_raise
  | |- adds _ (emit _) => apply adds_emit; reflexivity
  | |- adds _ (query _ _) => apply adds_query; reflexivity
  | |- succeeds (bind _ _) => apply succeeds_bind; [|intros ?]
  | |- succeeds (ret _) => apply succeeds_ret
  | |- succeeds (emit _) => apply succeeds_emit
  | |- succeeds (query _ _) => apply succeeds_query
  | |- context [match ?x with _ => _ end] => destruct x
  end.

(** A kind of events is part of another: by cases on the event, and on
    the template name where both read one. *)
Ltac event_cases :=
  let e := fresh "e" in
  let E := fresh "E" in
  intros e; destruct e; unfold click_event;
  cbn [pointer_event move_event vision_event capture_event window_event no_credentials orb];
  intros E; try reflexivity; try discriminate E;
  repeat match goal with
         | H : String.eqb _ _ = true |- _ => apply String.eqb_eq in H; subst
         end;
  try reflexivity.

(** ** The pointer *)

Lemma moves_app (a b : trace) : moves (a ++ b) = moves b ++ moves a.
Proof. unfold moves. now rewrite omap_app, rev_app_distr. Qed.

Lemma clicks_app_moves (added tr : trace) :
  Forall (fun e => move_event e = true) added ->
  clicks (added ++ tr) = clicks tr.
Proof.
  induction 1 as [|e added He _ IH]; [reflexivity|].
  destruct e; simpl in *; try discriminate; exact IH.
Qed.

Section Pointer.
Context {Image : Type} `{OpenCV Image} (env : Env Image).


Lemma pause_run (a b : Q) (tr : trace) :
  (pause <- uniform env a b;; time_sleep pause) tr =
  (Ok tt, Sleep (a + (b - a) * unit_draw env tr)%Q :: Random :: tr).
Proof. reflexivity. Qed.

Lemma randint_run (a b : Z) (tr : trace) :
  a <= b ->
  randint env a b tr = (Ok (a + entropy env tr mod (b - a + 1)), Random :: tr).
Proof.
  intros L. unfold randint. apply Z.leb_le in L. now rewrite L.
Qed.

Lemma randint_range (a b : Z) (tr : trace) :
  a <= b -> a <= a + entropy env tr mod (b - a + 1) <= b.
Proof.
  intros L. pose proof (Z.mod_pos_bound (entropy env tr) (b - a + 1)). lia.
Qed.
End Pointer.

Section Motion.
Context {Image : Type} `{OpenCV Image} (env : Env Image).

Lemma get_mouse_position_run (tr : trace) :
  get_mouse_position env tr = (Ok (mouse_position env tr), GetMouseLocation :: tr).
Proof.
  unfold get_mouse_position, mouse_position. rewrite bind_query.
  destruct (mouse env tr) as [[x y]|]; reflexivity.
Qed.

(** The loop of [human_move_mouse]: one [mousemove] per index, each
    followed by a pause. *)
Lemma move_loop_run (fx fy : Z -> Z) (a b : Q) (l : list Z) (tr : trace) :
  exists added,
    for_each l (fun i =>
      emit (MouseMove (fx i) (fy i));;
      pause <- uniform env a b;;
      time_sleep pause) tr = (Ok tt, added ++ tr) /\
    moves added = map (fun i => (fx i, fy i)) l /\
    Forall (fun e => move_event e = true) added.
Proof.
  revert tr. induction l as [|i l IH]; intros tr.
  - exists []. repeat split; constructor.
  - cbn [for_each].
    rewrite (bind_ok _ _ tr tt
               (Sleep (a + (b - a) * unit_draw env (MouseMove (fx i) (fy i) :: tr))%Q
                :: Random :: MouseMove (fx i) (fy i) :: tr)) by reflexivity.
    destruct (IH (Sleep (a + (b - a) * unit_draw env (MouseMove (fx i) (fy i) :: tr))%Q
                  :: Random :: MouseMove (fx i) (fy i) :: tr)) as (added & E & Hm & F).
    exists (added ++ [Sleep (a + (b - a) * unit_draw env (MouseMove (fx i) (fy i) :: tr))%Q;
                      Random; MouseMove (fx i) (fy i)]).
    rewrite E. repeat split.
    + now rewrite <- app_assoc.
    + rewrite moves_app, Hm. reflexivity.
    + apply Forall_app; split; [exact F | repeat constructor].
Qed.

(** A run of [human_move_mouse]: it asks where the pointer is, draws the
    two control points, sends the pointer along the curve, and last to the
    target. *)
Lemma human_move_mouse_run (target_x target_y : Z) (tr : trace) :
  let start_x := fst (mouse_position env tr) in
  let start_y := snd (mouse_position env tr) in
  let steps := move_steps start_x start_y target_x target_y in
  exists (cp1_x cp1_y cp2_x cp2_y : Q) (added : trace),
    human_move_mouse env target_x target_y tr =
      (Ok tt, MouseMove target_x target_y :: added ++ tr) /\
    Forall (fun e => move_event e = true) added /\
    moves added =
      map (fun i => (waypoint steps (inject_Z start_x) cp1_x cp2_x (inject_Z target_x) i,
                     waypoint steps (inject_Z start_y) cp1_y cp2_y (inject_Z target_y) i))
          (range (steps + 1)).
Proof.
  cbv zeta. unfold human_move_mouse.
  rewrite (bind_ok _ _ _ _ _ (get_mouse_position_run tr)).
  set (start := mouse_position env tr).
  set (t1 := GetMouseLocation :: tr).
  rewrite (bind_ok _ _ _ _ _ (randint_run env (-50) 50 t1 ltac:(lia))).
  set (t2 := Random :: t1).
  rewrite (bind_ok _ _ _ _ _ (randint_run env (-30) 30 t2 ltac:(lia))).
  set (t3 := Random :: t2).
  rewrite (bind_ok _ _ _ _ _ (randint_run env (-50) 50 t3 ltac:(lia))).
  set (t4 := Random :: t3).
  rewrite (bind_ok _ _ _ _ _ (randint_run env (-30) 30 t4 ltac:(lia))).
  set (t5 := Random :: t4).
  cbv zeta.
  match goal with
  | |- context [for_each _ (fun i => bind (emit (MouseMove (@?fx i) (@?fy i))) _)] =>
    destruct (move_loop_run fx fy (5 # 1000) (15 # 1000)
                (range (move_steps (fst start) (snd start) target_x target_y + 1)) t5)
      as (added & E & Hm & F)
  end.
  cbv beta in E, Hm.
  do 4 eexists. exists (added ++ [Random; Random; Random; Random; GetMouseLocation]).
  rewrite (bind_ok _ _ _ _ _ E). repeat split.
  - unfold emit. rewrite <- app_assoc. reflexivity.
  - apply Forall_app; split; [exact F | repeat constructor].
  - rewrite moves_app. simpl. exact Hm.
Qed.
End Motion.

(** ** The path of the pointer *)

Lemma int_inject_Z (q : Q) (z : Z) : (q == inject_Z z)%Q -> int q = z.
Proof.
  intros E. unfold int. destruct (Qle_bool 0 q).
  - rewrite (Qfloor_comp _ _ E). apply Qfloor_Z.
  - rewrite (Qceiling_comp _ _ E). apply Qceiling_Z.
Qed.

(** At [i = 0] the curve is at its first point. *)
Lemma waypoint_first (steps p0 : Z) (p1 p2 p3 : Q) :
  waypoint steps (inject_Z p0) p1 p2 p3 0 = p0.
Proof.
  unfold waypoint. apply int_inject_Z.
  unfold bezier_curve, smoothstep, Qdiv. change (inject_Z 0) with 0%Q. ring.
Qed.

Lemma range_length (n : Z) : length (range n) = Z.to_nat n.
Proof. unfold range. now rewrite length_map, length_seq. Qed.

Lemma range_head (n : Z) : 0 < n -> exists l, range n = 0 :: l.
Proof.
  intros Hn. unfold range. destruct (Z.to_nat n) as [|k] eqn:E; [lia|].
  simpl. eexists. reflexivity.
Qed.

Lemma move_steps_at_least (sx sy tx ty : Z) : 10 <= move_steps sx sy tx ty.
Proof. unfold move_steps. lia. Qed.

Lemma distance_squared_nonneg (sx sy tx ty : Z) : 0 <= distance_squared sx sy tx ty.
Proof. unfold distance_squared. nia. Qed.

(** [Z.sqrt n / 15] is the integer part of [sqrt n / 15]. *)
Lemma isqrt_over_15 (n : Z) :
  0 <= n ->
  (IZR (Z.sqrt n / 15) <= sqrt (IZR n) / 15 < IZR (Z.sqrt n / 15) + 1)%R.
Proof.
  intros Hn.
  pose proof (Z.sqrt_spec n Hn) as [Hlo Hhi].
  pose proof (Z.sqrt_nonneg n) as Hs.
  set (s := Z.sqrt n) in *.
  pose proof (Z.div_mod s 15 ltac:(lia)) as Hd.
  pose proof (Z.mod_pos_bound s 15 ltac:(lia)) as Hm.
  set (q := s / 15) in *.
  assert (H1 : (IZR s <= sqrt (IZR n))%R).
  { rewrite <- (sqrt_square (IZR s)) by (apply IZR_le; lia).
    apply sqrt_le_1_alt. rewrite <- mult_IZR. apply IZR_le. lia. }
  assert (H2 : (sqrt (IZR n) < IZR (s + 1))%R).
  { rewrite <- (sqrt_square (IZR (s + 1))) by (apply IZR_le; lia).
    apply sqrt_lt_1_alt. split; [apply IZR_le; lia|].
    rewrite <- mult_IZR. apply IZR_lt. unfold Z.succ in Hhi. lia. }
  assert (H3 : (IZR (15 * q) <= IZR s)%R) by (apply IZR_le; lia).
  assert (H4 : (IZR (s + 1) <= IZR (15 * q + 15))%R) by (apply IZR_le; lia).
  rewrite mult_IZR in H3. rewrite !plus_IZR, mult_IZR in H4. rewrite plus_IZR in H2.
  split; Lra.lra.
Qed.

(** [int(distance / 15)] as [move_steps] computes it. *)
Lemma int_distance_over_15 (sx sy tx ty : Z) :
  let k := Z.sqrt (distance_squared sx sy tx ty) / 15 in
  move_steps sx sy tx ty = Z.max 10 k /\
  (IZR k <= distance sx sy tx ty / 15 < IZR k + 1)%R.
Proof.
  cbv zeta. split; [reflexivity|].
  apply isqrt_over_15, distance_squared_nonneg.
Qed.

(** Distances compare as their squares do. *)
Lemma distance_le (sx sy tx ty sx' sy' tx' ty' : Z) :
  (distance sx sy tx ty <= distance sx' sy' tx' ty')%R ->
  distance_squared sx sy tx ty <= distance_squared sx' sy' tx' ty'.
Proof.
  unfold distance. intros L. apply le_IZR. apply sqrt_le_0; [| |exact L];
    apply IZR_le, distance_squared_nonneg.
Qed.

Lemma move_steps_mono (sx sy tx ty sx' sy' tx' ty' : Z) :
  distance_squared sx sy tx ty <= distance_squared sx' sy' tx' ty' ->
  move_steps sx sy tx ty <= move_steps sx' sy' tx' ty'.
Proof.
  intros L. unfold move_steps. apply Z.max_le_compat_l.
  apply Z.div_le_mono; [lia|]. now apply Z.sqrt_le_mono.
Qed.

Section MotionPath.
Context {Image : Type} `{OpenCV Image} (env : Env Image).

(** C7.  Whatever the pointer position, the target and the random draws,
    [human_move_mouse] sends the pointer to [steps + 1] points of the curve
    and then to the target: the first point is the position the pointer
    started from, the last position is the target itself, and
    [steps = max(10, k)], with [k] the integer part of [distance / 15],
    does not decrease when the Euclidean distance from start to target
    grows. *)
Theorem human_move_mouse_path (target_x target_y : Z) (tr : trace) :
  let start := mouse_position env tr in
  let steps := move_steps (fst start) (snd start) target_x target_y in
  exists (added : trace) (path : list (Z * Z)),
    human_move_mouse env target_x target_y tr = (Ok tt, added ++ tr) /\
    moves added = path ++ [(target_x, target_y)] /\
    last_move (added ++ tr) = Some (target_x, target_y) /\
    head path = Some start /\
    length path = Z.to_nat (steps + 1) /\
    (exists k : Z,
       steps = Z.max 10 k /\
       (IZR k <= distance (fst start) (snd start) target_x target_y / 15 < IZR k + 1)%R) /\
    forall start_x' start_y' target_x' target_y',
      (distance (fst start) (snd start) target_x target_y
         <= distance start_x' start_y' target_x' target_y')%R ->
      steps + 1 <= move_steps start_x' start_y' target_x' target_y' + 1.
Proof.
  cbv zeta.
  destruct (human_move_mouse_run env target_x target_y tr)
    as (c1 & c2 & c3 & c4 & added & E & F & Hm).
  cbv zeta in *.
  set (start := mouse_position env tr) in *.
  set (steps := move_steps (fst start) (snd start) target_x target_y) in *.
  exists (MouseMove target_x target_y :: added). eexists.
  split; [exact E|]. split.
  { change (MouseMove target_x target_y :: added) with ([MouseMove target_x target_y] ++ added).
    rewrite moves_app, Hm. reflexivity. }
  split; [reflexivity|]. split.
  { destruct (range_head (steps + 1)) as [l El].
    - pose proof (move_steps_at_least (fst start) (snd start) target_x target_y).
      subst steps. lia.
    - rewrite El. cbn [map head]. rewrite !waypoint_first.
      now destruct start. }
  split; [now rewrite length_map, range_length|].
  split.
  { eexists. apply int_distance_over_15. }
  intros sx' sy' tx' ty' L. apply Z.add_le_mono_r.
  now apply move_steps_mono, distance_le.
Qed.
End MotionPath.

(** From (3, 4) to (33, 44), and a longer move for comparison. *)
Lemma human_move_mouse_path_witness :
  (distance 3 4 33 44 <= distance 0 0 300 400)%R /\
  move_steps 3 4 33 44 + 1 <= move_steps 0 0 300 400 + 1.
Proof.
  assert (L : (distance 3 4 33 44 <= distance 0 0 300 400)%R).
  { unfold distance. apply sqrt_le_1_alt, IZR_le. vm_compute. discriminate. }
  split; [exact L|].
  destruct (human_move_mouse_path (Demo.still []) 33 44 [])
    as (added & path & _ & _ & _ & _ & _ & _ & Hmono).
  exact (Hmono 0 0 300 400 L).
Defined.

Example human_move_mouse_demo :
  moves (trace_of (human_move_mouse (Demo.still []) 33 44) []) =
  [(3, 4); (2, 5); (2, 7); (2, 12); (2, 17); (4, 22); (8, 28); (14, 33);
   (22, 38); (29, 42); (33, 44); (33, 44)].
Proof. vm_compute. reflexivity. Qed.

(** ** Clicks *)

Section Clicks.
Context {Image : Type} `{OpenCV Image} (env : Env Image).

(** [click_at] clicks once, with the pointer on the target. *)
Lemma click_at_run (x y : Z) (tr : trace) :
  exists added,
    click_at env x y tr = (Ok tt, added ++ tr) /\
    clicks (added ++ tr) = Some (x, y) :: clicks tr /\
    Forall (fun e => pointer_event e = true) added.
Proof.
  destruct (human_move_mouse_run env x y tr) as (c1 & c2 & c3 & c4 & added & E & F & _).
  unfold click_at. rewrite (bind_ok _ _ _ _ _ E).
  set (t1 := MouseMove x y :: added ++ tr).
  exists (Sleep ((1 # 10) + ((3 # 10) - (1 # 10)) *
                 unit_draw env (Click :: Sleep ((5 # 100) + ((15 # 100) - (5 # 100)) * unit_draw env t1)
                                :: Random :: t1))%Q
          :: Random :: Click
          :: Sleep ((5 # 100) + ((15 # 100) - (5 # 100)) * unit_draw env t1)%Q
          :: Random :: MouseMove x y :: added).
  repeat split.
  - cbn [app clicks last_move]. f_equal. apply clicks_app_moves. exact F.
  - repeat constructor.
    eapply Forall_impl; [exact F|]. intros e. now destruct e.
Qed.

(** C8.  For a rectangle at least 11 wide and 11 high,
    [click_random_within] clicks once, at a point of
    [x+5 .. x+width-5] by [y+5 .. y+height-5], whatever the random draws. *)
Theorem click_random_within_bounds (x y width height : Z) (tr : trace) :
  11 <= width -> 11 <= height ->
  exists (rand_x rand_y : Z) (added : trace),
    click_random_within env x y width height tr = (Ok tt, added ++ tr) /\
    clicks (added ++ tr) = Some (rand_x, rand_y) :: clicks tr /\
    x + 5 <= rand_x <= x + width - 5 /\
    y + 5 <= rand_y <= y + height - 5.
Proof.
  intros Hw Hh. unfold click_random_within. cbv zeta.
  assert (Lw : 5 <= Z.max (5 + 1) (width - 5)) by lia.
  assert (Lh : 5 <= Z.max (5 + 1) (height - 5)) by lia.
  rewrite (bind_ok _ _ _ _ _ (randint_run env _ _ tr Lw)).
  rewrite (bind_ok _ _ _ _ _ (randint_run env _ _ (Random :: tr) Lh)).
  unfold log_info. rewrite bind_emit.
  pose proof (randint_range env _ _ tr Lw) as Rw.
  pose proof (randint_range env _ _ (Random :: tr) Lh) as Rh.
  set (dx := 5 + entropy env tr mod _) in *.
  set (dy := 5 + entropy env (Random :: tr) mod _) in *.
  destruct (click_at_run (x + dx) (y + dy) (Log INFO :: Random :: Random :: tr))
    as (added & E & C & _).
  exists (x + dx), (y + dy), (added ++ [Log INFO; Random; Random]).
  rewrite <- app_assoc. cbn [app]. rewrite E, C. repeat split; try reflexivity; lia.
Qed.
End Clicks.

Lemma click_random_within_bounds_witness :
  11 <= 24 /\ 11 <= 11 /\
  exists (rand_x rand_y : Z) (added : trace),
    click_random_within (Demo.still []) 100 200 24 11 [] = (Ok tt, added ++ []) /\
    clicks (added ++ []) = Some (rand_x, rand_y) :: clicks [] /\
    100 + 5 <= rand_x <= 100 + 24 - 5 /\
    200 + 5 <= rand_y <= 200 + 11 - 5.
Proof.
  split; [lia|]. split; [lia|].
  apply (click_random_within_bounds (Demo.still []) 100 200 24 11 []); lia.
Defined.

Example click_random_within_demo :
  clicks (trace_of (click_random_within (Demo.still []) 100 200 24 11) []) =
  [Some (105, 206)].
Proof. vm_compute. reflexivity. Qed.

(** ** The poll loop *)

Section PollLoop.
Context {Image : Type} `{OpenCV Image} (env : Env Image).
Variable find : Image -> M (option found).

(** An iteration of the loop, by what the attempt finds. *)
Lemma poll_and_click_step (fuel : nat) (timeout elapsed : Q) (tr : trace) :
  (elapsed < timeout)%Q ->
  poll_and_click env (S fuel) find timeout elapsed tr =
  match look env find tr with
  | (Ok (Some c), tr') => (log_info;; click_at env (item0 c) (item1 c);; ret true) tr'
  | (Ok None, tr') =>
    poll_and_click env fuel find timeout (elapsed + POLL_INTERVAL)%Q
                   (Sleep POLL_INTERVAL :: tr')
  | (Raise e, tr') => (Raise e, tr')
  end.
Proof.
  intros L. apply Qlt_bool_true in L. cbn [poll_and_click]. rewrite L.
  unfold look.
  destruct (take_screenshot env tr) as [[[s|]|e] tr1] eqn:Es.
  - rewrite !(bind_ok _ _ _ _ _ Es), bind_assoc.
    destruct (find s tr1) as [[[c|]|e] tr2] eqn:Ef.
    + rewrite (bind_ok _ _ _ _ _ Ef).
      destruct (click_at_run env (item0 c) (item1 c) (Log INFO :: tr2)) as (added & E & _).
      unfold log_info. rewrite !bind_assoc, !bind_emit, !bind_assoc.
      rewrite !(bind_ok _ _ _ _ _ E). reflexivity.
    + rewrite (bind_ok _ _ _ _ _ Ef). reflexivity.
    + rewrite (bind_raise _ _ _ _ _ Ef). reflexivity.
  - rewrite !(bind_ok _ _ _ _ _ Es). reflexivity.
  - rewrite !(bind_raise _ _ _ _ _ Es). reflexivity.
Qed.

Lemma elapsed_after_succ (k : nat) :
  (elapsed_after (S k) == elapsed_after k + POLL_INTERVAL)%Q.
Proof.
  unfold elapsed_after. rewrite Nat2Z.inj_succ, <- Z.add_1_r, inject_Z_plus.
  change (inject_Z 1) with 1%Q. ring.
Qed.

Lemma elapsed_after_nonneg (k : nat) : (0 <= elapsed_after k)%Q.
Proof.
  unfold elapsed_after, POLL_INTERVAL.
  assert (0 <= inject_Z (Z.of_nat k))%Q
    by (change 0%Q with (inject_Z 0); rewrite <- Zle_Qle; lia).
  lra.
Qed.

(** The loop clicks at the first attempt that finds the template. *)
Lemma poll_and_click_hit (k : nat) :
  forall (fuel : nat) (timeout elapsed : Q) (tr : trace) (c : found),
    (k < fuel)%nat ->
    (elapsed + elapsed_after k < timeout)%Q ->
    (forall j, (j < k)%nat -> result_of (look env find) (poll_state env find j tr) = Ok None) ->
    result_of (look env find) (poll_state env find k tr) = Ok (Some c) ->
    exists added,
      poll_and_click env fuel find timeout elapsed tr =
        (Ok true, added ++ trace_of (look env find) (poll_state env find k tr)) /\
      Forall (fun e => pointer_event e = true) added /\
      clicks (added ++ trace_of (look env find) (poll_state env find k tr)) =
        Some (item0 c, item1 c) :: clicks (trace_of (look env find) (poll_state env find k tr)).
Proof.
  induction k as [|k IH]; intros fuel timeout elapsed tr c Hfuel Ht Hmiss Hhit.
  - destruct fuel as [|fuel]; [lia|].
    assert (L : (elapsed < timeout)%Q).
    { unfold elapsed_after in Ht. change (inject_Z (Z.of_nat 0)) with 0%Q in Ht. lra. }
    rewrite (poll_and_click_step _ _ _ _ L).
    cbn [poll_state] in *. unfold result_of, trace_of in *.
    destruct (look env find tr) as [o tr']. simpl in Hhit. subst o. cbn [snd].
    destruct (click_at_run env (item0 c) (item1 c) (Log INFO :: tr')) as (added & E & C & F).
    exists (added ++ [Log INFO]). rewrite <- app_assoc. cbn [app].
    unfold log_info. rewrite bind_emit, (bind_ok _ _ _ _ _ E). repeat split.
    + apply Forall_app; split; [exact F | repeat constructor].
    + exact C.
  - destruct fuel as [|fuel]; [lia|].
    pose proof (elapsed_after_succ k) as Es.
    pose proof (elapsed_after_nonneg k) as En.
    assert (L : (elapsed < timeout)%Q) by (unfold POLL_INTERVAL in Es; lra).
    rewrite (poll_and_click_step _ _ _ _ L).
    pose proof (Hmiss O ltac:(lia)) as H0. cbn [poll_state] in H0, Hhit |- *.
    unfold after_miss, result_of, trace_of in *.
    destruct (look env find tr) as [o tr'] eqn:El. simpl in H0. subst o. cbn [snd] in *.
    apply IH.
    + lia.
    + lra.
    + intros j Hj. pose proof (Hmiss (S j) ltac:(lia)) as Hm.
      cbn [poll_state] in Hm. unfold after_miss, trace_of in Hm.
      rewrite El in Hm. exact Hm.
    + exact Hhit.
Qed.

(** The loop gives up at the first test of [elapsed < timeout] that
    fails. *)
Lemma poll_and_click_timeout (n : nat) :
  forall (fuel : nat) (timeout elapsed : Q) (tr : trace),
    (n < fuel)%nat ->
    (timeout <= elapsed + elapsed_after n)%Q ->
    (forall j, (j < n)%nat -> (elapsed + elapsed_after j < timeout)%Q) ->
    (forall j, (j < n)%nat -> result_of (look env find) (poll_state env find j tr) = Ok None) ->
    poll_and_click env fuel find timeout elapsed tr =
      (Ok false, Log WARN :: poll_state env find n tr).
Proof.
  induction n as [|n IH]; intros fuel timeout elapsed tr Hfuel Hend Hbefore Hmiss.
  - destruct fuel as [|fuel]; [lia|]. cbn [poll_and_click poll_state].
    assert (L : Qlt_bool elapsed timeout = false).
    { apply Qlt_bool_false. unfold elapsed_after in Hend.
      change (inject_Z (Z.of_nat 0)) with 0%Q in Hend. lra. }
    rewrite L. reflexivity.
  - destruct fuel as [|fuel]; [lia|].
    assert (L : (elapsed < timeout)%Q).
    { pose proof (Hbefore O ltac:(lia)) as H0. unfold elapsed_after in H0.
      change (inject_Z (Z.of_nat 0)) with 0%Q in H0. lra. }
    rewrite (poll_and_click_step _ _ _ _ L).
    pose proof (Hmiss O ltac:(lia)) as H0. cbn [poll_state] in H0 |- *.
    unfold after_miss, result_of, trace_of in *.
    destruct (look env find tr) as [o tr'] eqn:El. simpl in H0. subst o. cbn [snd] in *.
    apply IH.
    + lia.
    + pose proof (elapsed_after_succ n). lra.
    + intros j Hj. pose proof (Hbefore (S j) ltac:(lia)).
      pose proof (elapsed_after_succ j). lra.
    + intros j Hj. pose proof (Hmiss (S j) ltac:(lia)) as Hm.
      cbn [poll_state] in Hm. unfold after_miss, trace_of in Hm.
      rewrite El in Hm. exact Hm.
Qed.

(** [polls timeout] is fuel enough: the loop makes [n] iterations, with
    [n] the first number of sleeps that reaches the timeout. *)
Lemma polls_enough (timeout : Q) :
  exists n : nat,
    polls timeout = S n /\
    (timeout <= elapsed_after n)%Q /\
    (forall j, (j < n)%nat <-> (elapsed_after j < timeout)%Q).
Proof.
  exists (Z.to_nat (Qceiling (timeout / POLL_INTERVAL))). split; [reflexivity|].
  pose proof (Qle_ceiling (timeout / POLL_INTERVAL)) as Hup.
  pose proof (Qceiling_lt (timeout / POLL_INTERVAL)) as Hlo.
  set (c := Qceiling (timeout / POLL_INTERVAL)) in *.
  assert (Ex : (timeout / POLL_INTERVAL == timeout * 2)%Q) by (unfold POLL_INTERVAL; field).
  rewrite Ex in Hup, Hlo.
  unfold Z.sub in Hlo. rewrite inject_Z_plus, inject_Z_opp in Hlo.
  change (inject_Z 1) with 1%Q in Hlo.
  unfold elapsed_after, POLL_INTERVAL.
  split.
  - destruct (Z_le_gt_dec c 0) as [Hc | Hc].
    + replace (Z.to_nat c) with O by lia. change (inject_Z (Z.of_nat 0)) with 0%Q.
      assert (inject_Z c <= 0)%Q by (change 0%Q with (inject_Z 0); rewrite <- Zle_Qle; lia).
      lra.
    + rewrite Z2Nat.id by lia. lra.
  - intros j. split.
    + intros Hj.
      assert (Hj' : (inject_Z (Z.of_nat j) <= inject_Z (c + - (1)))%Q)
        by (rewrite <- Zle_Qle; lia).
      rewrite inject_Z_plus, inject_Z_opp in Hj'. change (inject_Z 1) with 1%Q in Hj'. lra.
    + intros Hj.
      assert (Hj' : (inject_Z (Z.of_nat j) < inject_Z c)%Q) by lra.
      rewrite <- Zlt_Qlt in Hj'. lia.
Qed.

(** A [wait_and_click] that logs its step and runs the loop polls and
    clicks. *)
Lemma poll_and_click_polls (timeout : Q) (tr : trace) :
  polls_and_clicks env find
    (log_step;; poll_and_click env (polls timeout) find timeout 0) timeout tr.
Proof.
  destruct (polls_enough timeout) as (n & Ef & Hend & Hn).
  unfold polls_and_clicks. cbv zeta. unfold log_step. rewrite bind_emit, Ef. split.
  - intros k c Hk Hmiss Hhit.
    apply poll_and_click_hit; auto.
    + apply Hn in Hk. lia.
    + lra.
  - intros Hmiss. exists n. split; [|split].
    + apply poll_and_click_timeout.
      * lia.
      * lra.
      * intros j Hj. apply Hn in Hj. lra.
      * intros j Hj. apply Hmiss. now apply Hn.
    + exact Hend.
    + destruct n as [|n]; [now left | right].
      pose proof (proj1 (Hn n) ltac:(lia)). pose proof (elapsed_after_succ n). lra.
Qed.
End PollLoop.

(** C4.  [wait_and_click], in both scripts, polls: attempts are numbered
    from 0 and attempt [k] comes after [k] sleeps of [POLL_INTERVAL].  If
    attempt [k] is the first to find the template and
    [k * POLL_INTERVAL < timeout], it clicks what that attempt found and
    returns [True] with no further attempt.  If no attempt made before the
    timeout finds it, it returns [False] after [n] attempts and sleeps, with
    [timeout <= n * POLL_INTERVAL < timeout + POLL_INTERVAL] (or [n = 0]). *)
Theorem wait_and_click_polls {Image : Type} `{OpenCV Image} (env : Env Image)
    (template_name : string) (timeout threshold : Q) (tr : trace) :
  polls_and_clicks env
    (fun s => BoltLogin.find_template env s template_name MATCH_THRESHOLD false)
    (BoltLogin.wait_and_click env template_name timeout) timeout tr /\
  polls_and_clicks env
    (fun s => PostLaunch.find_template env s template_name threshold false)
    (PostLaunch.wait_and_click env template_name timeout threshold) timeout tr.
Proof. split; apply poll_and_click_polls. Qed.

(** The play button shows up at the second capture: the second attempt
    clicks its centre. *)
Lemma wait_and_click_polls_witness :
  let env := Demo.appearing 1 [("play_button.png"%string, (7, 9))] in
  let find := fun s => BoltLogin.find_template env s "play_button.png" MATCH_THRESHOLD false in
  let seen := trace_of (look env find) (poll_state env find 1 [Log STEP]) in
  exists added,
    BoltLogin.wait_and_click env "play_button.png" 5 [] = (Ok true, added ++ seen) /\
    Forall (fun e => pointer_event e = true) added /\
    clicks (added ++ seen) = Some (12, 12) :: clicks seen.
Proof.
  cbv zeta.
  apply (proj1 (proj1 (wait_and_click_polls
                         (Demo.appearing 1 [("play_button.png"%string, (7, 9))])
                         "play_button.png" 5 MATCH_THRESHOLD [])) 1%nat (Center 12 12)).
  - reflexivity.
  - intros j Hj. destruct j as [|j]; [vm_compute; reflexivity | lia].
  - vm_compute. reflexivity.
Defined.

Example wait_and_click_demo_found :
  let env := Demo.appearing 1 [("play_button.png"%string, (7, 9))] in
  result_of (BoltLogin.wait_and_click env "play_button.png" 5) [] = Ok true /\
  captures (trace_of (BoltLogin.wait_and_click env "play_button.png" 5) []) = 2%nat /\
  clicks (trace_of (BoltLogin.wait_and_click env "play_button.png" 5) []) = [Some (12, 12)].
Proof. vm_compute. repeat split. Qed.

Example wait_and_click_demo_timeout :
  let env := Demo.still [] in
  result_of (BoltLogin.wait_and_click env "play_button.png" 5) [] = Ok false /\
  captures (trace_of (BoltLogin.wait_and_click env "play_button.png" 5) []) = 10%nat /\
  clicks (trace_of (BoltLogin.wait_and_click env "play_button.png" 5) []) = [].
Proof. vm_compute. repeat split. Qed.

(** ** The configuration *)

Section Config.
Context {Image : Type} `{OpenCV Image} (env : Env Image).

Lemma getitem_some (d : gmap string json) (k : string) (v : json) (tr : trace) :
  d !! k = Some v -> BoltLogin.getitem d k tr = (Ok v, tr).
Proof. intros E. unfold BoltLogin.getitem. now rewrite E. Qed.

Lemma getitem_none (d : gmap string json) (k : string) (tr : trace) :
  d !! k = None -> BoltLogin.getitem d k tr = (Raise (KeyError k), tr).
Proof. intros E. unfold BoltLogin.getitem. now rewrite E. Qed.

(** C2, as the code has it.  [load_config] reads four keys, [username],
    [password], [totpSecret] and [characterName], and accepts the
    configuration if and only if all four are there; when one is missing
    it raises [KeyError] for it, and [main] ends there, having made no
    capture and sent no input.  The two-factor step is skipped, without
    an error, when [totpSecret] is there but empty (or null, false, 0). *)
Theorem load_config_requires_four_keys
    (config_path : string) (fields : gmap string json) (tr : trace) :
  config_files env config_path = ConfigObject fields ->
  (Forall (fun k => is_Some (fields !! k)) BoltLogin.required_fields ->
   BoltLogin.load_config env config_path tr = (Ok fields, OpenConfig config_path :: tr)) /\
  (Exists (fun k => fields !! k = None) BoltLogin.required_fields ->
   exists k,
     In k BoltLogin.required_fields /\ fields !! k = None /\
     BoltLogin.load_config env config_path tr
     = (Raise (KeyError k), OpenConfig config_path :: tr) /\
     BoltLogin.main env config_path tr
     = (Raise (KeyError k),
        OpenConfig config_path :: Log INFO :: Log INFO :: Log INFO :: Log INFO :: tr)) /\
  (forall v,
     fields !! "totpSecret" = Some v -> BoltLogin.truthy v = false ->
     BoltLogin.step6_two_factor env fields tr = (Ok None, Log STEP :: tr)).
Proof.
  intros Ef.
  assert (Hload : forall tr0,
    BoltLogin.load_config env config_path tr0 =
    (match fields !! "username", fields !! "password",
           fields !! "totpSecret", fields !! "characterName" with
     | None, _, _, _ => Raise (KeyError "username")
     | Some _, None, _, _ => Raise (KeyError "password")
     | Some _, Some _, None, _ => Raise (KeyError "totpSecret")
     | Some _, Some _, Some _, None => Raise (KeyError "characterName")
     | Some _, Some _, Some _, Some _ => Ok fields
     end, OpenConfig config_path :: tr0)).
  { intros tr0. unfold BoltLogin.load_config. rewrite bind_query, Ef.
    unfold BoltLogin.getitem, bind.
    destruct (fields !! "username"), (fields !! "password"),
      (fields !! "totpSecret"), (fields !! "characterName"); reflexivity. }
  split; [|split].
  - intros Hall. rewrite Hload. unfold BoltLogin.required_fields in Hall.
    rewrite !Forall_cons in Hall.
    destruct Hall as ([? E1] & [? E2] & [? E3] & [? E4] & _).
    now rewrite E1, E2, E3, E4.
  - intros Hex.
    assert (Hk : exists k, In k BoltLogin.required_fields /\ fields !! k = None /\
                           BoltLogin.load_config env config_path
                             (Log INFO :: Log INFO :: Log INFO :: Log INFO :: tr)
                           = (Raise (KeyError k),
                              OpenConfig config_path
                              :: Log INFO :: Log INFO :: Log INFO :: Log INFO :: tr) /\
                           BoltLogin.load_config env config_path tr
                           = (Raise (KeyError k), OpenConfig config_path :: tr)).
    { rewrite !Hload. unfold BoltLogin.required_fields in *.
      destruct (fields !! "username") eqn:E1;
        [|exists "username"%string; simpl; auto 10].
      destruct (fields !! "password") eqn:E2;
        [|exists "password"%string; simpl; auto 10].
      destruct (fields !! "totpSecret") eqn:E3;
        [|exists "totpSecret"%string; simpl; auto 10].
      destruct (fields !! "characterName") eqn:E4;
        [|exists "characterName"%string; simpl; auto 10].
      exfalso.
      repeat match goal with
             | H : Exists _ (_ :: _) |- _ => apply Exists_cons in H as [H | H]
             | H : Exists _ [] |- _ => apply Exists_nil in H; contradiction
             end; congruence. }
    destruct Hk as (k & Hin & Hnone & Hmain & Hl).
    exists k. repeat split; auto.
    unfold BoltLogin.main, BoltLogin.startup, log_info.
    rewrite !bind_assoc, bind_emit, !bind_assoc, bind_emit, !bind_assoc, bind_emit,
      !bind_assoc, bind_emit, !bind_assoc.
    apply bind_raise. exact Hmain.
  - intros v Ev Hv. unfold BoltLogin.step6_two_factor.
    rewrite (bind_ok _ _ _ _ _ (getitem_some _ _ _ _ Ev)), Hv. reflexivity.
Qed.
End Config.

Lemma load_config_requires_four_keys_witness :
  config_files (Demo.configured Demo.no_totp_config) "config.json"
  = ConfigObject Demo.no_totp_config /\
  BoltLogin.step6_two_factor (Demo.configured Demo.no_totp_config) Demo.no_totp_config []
  = (Ok None, [Log STEP]).
Proof.
  split; [reflexivity|].
  apply (load_config_requires_four_keys (Demo.configured Demo.no_totp_config)
           "config.json" Demo.no_totp_config [] eq_refl) with (v := JStr "").
  - vm_compute. reflexivity.
  - reflexivity.
Defined.

(** C2, as the spec has it, fails: a configuration with the account and the
    password and no [totpSecret] is rejected at startup. *)
Lemma config_without_totp_is_rejected :
  Demo.two_field_config !! "username"%string = Some (JStr "user@example.org") /\
  Demo.two_field_config !! "password"%string = Some (JStr "hunter2") /\
  result_of (BoltLogin.load_config (Demo.configured Demo.two_field_config) "config.json") []
  = Raise (KeyError "totpSecret") /\
  result_of (BoltLogin.main (Demo.configured Demo.two_field_config) "config.json") []
  = Raise (KeyError "totpSecret").
Proof. vm_compute. repeat split. Qed.

(** ** What the building blocks add to a run, and that they raise nothing *)

Lemma returns_bind {A B} (v : B) (m : M A) (k : A -> M B) :
  succeeds m -> (forall a, returns v (k a)) -> returns v (bind m k).
Proof.
  intros Hm Hk tr. destruct (Hm tr) as (a & E).
  unfold bind. destruct (m tr) as [[a' | e] tr1]; simpl in E; [|discriminate].
  apply Hk.
Qed.

Lemma returns_ret {A} (v : A) : returns v (ret v).
Proof. intros tr. reflexivity. Qed.

Section Blocks.
Context {Image : Type} `{OpenCV Image} (env : Env Image).

Lemma uniform_adds (P : event -> bool) (a b : Q) :
  P Random = true -> adds P (uniform env a b).
Proof. intros HP tr. exists [Random]. split; [reflexivity | repeat constructor; exact HP]. Qed.

Lemma uniform_succeeds (a b : Q) : succeeds (uniform env a b).
Proof. intros tr. eexists. reflexivity. Qed.

Lemma randint_adds (P : event -> bool) (a b : Z) :
  P Random = true -> adds P (randint env a b).
Proof.
  intros HP. unfold randint. destruct (a <=? b).
  - apply adds_bind; [now apply adds_query | intros r; apply adds_ret].
  - apply adds_raise.
Qed.

Lemma take_screenshot_adds (P : event -> bool) :
  P Import = true -> P (Log ERROR) = true -> adds P (take_screenshot env).
Proof.
  intros HI HL. unfold take_screenshot, log_error.
  apply adds_bind; [now apply adds_query|].
  intros [[]|img]; try apply adds_ret;
    (apply adds_bind; [now apply adds_emit | intros; apply adds_ret]).
Qed.

Lemma take_screenshot_succeeds : succeeds (take_screenshot env).
Proof.
  intros tr. unfold take_screenshot. rewrite bind_query.
  destruct (screen env tr) as [[]|img]; eexists; reflexivity.
Qed.

Lemma click_at_adds (x y : Z) : adds pointer_event (click_at env x y).
Proof.
  intros tr. destruct (click_at_run env x y tr) as (added & E & _ & F).
  exists added. rewrite E. split; [reflexivity | exact F].
Qed.

Lemma click_at_succeeds (x y : Z) : succeeds (click_at env x y).
Proof.
  intros tr. destruct (click_at_run env x y tr) as (added & E & _).
  exists tt. now rewrite E.
Qed.

Lemma match_template_adds (P : event -> bool) (l : level) (log_score : M unit)
    (screen_img template : Image) (threshold : Q) (return_bounds : bool) :
  (forall tr0, log_score tr0 = (Ok tt, Log l :: tr0)) ->
  P (Log l) = true ->
  adds P (match_template log_score screen_img template threshold return_bounds).
Proof.
  intros Hlog HP tr.
  destruct (match_template_result log_score screen_img template threshold return_bounds
              tr l Hlog) as (max_val & x & y & _ & _ & _ & E).
  exists [Log l]. rewrite E. split; [reflexivity | repeat constructor; exact HP].
Qed.

Lemma match_template_succeeds (l : level) (log_score : M unit)
    (screen_img template : Image) (threshold : Q) (return_bounds : bool) :
  (forall tr0, log_score tr0 = (Ok tt, Log l :: tr0)) ->
  succeeds (match_template log_score screen_img template threshold return_bounds).
Proof.
  intros Hlog tr.
  destruct (match_template_result log_score screen_img template threshold return_bounds
              tr l Hlog) as (max_val & x & y & _ & _ & _ & E).
  rewrite E. eexists. reflexivity.
Qed.

Lemma bolt_find_template_adds (screen_img : Image) (name : string)
    (threshold : Q) (return_bounds : bool) :
  adds (vision_event name)
       (BoltLogin.find_template env screen_img name threshold return_bounds).
Proof.
  assert (Hn : String.eqb name name = true) by apply String.eqb_refl.
  unfold BoltLogin.find_template, imread, log_error.
  destruct (negb (path_exists env name)).
  - apply adds_bind; [now apply adds_emit | intros; apply adds_ret].
  - apply adds_bind; [apply adds_query; exact Hn|].
    intros [template|].
    + now apply (match_template_adds _ INFO).
    + apply adds_bind; [now apply adds_emit | intros; apply adds_ret].
Qed.

Lemma bolt_find_template_succeeds (screen_img : Image) (name : string)
    (threshold : Q) (return_bounds : bool) :
  succeeds (BoltLogin.find_template env screen_img name threshold return_bounds).
Proof.
  unfold BoltLogin.find_template, imread, log_error.
  destruct (negb (path_exists env name)).
  - apply succeeds_bind; [apply succeeds_emit | intros; apply succeeds_ret].
  - apply succeeds_bind; [apply succeeds_query|].
    intros [template|].
    + now apply (match_template_succeeds INFO).
    + apply succeeds_bind; [apply succeeds_emit | intros; apply succeeds_ret].
Qed.

Lemma post_find_template_succeeds (screen_img : Image) (name : string)
    (threshold : Q) (return_bounds : bool) :
  succeeds (PostLaunch.find_template env screen_img name threshold return_bounds).
Proof.
  unfold PostLaunch.find_template, imread.
  apply succeeds_bind; [apply succeeds_query|].
  intros [template|].
  - now apply (match_template_succeeds DEBUG).
  - apply succeeds_ret.
Qed.

(** The poll loop adds what its attempts and its click add. *)
Lemma poll_and_click_adds (P : event -> bool) (find : Image -> M (option found))
    (timeout : Q) :
  (forall e, pointer_event e = true -> P e = true) ->
  (forall e, capture_event e = true -> P e = true) ->
  (forall s, adds P (find s)) ->
  forall fuel elapsed, adds P (poll_and_click env fuel find timeout elapsed).
Proof.
  intros Hp Hc Hfind fuel.
  induction fuel as [|fuel IH]; intros elapsed; cbn [poll_and_click].
  - apply adds_raise.
  - destruct (Qlt_bool elapsed timeout).
    + apply adds_bind; [apply take_screenshot_adds; now apply Hc|].
      intros screen_img. apply adds_bind.
      * destruct screen_img as [s|]; [|apply adds_ret].
        apply adds_bind; [apply Hfind|]. intros [c|]; [|apply adds_ret].
        apply adds_bind; [apply adds_emit; now apply Hp|]. intros _.
        apply adds_bind; [|intros; apply adds_ret].
        eapply adds_mono; [exact Hp | apply click_at_adds].
      * intros [|]; [apply adds_ret|].
        apply adds_bind; [apply adds_emit; now apply Hp | intros; apply IH].
    + apply adds_bind; [apply adds_emit; now apply Hp | intros; apply adds_ret].
Qed.

(** With the fuel of [polls], the poll loop raises nothing: it ends by a
    click or by the timeout. *)
Lemma poll_and_click_succeeds (find : Image -> M (option found)) (timeout : Q) :
  (forall s, succeeds (find s)) ->
  succeeds (poll_and_click env (polls timeout) find timeout 0).
Proof.
  intros Hfind.
  destruct (polls_enough timeout) as (n & Ef & Hend & _). rewrite Ef.
  assert (Hgen : forall n fuel elapsed tr,
             (n < fuel)%nat -> (timeout <= elapsed + elapsed_after n)%Q ->
             exists b, fst (poll_and_click env fuel find timeout elapsed tr) = Ok b).
  { clear n Ef Hend. induction n as [|n IH]; intros fuel elapsed tr Hfuel Ht;
      (destruct fuel as [|fuel]; [lia|]).
    - cbn [poll_and_click].
      assert (L : Qlt_bool elapsed timeout = false).
      { apply Qlt_bool_false. unfold elapsed_after in Ht.
        change (inject_Z (Z.of_nat 0)) with 0%Q in Ht. lra. }
      rewrite L. eexists. reflexivity.
    - destruct (Qlt_le_dec elapsed timeout) as [L | L].
      + rewrite (poll_and_click_step env find _ _ _ _ L).
        assert (Hlook : succeeds (look env find)).
        { unfold look. apply succeeds_bind; [apply take_screenshot_succeeds|].
          intros [s|]; [apply Hfind | apply succeeds_ret]. }
        destruct (Hlook tr) as (r & Er).
        destruct (look env find tr) as [o tr']. simpl in Er. subst o.
        destruct r as [c|].
        * destruct (click_at_run env (item0 c) (item1 c) (Log INFO :: tr')) as (added & E & _).
          unfold log_info. rewrite bind_emit, (bind_ok _ _ _ _ _ E). eexists. reflexivity.
        * apply IH; [lia|]. pose proof (elapsed_after_succ n). lra.
      + cbn [poll_and_click]. apply Qlt_bool_false in L. rewrite L.
        eexists. reflexivity. }
  intros tr. apply (Hgen n); [lia | lra].
Qed.

Lemma bolt_wait_and_click_adds (name : string) (timeout : Q) :
  adds (click_event name) (BoltLogin.wait_and_click env name timeout).
Proof.
  unfold BoltLogin.wait_and_click, log_step.
  apply adds_bind; [now apply adds_emit|]. intros _.
  apply poll_and_click_adds.
  - intros e He. unfold click_event. now rewrite He.
  - intros e He. unfold click_event. destruct e; try discriminate; reflexivity.
  - intros s. eapply adds_mono; [|apply bolt_find_template_adds].
    intros e He. unfold click_event. rewrite He. apply orb_true_r.
Qed.

Lemma post_wait_and_click_succeeds (name : string) (timeout threshold : Q) :
  succeeds (PostLaunch.wait_and_click env name timeout threshold).
Proof.
  unfold PostLaunch.wait_and_click, log_step.
  apply succeeds_bind; [apply succeeds_emit|]. intros _.
  apply poll_and_click_succeeds. intros s. apply post_find_template_succeeds.
Qed.

Lemma type_text_succeeds (text : string) : succeeds (type_text env text).
Proof.
  unfold type_text. induction (list_ascii_of_string text) as [|c l IH]; cbn [for_each].
  - apply succeeds_ret.
  - apply succeeds_bind; [|intros; exact IH].
    apply succeeds_bind; [apply succeeds_emit|]. intros _.
    apply succeeds_bind; [apply uniform_succeeds | intros; apply succeeds_emit].
Qed.

Lemma press_key_succeeds (key : string) : succeeds (press_key env key).
Proof.
  unfold press_key.
  apply succeeds_bind; [apply succeeds_emit|]. intros _.
  apply succeeds_bind; [apply uniform_succeeds | intros; apply succeeds_emit].
Qed.

Lemma wait_for_window_adds (name : string) (timeout : Q) :
  adds window_event (BoltLogin.wait_for_window env name timeout).
Proof.
  unfold BoltLogin.wait_for_window, log_info.
  apply adds_bind; [now apply adds_emit|]. intros _.
  generalize 0%Q. induction (polls timeout) as [|fuel IH]; intros elapsed;
    cbn [BoltLogin.wait_for_window_loop].
  - apply adds_raise.
  - unfold log_info, log_error, time_sleep. destruct (Qlt_bool elapsed timeout).
    + apply adds_bind; [now apply adds_query|].
      assert (Hnext : adds window_event
                (bind (emit (Sleep POLL_INTERVAL))
                   (fun _ => BoltLogin.wait_for_window_loop env fuel name timeout
                               (elapsed + POLL_INTERVAL)%Q))).
      { apply adds_bind; [now apply adds_emit | intros; apply IH]. }
      intros [|rc ids]; [exact Hnext|].
      destruct rc; try exact Hnext. destruct ids; [exact Hnext|].
      apply adds_bind; [now apply adds_emit | intros; apply adds_ret].
    + apply adds_bind; [now apply adds_emit | intros; apply adds_ret].
Qed.
End Blocks.

Ltac succeeds_step :=
  lazymatch goal with
  | |- succeeds (ret _) => apply succeeds_ret
  | |- succeeds (emit _) => apply succeeds_emit
  | |- succeeds (query _ _) => apply succeeds_query
  | |- succeeds (take_screenshot _) => apply take_screenshot_succeeds
  | |- succeeds (PostLaunch.find_template _ _ _ _ _) => apply post_find_template_succeeds
  | |- succeeds (BoltLogin.find_template _ _ _ _ _) => apply bolt_find_template_succeeds
  | |- succeeds (click_at _ _ _) => apply click_at_succeeds
  | |- succeeds (PostLaunch.wait_and_click _ _ _ _) => apply post_wait_and_click_succeeds
  | |- succeeds (type_text _ _) => apply type_text_succeeds
  | |- succeeds (press_key _ _) => apply press_key_succeeds
  | |- succeeds (uniform _ _ _) => apply uniform_succeeds
  | |- succeeds (bind _ _) => apply succeeds_bind; [|intros ?]
  | |- succeeds (match ?x with _ => _ end) => destruct x
  end.

Ltac succeeds_with known :=
  unfold log_info, log_warn, log_error, log_step, log_debug, time_sleep;
  repeat first [known | succeeds_step].

Ltac succeeds_auto := succeeds_with fail.

(** ** The post-launch flow *)

Section PostLaunchFlow.
Context {Image : Type} `{OpenCV Image} (env : Env Image).

Lemma lobby_attempts_succeeds (attempts : nat) :
  succeeds (PostLaunch.lobby_attempts env attempts).
Proof.
  induction attempts as [|n IH]; cbn [PostLaunch.lobby_attempts].
  - succeeds_auto.
  - apply succeeds_bind; [succeeds_auto|]. intros screen_img.
    apply succeeds_bind; [succeeds_auto|]. intros [|]; [succeeds_auto|].
    apply succeeds_bind; [succeeds_auto | intros; exact IH].
Qed.

(** C10.  [main] of [post_launch.py] returns 0 in every run, whatever is
    on screen and whether or not a name is set: the license button, the
    play button, the lobby anchor, the name field and the confirm button
    may each be found or not, and no capture failure or timeout changes
    the result. *)
Theorem post_launch_main_returns_zero (CHARACTER_NAME : option string) (tr : trace) :
  result_of (PostLaunch.main env CHARACTER_NAME) tr = Ok 0.
Proof.
  revert tr. change (returns 0 (PostLaunch.main env CHARACTER_NAME)).
  unfold PostLaunch.main. cbv zeta.
  repeat (apply returns_bind;
          [first [apply lobby_attempts_succeeds | succeeds_auto] | intros ?]).
  apply returns_ret.
Qed.
End PostLaunchFlow.

Example post_launch_demo_blank_screen :
  result_of (PostLaunch.main (Demo.still []) (Some "Zezima"%string)) [] = Ok 0.
Proof. vm_compute. reflexivity. Qed.

Example post_launch_demo_capture_fails :
  result_of (PostLaunch.main
               (Demo.world (fun _ => inl ImportFailed) Demo.launcher_windows ConfigMissing)
               None) [] = Ok 0.
Proof. vm_compute. reflexivity. Qed.

Ltac adds_step :=
  lazymatch goal with
  | |- adds _ (ret _) => apply adds_ret
  | |- adds _ (raise _) => apply adds_raise
  | |- adds _ (emit _) => apply adds_emit; reflexivity
  | |- adds _ (query _ _) => apply adds_query; reflexivity
  | |- adds _ (uniform _ _ _) => apply uniform_adds; reflexivity
  | |- adds _ (randint _ _ _) => apply randint_adds; reflexivity
  | |- adds _ (take_screenshot _) => apply take_screenshot_adds; reflexivity
  | |- adds _ (BoltLogin.find_template _ _ _ _ _) =>
    eapply adds_mono; [|apply bolt_find_template_adds]; solve [event_cases]
  | |- adds _ (BoltLogin.wait_and_click _ _ _) =>
    eapply adds_mono; [|apply bolt_wait_and_click_adds]; solve [event_cases]
  | |- adds _ (click_at _ _ _) =>
    eapply adds_mono; [|apply click_at_adds]; solve [event_cases]
  | |- adds _ (BoltLogin.wait_for_window _ _ _) =>
    eapply adds_mono; [|apply wait_for_window_adds]; solve [event_cases]
  | |- adds _ (bind _ _) => apply adds_bind; [|intros ?]
  | |- adds _ (match ?x with _ => _ end) => destruct x
  end.

Ltac adds_auto :=
  unfold log_info, log_warn, log_error, log_step, log_debug, time_sleep;
  repeat adds_step.

(** ** The login flow *)

Section LoginFlow.
Context {Image : Type} `{OpenCV Image} (env : Env Image).

Lemma bolt_wait_and_click_succeeds (name : string) (timeout : Q) :
  succeeds (BoltLogin.wait_and_click env name timeout).
Proof.
  unfold BoltLogin.wait_and_click, log_step.
  apply succeeds_bind; [apply succeeds_emit|]. intros _.
  apply poll_and_click_succeeds. intros s. apply bolt_find_template_succeeds.
Qed.

(** With the fuel of [polls], the wait for a window raises nothing. *)
Lemma wait_for_window_succeeds (name : string) (timeout : Q) :
  succeeds (BoltLogin.wait_for_window env name timeout).
Proof.
  unfold BoltLogin.wait_for_window, log_info.
  apply succeeds_bind; [apply succeeds_emit|]. intros _.
  destruct (polls_enough timeout) as (n & Ef & Hend & _). rewrite Ef.
  assert (Hgen : forall n fuel elapsed tr,
             (n < fuel)%nat -> (timeout <= elapsed + elapsed_after n)%Q ->
             exists r, fst (BoltLogin.wait_for_window_loop env fuel name timeout elapsed tr)
                       = Ok r).
  { clear n Ef Hend. induction n as [|n IH]; intros fuel elapsed tr Hfuel Ht;
      (destruct fuel as [|fuel]; [lia|]); cbn [BoltLogin.wait_for_window_loop].
    - assert (L : Qlt_bool elapsed timeout = false).
      { apply Qlt_bool_false. unfold elapsed_after in Ht.
        change (inject_Z (Z.of_nat 0)) with 0%Q in Ht. lra. }
      rewrite L. eexists. reflexivity.
    - destruct (Qlt_bool elapsed timeout); [|eexists; reflexivity].
      rewrite bind_query.
      assert (Hnext : exists r,
                fst (bind (time_sleep POLL_INTERVAL)
                       (fun _ => BoltLogin.wait_for_window_loop env fuel name timeout
                                   (elapsed + POLL_INTERVAL)%Q)
                       (Search name :: tr)) = Ok r).
      { unfold time_sleep. rewrite bind_emit. apply IH; [lia|].
        pose proof (elapsed_after_succ n). lra. }
      destruct (windows env tr name) as [|rc ids]; [exact Hnext|].
      destruct rc; try exact Hnext. destruct ids; [exact Hnext|].
      eexists. reflexivity. }
  intros tr. apply (Hgen n); [lia | lra].
Qed.

Lemma persisted_session_succeeds : succeeds (BoltLogin.persisted_session env).
Proof.
  unfold BoltLogin.persisted_session.
  succeeds_with ltac:(idtac; lazymatch goal with
                      | |- succeeds (BoltLogin.wait_and_click _ _ _) =>
                        apply bolt_wait_and_click_succeeds
                      end).
Qed.

Lemma character_select_and_launch_succeeds :
  succeeds (BoltLogin.character_select_and_launch env).
Proof.
  unfold BoltLogin.character_select_and_launch.
  succeeds_with ltac:(idtac; lazymatch goal with
                      | |- succeeds (BoltLogin.wait_and_click _ _ _) =>
                        apply bolt_wait_and_click_succeeds
                      | |- succeeds (BoltLogin.wait_for_window _ _ _) =>
                        apply wait_for_window_succeeds
                      end).
Qed.

Lemma startup_adds (config_path : string) :
  adds no_credentials (BoltLogin.startup env config_path).
Proof. unfold BoltLogin.startup, BoltLogin.load_config, BoltLogin.getitem. adds_auto. Qed.

Lemma detect_session_state_adds :
  adds no_credentials (BoltLogin.detect_session_state env).
Proof. unfold BoltLogin.detect_session_state. adds_auto. Qed.

Lemma persisted_session_adds :
  adds no_credentials (BoltLogin.persisted_session env).
Proof. unfold BoltLogin.persisted_session. adds_auto. Qed.

Lemma character_select_and_launch_adds :
  adds no_credentials (BoltLogin.character_select_and_launch env).
Proof. unfold BoltLogin.character_select_and_launch. adds_auto. Qed.

Lemma main_after_startup (config_path : string) (CONFIG : gmap string json)
    (tr tr1 : trace) :
  BoltLogin.startup env config_path tr = (Ok (inr CONFIG), tr1) ->
  BoltLogin.main env config_path tr = BoltLogin.login_flow env CONFIG tr1.
Proof. intros E. unfold BoltLogin.main. now rewrite (bind_ok _ _ _ _ _ E). Qed.

Lemma login_flow_persisted (CONFIG : gmap string json) (tr1 : trace) :
  result_of (BoltLogin.detect_session_state env) tr1 = Ok false ->
  BoltLogin.login_flow env CONFIG tr1 =
  (BoltLogin.persisted_session env;; BoltLogin.character_select_and_launch env)
    (trace_of (BoltLogin.detect_session_state env) tr1).
Proof.
  unfold result_of, trace_of, BoltLogin.login_flow. intros E.
  destruct (BoltLogin.detect_session_state env tr1) as [o tr2] eqn:Ed.
  simpl in E. subst o. now rewrite (bind_ok _ _ _ _ _ Ed).
Qed.

(** C5.  In a run of [main] that reaches the probe for the disclaimer and
    does not detect it there, the flow goes on with the persisted-session
    branch and then the character selection, and comes to its end; and
    from its start to its end the run types no character, presses no key,
    generates no one-time code and never looks for the authenticator
    button. *)
Theorem persisted_session_enters_no_credentials
    (config_path : string) (CONFIG : gmap string json) (tr tr1 : trace) :
  BoltLogin.startup env config_path tr = (Ok (inr CONFIG), tr1) ->
  result_of (BoltLogin.detect_session_state env) tr1 = Ok false ->
  BoltLogin.main env config_path tr =
    (BoltLogin.persisted_session env;; BoltLogin.character_select_and_launch env)
      (trace_of (BoltLogin.detect_session_state env) tr1) /\
  (exists code, result_of (BoltLogin.main env config_path) tr = Ok code) /\
  exists added,
    trace_of (BoltLogin.main env config_path) tr = added ++ tr /\
    Forall (fun e => no_credentials e = true) added.
Proof.
  intros Es Ed.
  assert (Em := main_after_startup _ _ _ _ Es).
  rewrite (login_flow_persisted _ _ Ed) in Em. split; [exact Em|].
  split.
  { unfold result_of. rewrite Em.
    apply (succeeds_bind _ _ persisted_session_succeeds).
    intros _. apply character_select_and_launch_succeeds. }
  unfold trace_of at 1. rewrite Em.
  destruct (startup_adds config_path tr) as (a1 & E1 & F1).
  rewrite Es in E1. simpl in E1. subst tr1.
  destruct (detect_session_state_adds (a1 ++ tr)) as (a2 & E2 & F2).
  unfold trace_of. rewrite E2.
  assert (Hrest : adds no_credentials
            (BoltLogin.persisted_session env;; BoltLogin.character_select_and_launch env)).
  { apply adds_bind; [apply persisted_session_adds|].
    intros _. apply character_select_and_launch_adds. }
  destruct (Hrest (a2 ++ a1 ++ tr)) as (a3 & E3 & F3).
  exists (a3 ++ a2 ++ a1). rewrite E3, <- !app_assoc. split; [reflexivity|].
  repeat (apply Forall_app; split); assumption.
Qed.

(** C9.  When the capture of the probe for the disclaimer fails, the
    probe answers "no disclaimer" after that one capture, and [main] goes
    on with the persisted-session branch: the failure is taken for an
    absent disclaimer, and the probe is not made again. *)
Theorem capture_failure_at_probe_takes_persisted_branch
    (config_path : string) (CONFIG : gmap string json) (tr tr1 : trace) (c : capture) :
  BoltLogin.startup env config_path tr = (Ok (inr CONFIG), tr1) ->
  screen env (Log STEP :: tr1) = inl c ->
  BoltLogin.detect_session_state env tr1
    = (Ok false, Log ERROR :: Import :: Log STEP :: tr1) /\
  BoltLogin.main env config_path tr =
    (BoltLogin.persisted_session env;; BoltLogin.character_select_and_launch env)
      (Log ERROR :: Import :: Log STEP :: tr1).
Proof.
  intros Es Ec.
  assert (Ed : BoltLogin.detect_session_state env tr1
               = (Ok false, Log ERROR :: Import :: Log STEP :: tr1)).
  { unfold BoltLogin.detect_session_state, log_step, take_screenshot, log_error.
    rewrite bind_emit, !bind_assoc, bind_query, Ec. destruct c; reflexivity. }
  split; [exact Ed|].
  rewrite (main_after_startup _ _ _ _ Es), login_flow_persisted.
  - unfold trace_of. now rewrite Ed.
  - unfold result_of. now rewrite Ed.
Qed.

(** C6.  In a run of [main] that takes the full login and, once the
    e-mail is submitted, detects the "can't open page" banner, [main]
    returns 1 and the run ends there: after the check for the banner comes
    one error line and nothing else, no password, no second factor, no
    character selection, no play button. *)
Theorem error_banner_aborts_login
    (config_path : string) (CONFIG : gmap string json) (password : json)
    (tr tr1 tr2 tr3 : trace) :
  BoltLogin.startup env config_path tr = (Ok (inr CONFIG), tr1) ->
  BoltLogin.detect_session_state env tr1 = (Ok true, tr2) ->
  BoltLogin.submit_email env CONFIG tr2 = (Ok password, tr3) ->
  result_of (BoltLogin.error_banner_detected env) tr3 = Ok true ->
  BoltLogin.main env config_path tr =
    (Ok 1, Log ERROR :: trace_of (BoltLogin.error_banner_detected env) tr3) /\
  exists checked,
    trace_of (BoltLogin.error_banner_detected env) tr3 = checked ++ tr3 /\
    Forall (fun e => vision_event "error_login_cant_open_page.png" e = true) checked.
Proof.
  intros Es Ed Em Eb. split.
  - rewrite (main_after_startup _ _ _ _ Es). unfold BoltLogin.login_flow.
    rewrite (bind_ok _ _ _ _ _ Ed). unfold BoltLogin.full_login.
    rewrite !bind_assoc, (bind_ok _ _ _ _ _ Em), !bind_assoc.
    unfold result_of, trace_of in *.
    destruct (BoltLogin.error_banner_detected env tr3) as [o tr4] eqn:E4.
    simpl in Eb. subst o. rewrite (bind_ok _ _ _ _ _ E4). reflexivity.
  - assert (Ha : adds (vision_event "error_login_cant_open_page.png")
                      (BoltLogin.error_banner_detected env)).
    { unfold BoltLogin.error_banner_detected. adds_auto. }
    destruct (Ha tr3) as (checked & E & F). exists checked. split; assumption.
Qed.
End LoginFlow.

(** On a blank screen the disclaimer is not detected. *)
Lemma persisted_session_enters_no_credentials_witness :
  let env := Demo.still [] in
  let tr1 := trace_of (BoltLogin.startup env "config.json") [] in
  BoltLogin.startup env "config.json" [] = (Ok (inr Demo.full_config), tr1) /\
  result_of (BoltLogin.detect_session_state env) tr1 = Ok false /\
  exists added,
    trace_of (BoltLogin.main env "config.json") [] = added ++ [] /\
    Forall (fun e => no_credentials e = true) added.
Proof.
  cbv zeta.
  assert (Es : BoltLogin.startup (Demo.still []) "config.json" []
               = (Ok (inr Demo.full_config),
                  trace_of (BoltLogin.startup (Demo.still []) "config.json") []))
    by (vm_compute; reflexivity).
  assert (Ed : result_of (BoltLogin.detect_session_state (Demo.still []))
                 (trace_of (BoltLogin.startup (Demo.still []) "config.json") [])
               = Ok false)
    by (vm_compute; reflexivity).
  split; [exact Es|]. split; [exact Ed|].
  exact (proj2 (proj2 (persisted_session_enters_no_credentials (Demo.still [])
                         "config.json" Demo.full_config [] _ Es Ed))).
Defined.

Lemma capture_failure_at_probe_takes_persisted_branch_witness :
  let env := Demo.first_capture_fails in
  let tr1 := trace_of (BoltLogin.startup env "config.json") [] in
  BoltLogin.startup env "config.json" [] = (Ok (inr Demo.full_config), tr1) /\
  screen env (Log STEP :: tr1) = inl ImportFailed /\
  BoltLogin.detect_session_state env tr1
    = (Ok false, Log ERROR :: Import :: Log STEP :: tr1).
Proof.
  cbv zeta.
  assert (Es : BoltLogin.startup Demo.first_capture_fails "config.json" []
               = (Ok (inr Demo.full_config),
                  trace_of (BoltLogin.startup Demo.first_capture_fails "config.json") []))
    by (vm_compute; reflexivity).
  assert (Ec : screen Demo.first_capture_fails
                 (Log STEP :: trace_of (BoltLogin.startup Demo.first_capture_fails
                                          "config.json") [])
               = inl ImportFailed)
    by (vm_compute; reflexivity).
  split; [exact Es|]. split; [exact Ec|].
  exact (proj1 (capture_failure_at_probe_takes_persisted_branch Demo.first_capture_fails
                  "config.json" Demo.full_config [] _ ImportFailed Es Ec)).
Defined.

Lemma error_banner_aborts_login_witness :
  let env := Demo.cant_open_page in
  let tr1 := trace_of (BoltLogin.startup env "config.json") [] in
  let tr2 := trace_of (BoltLogin.detect_session_state env) tr1 in
  let tr3 := trace_of (BoltLogin.submit_email env Demo.full_config) tr2 in
  BoltLogin.startup env "config.json" [] = (Ok (inr Demo.full_config), tr1) /\
  BoltLogin.detect_session_state env tr1 = (Ok true, tr2) /\
  BoltLogin.submit_email env Demo.full_config tr2 = (Ok (JStr "hunter2"), tr3) /\
  result_of (BoltLogin.error_banner_detected env) tr3 = Ok true /\
  BoltLogin.main env "config.json" [] =
    (Ok 1, Log ERROR :: trace_of (BoltLogin.error_banner_detected env) tr3).
Proof.
  cbv zeta.
  set (env := Demo.cant_open_page).
  set (tr1 := trace_of (BoltLogin.startup env "config.json") []).
  set (tr2 := trace_of (BoltLogin.detect_session_state env) tr1).
  set (tr3 := trace_of (BoltLogin.submit_email env Demo.full_config) tr2).
  assert (Es : BoltLogin.startup env "config.json" [] = (Ok (inr Demo.full_config), tr1))
    by (vm_compute; reflexivity).
  assert (Ed : BoltLogin.detect_session_state env tr1 = (Ok true, tr2))
    by (vm_compute; reflexivity).
  assert (Em : BoltLogin.submit_email env Demo.full_config tr2 = (Ok (JStr "hunter2"), tr3))
    by (vm_compute; reflexivity).
  assert (Eb : result_of (BoltLogin.error_banner_detected env) tr3 = Ok true)
    by (vm_compute; reflexivity).
  split; [exact Es|]. split; [exact Ed|]. split; [exact Em|]. split; [exact Eb|].
  exact (proj1 (error_banner_aborts_login env "config.json" Demo.full_config
                  (JStr "hunter2") [] tr1 tr2 tr3 Es Ed Em Eb)).
Defined.

Example login_demo_persisted_session :
  let run := BoltLogin.main (Demo.still []) "config.json" [] in
  fst run = Ok 0 /\
  count_event (fun e => match e with TypeChar _ | Key _ | Oathtool _ => true | _ => false end)
              (snd run) = 0%nat.
Proof. vm_compute. split; reflexivity. Qed.

Example login_demo_full_login :
  let run := BoltLogin.main (Demo.still [("i_understand_button.png"%string, (2, 3))])
                            "config.json" [] in
  fst run = Ok 0 /\
  count_event (fun e => match e with TypeChar _ => true | _ => false end) (snd run)
  = 29%nat /\
  count_event (fun e => match e with Oathtool _ => true | _ => false end) (snd run)
  = 1%nat.
Proof. vm_compute. repeat split. Qed.

Example login_demo_error_banner :
  result_of (BoltLogin.main Demo.cant_open_page "config.json") [] = Ok 1.
Proof. vm_compute. reflexivity. Qed.

(** * Further properties of the two scripts *)

(** ** The easing and the curve *)

Lemma smoothstep_on_unit_interval (a b : Q) :
  (0 <= a)%Q -> (a <= b)%Q -> (b <= 1)%Q ->
  (smoothstep 0 == 0)%Q /\ (smoothstep 1 == 1)%Q /\
  (0 <= smoothstep a)%Q /\ (smoothstep a <= smoothstep b)%Q /\ (smoothstep b <= 1)%Q.
Proof.
  intros Ha Hab Hb. unfold smoothstep.
  split; [ring|]. split; [ring|].
  assert (Hmono : forall u v, (0 <= u)%Q -> (u <= v)%Q -> (v <= 1)%Q ->
                   (u * u * (3 - 2 * u) <= v * v * (3 - 2 * v))%Q).
  { intros u v Hu Huv Hv.
    assert (E : (v * v * (3 - 2 * v) - u * u * (3 - 2 * u)
                 == (v - u) * (u * (3 - 2 * u) + v * (3 - 2 * v) - 2 * u * v))%Q) by ring.
    assert (P1 : (0 <= u * (1 - v))%Q) by (apply Qmult_le_0_compat; lra).
    assert (P2 : (0 <= v * (1 - u))%Q) by (apply Qmult_le_0_compat; lra).
    assert (P3 : (0 <= u * (2 - 2 * u))%Q) by (apply Qmult_le_0_compat; lra).
    assert (P4 : (0 <= v * (2 - 2 * v))%Q) by (apply Qmult_le_0_compat; lra).
    assert (P : (0 <= (v - u) * (u * (3 - 2 * u) + v * (3 - 2 * v) - 2 * u * v))%Q).
    { apply Qmult_le_0_compat; [lra|].
      assert (E2 : (u * (3 - 2 * u) + v * (3 - 2 * v) - 2 * u * v
                    == u * (1 - v) + v * (1 - u) + u * (2 - 2 * u) + v * (2 - 2 * v))%Q)
        by ring.
      rewrite E2. lra. }
    lra. }
  split; [|split].
  - apply Qle_trans with (0 * 0 * (3 - 2 * 0))%Q; [lra | apply Hmono; lra].
  - apply Hmono; assumption.
  - apply Qle_trans with (1 * 1 * (3 - 2 * 1))%Q; [apply Hmono; lra | lra].
Qed.

(** [smoothstep] (the easing [t * t * (3 - 2 * t)] of line 150) starts at
    0, ends at 1, stays between them on [0, 1] and does not decrease
    there. *)
Theorem smoothstep_eases (a b : Q) :
  (0 <= a)%Q -> (a <= b)%Q -> (b <= 1)%Q ->
  (smoothstep 0 == 0)%Q /\ (smoothstep 1 == 1)%Q /\
  (0 <= smoothstep a)%Q /\ (smoothstep a <= smoothstep b)%Q /\ (smoothstep b <= 1)%Q.
Proof. exact (smoothstep_on_unit_interval a b). Qed.

Lemma smoothstep_eases_witness :
  (0 <= 1 # 4)%Q /\ (1 # 4 <= 3 # 4)%Q /\ (3 # 4 <= 1)%Q /\
  (smoothstep (1 # 4) <= smoothstep (3 # 4))%Q.
Proof.
  assert (H0 : (0 <= 1 # 4)%Q) by (unfold Qle; simpl; lia).
  assert (H1 : (1 # 4 <= 3 # 4)%Q) by (unfold Qle; simpl; lia).
  assert (H2 : (3 # 4 <= 1)%Q) by (unfold Qle; simpl; lia).
  split; [exact H0|]. split; [exact H1|]. split; [exact H2|].
  exact (proj1 (proj2 (proj2 (proj2 (smoothstep_eases (1 # 4) (3 # 4) H0 H1 H2))))).
Defined.

(** The weights of the four control points are not negative and add up
    to 1. *)
Lemma bernstein_weights (t : Q) :
  (0 <= t)%Q -> (t <= 1)%Q ->
  (0 <= (1 - t) ^ 3)%Q /\ (0 <= 3 * (1 - t) ^ 2 * t)%Q /\
  (0 <= 3 * (1 - t) * t ^ 2)%Q /\ (0 <= t ^ 3)%Q /\
  ((1 - t) ^ 3 + 3 * (1 - t) ^ 2 * t + 3 * (1 - t) * t ^ 2 + t ^ 3 == 1)%Q.
Proof.
  intros H0 H1.
  assert (Hs : (0 <= 1 - t)%Q) by lra.
  assert (Hs2 : (0 <= (1 - t) * (1 - t))%Q) by (apply Qmult_le_0_compat; assumption).
  assert (Ht2 : (0 <= t * t)%Q) by (apply Qmult_le_0_compat; assumption).
  repeat split.
  - assert (E : ((1 - t) ^ 3 == (1 - t) * (1 - t) * (1 - t))%Q) by ring.
    rewrite E. apply Qmult_le_0_compat; assumption.
  - assert (E : (3 * (1 - t) ^ 2 * t == 3 * ((1 - t) * (1 - t) * t))%Q) by ring.
    rewrite E. apply Qmult_le_0_compat; [lra|]. apply Qmult_le_0_compat; assumption.
  - assert (E : (3 * (1 - t) * t ^ 2 == 3 * ((1 - t) * (t * t)))%Q) by ring.
    rewrite E. apply Qmult_le_0_compat; [lra|]. apply Qmult_le_0_compat; assumption.
  - assert (E : (t ^ 3 == t * t * t)%Q) by ring.
    rewrite E. apply Qmult_le_0_compat; assumption.
  - ring.
Qed.

Lemma bezier_curve_between (t p0 p1 p2 p3 lo hi : Q) :
  (0 <= t)%Q -> (t <= 1)%Q ->
  (lo <= p0 <= hi)%Q -> (lo <= p1 <= hi)%Q -> (lo <= p2 <= hi)%Q -> (lo <= p3 <= hi)%Q ->
  (bezier_curve 0 p0 p1 p2 p3 == p0)%Q /\
  (bezier_curve 1 p0 p1 p2 p3 == p3)%Q /\
  (lo <= bezier_curve t p0 p1 p2 p3 <= hi)%Q.
Proof.
  intros H0 H1 [L0 U0] [L1 U1] [L2 U2] [L3 U3].
  split; [unfold bezier_curve; ring|]. split; [unfold bezier_curve; ring|].
  destruct (bernstein_weights t H0 H1) as (W0 & W1 & W2 & W3 & Wsum).
  unfold bezier_curve.
  set (w0 := ((1 - t) ^ 3)%Q) in *. set (w1 := (3 * (1 - t) ^ 2 * t)%Q) in *.
  set (w2 := (3 * (1 - t) * t ^ 2)%Q) in *. set (w3 := (t ^ 3)%Q) in *.
  assert (A0 : (0 <= w0 * (p0 - lo))%Q) by (apply Qmult_le_0_compat; lra).
  assert (A1 : (0 <= w1 * (p1 - lo))%Q) by (apply Qmult_le_0_compat; lra).
  assert (A2 : (0 <= w2 * (p2 - lo))%Q) by (apply Qmult_le_0_compat; lra).
  assert (A3 : (0 <= w3 * (p3 - lo))%Q) by (apply Qmult_le_0_compat; lra).
  assert (B0 : (0 <= w0 * (hi - p0))%Q) by (apply Qmult_le_0_compat; lra).
  assert (B1 : (0 <= w1 * (hi - p1))%Q) by (apply Qmult_le_0_compat; lra).
  assert (B2 : (0 <= w2 * (hi - p2))%Q) by (apply Qmult_le_0_compat; lra).
  assert (B3 : (0 <= w3 * (hi - p3))%Q) by (apply Qmult_le_0_compat; lra).
  assert (El : (w0 * p0 + w1 * p1 + w2 * p2 + w3 * p3 - lo
                == w0 * (p0 - lo) + w1 * (p1 - lo) + w2 * (p2 - lo) + w3 * (p3 - lo)
                   + (w0 + w1 + w2 + w3 - 1) * lo)%Q) by ring.
  assert (Eh : (hi - (w0 * p0 + w1 * p1 + w2 * p2 + w3 * p3)
                == w0 * (hi - p0) + w1 * (hi - p1) + w2 * (hi - p2) + w3 * (hi - p3)
                   - (w0 + w1 + w2 + w3 - 1) * hi)%Q) by ring.
  assert (Z0 : ((w0 + w1 + w2 + w3 - 1) * lo == 0)%Q) by (rewrite Wsum; ring).
  assert (Z1 : ((w0 + w1 + w2 + w3 - 1) * hi == 0)%Q) by (rewrite Wsum; ring).
  split; lra.
Qed.



(** ** Where the pointer goes *)

Lemma int_between (q : Q) (lo hi : Z) :
  (inject_Z lo <= q)%Q -> (q <= inject_Z hi)%Q -> lo <= int q <= hi.
Proof.
  intros L U. unfold int. destruct (Qle_bool 0 q).
  - split.
    + rewrite <- (Qfloor_Z lo). now apply Qfloor_resp_le.
    + rewrite <- (Qfloor_Z hi). now apply Qfloor_resp_le.
  - split.
    + rewrite <- (Qceiling_Z lo). now apply Qceiling_resp_le.
    + rewrite <- (Qceiling_Z hi). now apply Qceiling_resp_le.
Qed.

Lemma step_fraction (steps i : Z) :
  0 < steps -> 0 <= i <= steps ->
  (0 <= inject_Z i / inject_Z steps)%Q /\ (inject_Z i / inject_Z steps <= 1)%Q.
Proof.
  intros Hs Hi.
  assert (Hs' : (0 < inject_Z steps)%Q) by (change 0%Q with (inject_Z 0); rewrite <- Zlt_Qlt; lia).
  assert (Hi0 : (0 <= inject_Z i)%Q) by (change 0%Q with (inject_Z 0); rewrite <- Zle_Qle; lia).
  assert (Hi1 : (inject_Z i <= inject_Z steps)%Q) by (rewrite <- Zle_Qle; lia).
  split.
  - apply Qle_shift_div_l; [exact Hs' | lra].
  - apply Qle_shift_div_r; [exact Hs' | lra].
Qed.

(** A point of the curve lies between any two integer bounds of the
    control points. *)
Lemma waypoint_between (steps i lo hi : Z) (p0 p1 p2 p3 : Q) :
  0 < steps -> 0 <= i <= steps ->
  (inject_Z lo <= p0 <= inject_Z hi)%Q -> (inject_Z lo <= p1 <= inject_Z hi)%Q ->
  (inject_Z lo <= p2 <= inject_Z hi)%Q -> (inject_Z lo <= p3 <= inject_Z hi)%Q ->
  lo <= waypoint steps p0 p1 p2 p3 i <= hi.
Proof.
  intros Hs Hi B0 B1 B2 B3. unfold waypoint.
  destruct (step_fraction steps i Hs Hi) as [T0 T1].
  destruct (smoothstep_on_unit_interval _ _ T0 (Qle_refl _) T1) as (_ & _ & S0 & _ & S1).
  destruct (bezier_curve_between _ p0 p1 p2 p3 _ _ S0 S1 B0 B1 B2 B3) as (_ & _ & L & U).
  now apply int_between.
Qed.

(** At [i = steps] the curve is at its last point. *)
Lemma waypoint_last (steps p3 : Z) (p0 p1 p2 : Q) :
  0 < steps -> waypoint steps p0 p1 p2 (inject_Z p3) steps = p3.
Proof.
  intros Hs. unfold waypoint. apply int_inject_Z.
  assert (Hn : ~ (inject_Z steps == 0)%Q).
  { change 0%Q with (inject_Z 0). rewrite inject_Z_injective. lia. }
  unfold bezier_curve, smoothstep, Qdiv. rewrite (Qmult_inv_r _ Hn). ring.
Qed.

Lemma control_point_between (s t r j : Z) (c : Q) :
  (0 <= c)%Q -> (c <= 1)%Q -> - j <= r <= j ->
  (inject_Z (Z.min s t - j) <= inject_Z s + inject_Z (t - s) * c + inject_Z r
   <= inject_Z (Z.max s t + j))%Q.
Proof.
  intros C0 C1 Hr.
  assert (Hr1 : (inject_Z (- j) <= inject_Z r)%Q) by (rewrite <- Zle_Qle; lia).
  assert (Hr2 : (inject_Z r <= inject_Z j)%Q) by (rewrite <- Zle_Qle; lia).
  rewrite inject_Z_opp in Hr1.
  unfold Z.sub. rewrite !inject_Z_plus, !inject_Z_opp.
  destruct (Z.le_ge_cases s t) as [L | L].
  - rewrite Z.min_l, Z.max_r by lia.
    assert (D : (inject_Z s <= inject_Z t)%Q) by (rewrite <- Zle_Qle; lia).
    assert (P1 : (0 <= (inject_Z t + - inject_Z s) * c)%Q) by (apply Qmult_le_0_compat; lra).
    assert (P2 : (0 <= (inject_Z t + - inject_Z s) * (1 - c))%Q)
      by (apply Qmult_le_0_compat; lra).
    assert (E : ((inject_Z t + - inject_Z s) * (1 - c)
                 == (inject_Z t + - inject_Z s) - (inject_Z t + - inject_Z s) * c)%Q) by ring.
    split; lra.
  - rewrite Z.min_r, Z.max_l by lia.
    assert (D : (inject_Z t <= inject_Z s)%Q) by (rewrite <- Zle_Qle; lia).
    assert (P1 : (0 <= (inject_Z s + - inject_Z t) * c)%Q) by (apply Qmult_le_0_compat; lra).
    assert (P2 : (0 <= (inject_Z s + - inject_Z t) * (1 - c))%Q)
      by (apply Qmult_le_0_compat; lra).
    assert (E1 : ((inject_Z t + - inject_Z s) * c == - ((inject_Z s + - inject_Z t) * c))%Q)
      by ring.
    assert (E : ((inject_Z s + - inject_Z t) * (1 - c)
                 == (inject_Z s + - inject_Z t) - (inject_Z s + - inject_Z t) * c)%Q) by ring.
    split; lra.
Qed.

Lemma endpoint_between (s t j : Z) :
  0 <= j ->
  (inject_Z (Z.min s t - j) <= inject_Z s <= inject_Z (Z.max s t + j))%Q /\
  (inject_Z (Z.min s t - j) <= inject_Z t <= inject_Z (Z.max s t + j))%Q.
Proof. intros Hj. rewrite <- !Zle_Qle. lia. Qed.

Section MotionBox.
Context {Image : Type} `{OpenCV Image} (env : Env Image).

(** [human_move_mouse] with its control points: each is the point at
    30% (70%) of the way in x and 10% (90%) in y, moved by a draw of at
    most 50 (30) pixels. *)
Lemma human_move_mouse_control_points (target_x target_y : Z) (tr : trace) :
  let start_x := fst (mouse_position env tr) in
  let start_y := snd (mouse_position env tr) in
  let steps := move_steps start_x start_y target_x target_y in
  exists (r1 r2 r3 r4 : Z) (added : trace),
    -50 <= r1 <= 50 /\ -30 <= r2 <= 30 /\ -50 <= r3 <= 50 /\ -30 <= r4 <= 30 /\
    human_move_mouse env target_x target_y tr =
      (Ok tt, MouseMove target_x target_y :: added ++ tr) /\
    moves added =
      map (fun i =>
             (waypoint steps (inject_Z start_x)
                (inject_Z start_x + inject_Z (target_x - start_x) * (3 # 10) + inject_Z r1)
                (inject_Z start_x + inject_Z (target_x - start_x) * (7 # 10) + inject_Z r3)
                (inject_Z target_x) i,
              waypoint steps (inject_Z start_y)
                (inject_Z start_y + inject_Z (target_y - start_y) * (1 # 10) + inject_Z r2)
                (inject_Z start_y + inject_Z (target_y - start_y) * (9 # 10) + inject_Z r4)
                (inject_Z target_y) i))
          (range (steps + 1)).
Proof.
  cbv zeta. unfold human_move_mouse.
  rewrite (bind_ok _ _ _ _ _ (get_mouse_position_run env tr)).
  set (start := mouse_position env tr).
  set (t1 := GetMouseLocation :: tr).
  rewrite (bind_ok _ _ _ _ _ (randint_run env (-50) 50 t1 ltac:(lia))).
  set (t2 := Random :: t1).
  rewrite (bind_ok _ _ _ _ _ (randint_run env (-30) 30 t2 ltac:(lia))).
  set (t3 := Random :: t2).
  rewrite (bind_ok _ _ _ _ _ (randint_run env (-50) 50 t3 ltac:(lia))).
  set (t4 := Random :: t3).
  rewrite (bind_ok _ _ _ _ _ (randint_run env (-30) 30 t4 ltac:(lia))).
  set (t5 := Random :: t4).
  cbv zeta.
  match goal with
  | |- context [for_each _ (fun i => bind (emit (MouseMove (@?fx i) (@?fy i))) _)] =>
    destruct (move_loop_run env fx fy (5 # 1000) (15 # 1000)
                (range (move_steps (fst start) (snd start) target_x target_y + 1)) t5)
      as (added & E & Hm & F)
  end.
  cbv beta in E, Hm.
  exists (-50 + entropy env t1 mod (50 - -50 + 1)), (-30 + entropy env t2 mod (30 - -30 + 1)),
    (-50 + entropy env t3 mod (50 - -50 + 1)), (-30 + entropy env t4 mod (30 - -30 + 1)),
    (added ++ [Random; Random; Random; Random; GetMouseLocation]).
  split; [apply randint_range; lia|]. split; [apply randint_range; lia|].
  split; [apply randint_range; lia|]. split; [apply randint_range; lia|].
  rewrite (bind_ok _ _ _ _ _ E). split.
  - unfold emit. rewrite <- app_assoc. reflexivity.
  - rewrite moves_app. simpl. exact Hm.
Qed.

(** Every position [human_move_mouse] sends the pointer to lies in the
    rectangle spanned by start and target, widened by the jitter of the
    control points: 50 pixels in x, 30 in y.  The curve itself ends on the
    target, before the final move to it. *)
Theorem human_move_mouse_stays_in_box (target_x target_y : Z) (tr : trace) :
  let start_x := fst (mouse_position env tr) in
  let start_y := snd (mouse_position env tr) in
  exists (added : trace) (path : list (Z * Z)),
    human_move_mouse env target_x target_y tr = (Ok tt, added ++ tr) /\
    moves added = path ++ [(target_x, target_y)] /\
    last path = Some (target_x, target_y) /\
    Forall (fun p =>
              Z.min start_x target_x - 50 <= fst p <= Z.max start_x target_x + 50 /\
              Z.min start_y target_y - 30 <= snd p <= Z.max start_y target_y + 30)
           (moves added).
Proof.
  cbv zeta.
  destruct (human_move_mouse_control_points target_x target_y tr)
    as (r1 & r2 & r3 & r4 & added & R1 & R2 & R3 & R4 & E & Hm).
  cbv zeta in *.
  set (sx := fst (mouse_position env tr)) in *.
  set (sy := snd (mouse_position env tr)) in *.
  pose proof (move_steps_at_least sx sy target_x target_y) as Hsteps.
  set (steps := move_steps sx sy target_x target_y) in *.
  assert (C3 : (0 <= 3 # 10)%Q /\ (3 # 10 <= 1)%Q) by (split; unfold Qle; simpl; lia).
  assert (C7 : (0 <= 7 # 10)%Q /\ (7 # 10 <= 1)%Q) by (split; unfold Qle; simpl; lia).
  assert (C1 : (0 <= 1 # 10)%Q /\ (1 # 10 <= 1)%Q) by (split; unfold Qle; simpl; lia).
  assert (C9 : (0 <= 9 # 10)%Q /\ (9 # 10 <= 1)%Q) by (split; unfold Qle; simpl; lia).
  assert (Hbox : forall i, 0 <= i <= steps ->
    Z.min sx target_x - 50 <=
      waypoint steps (inject_Z sx)
        (inject_Z sx + inject_Z (target_x - sx) * (3 # 10) + inject_Z r1)
        (inject_Z sx + inject_Z (target_x - sx) * (7 # 10) + inject_Z r3)
        (inject_Z target_x) i <= Z.max sx target_x + 50 /\
    Z.min sy target_y - 30 <=
      waypoint steps (inject_Z sy)
        (inject_Z sy + inject_Z (target_y - sy) * (1 # 10) + inject_Z r2)
        (inject_Z sy + inject_Z (target_y - sy) * (9 # 10) + inject_Z r4)
        (inject_Z target_y) i <= Z.max sy target_y + 30).
  { intros i Hi. split; (apply waypoint_between; [lia | exact Hi | | | | ]);
      try (apply endpoint_between; lia);
      apply control_point_between; tauto || lia. }
  exists (MouseMove target_x target_y :: added). eexists.
  split; [exact E|].
  assert (Hmoves : moves (MouseMove target_x target_y :: added)
                   = moves added ++ [(target_x, target_y)]).
  { change (MouseMove target_x target_y :: added) with ([MouseMove target_x target_y] ++ added).
    now rewrite moves_app. }
  split; [rewrite Hmoves, Hm; reflexivity|]. split.
  - assert (Er : range (steps + 1) = range steps ++ [steps]).
    { unfold range. replace (Z.to_nat (steps + 1)) with (Z.to_nat steps + 1)%nat by lia.
      rewrite seq_app, map_app. simpl. f_equal. f_equal. lia. }
    rewrite Er, map_app, last_app. cbn [map last].
    rewrite !waypoint_last by lia. reflexivity.
  - rewrite Hmoves, Hm. apply Forall_app. split.
    + apply List.Forall_forall. intros p Hp. apply List.in_map_iff in Hp as (i & <- & Hi).
      cbn [fst snd]. apply Hbox.
      unfold range in Hi. apply List.in_map_iff in Hi as (k & <- & Hk).
      apply List.in_seq in Hk. lia.
    + repeat constructor; cbn [fst snd]; lia.
Qed.
End MotionBox.

Example human_move_mouse_box_demo :
  Forall (fun p => 3 - 50 <= fst p <= 33 + 50 /\ 4 - 30 <= snd p <= 44 + 30)
         (moves (trace_of (human_move_mouse (Demo.still []) 33 44) [])).
Proof. vm_compute. repeat constructor; discriminate. Qed.

(** ** Clicks and keystrokes of the building blocks *)


Lemma clicks_at_app (newer older : trace) (cs_newer cs_older : list (option (Z * Z))) :
  clicks_at newer cs_newer -> clicks_at older cs_older ->
  clicks_at (newer ++ older) (cs_newer ++ cs_older).
Proof.
  intros Hn Ho rest. rewrite <- !app_assoc. rewrite Hn, Ho. reflexivity.
Qed.

Lemma clicks_at_quiet (added : trace) :
  Forall (fun e => not_click e = true) added -> clicks_at added [].
Proof.
  intros F older. induction F as [|e added He _ IH]; [reflexivity|].
  destruct e; try discriminate He; exact IH.
Qed.




Lemma count_event_app (p : event -> bool) (a b : trace) :
  count_event p (a ++ b) = (count_event p a + count_event p b)%nat.
Proof. unfold count_event. now rewrite List.filter_app, length_app. Qed.

Lemma count_event_none (p q : event -> bool) (added : trace) :
  (forall e, q e = true -> p e = false) ->
  Forall (fun e => q e = true) added -> count_event p added = 0%nat.
Proof.
  intros Hpq. induction 1 as [|e added He _ IH]; [reflexivity|].
  unfold count_event in *. cbn [List.filter]. now rewrite (Hpq e He).
Qed.

Section BlocksAgain.
Context {Image : Type} `{OpenCV Image} (env : Env Image).

Lemma click_at_clicks (x y : Z) (tr : trace) :
  exists added,
    click_at env x y tr = (Ok tt, added ++ tr) /\
    clicks_at added [Some (x, y)] /\
    Forall (fun e => pointer_event e = true) added.
Proof.
  destruct (human_move_mouse_run env x y tr) as (c1 & c2 & c3 & c4 & added & E & F & _).
  unfold click_at. rewrite (bind_ok _ _ _ _ _ E).
  set (t1 := MouseMove x y :: added ++ tr).
  exists (Sleep ((1 # 10) + ((3 # 10) - (1 # 10)) *
                 unit_draw env (Click :: Sleep ((5 # 100) + ((15 # 100) - (5 # 100))
                                                * unit_draw env t1)
                                :: Random :: t1))%Q
          :: Random :: Click
          :: Sleep ((5 # 100) + ((15 # 100) - (5 # 100)) * unit_draw env t1)%Q
          :: Random :: MouseMove x y :: added).
  split; [reflexivity|]. split.
  - intros older. cbn [app clicks last_move]. f_equal.
    apply clicks_app_moves. exact F.
  - repeat constructor. eapply Forall_impl; [exact F|]. intros e. now destruct e.
Qed.

Lemma click_random_within_shape (x y width height : Z) (tr : trace) :
  exists (rand_x rand_y : Z) (added : trace),
    click_random_within env x y width height tr = (Ok tt, added ++ tr) /\
    clicks_at added [Some (rand_x, rand_y)] /\
    x + 5 <= rand_x <= x + Z.max 6 (width - 5) /\
    y + 5 <= rand_y <= y + Z.max 6 (height - 5) /\
    (width < 5 -> x + width < rand_x) /\
    (height < 5 -> y + height < rand_y).
Proof.
  unfold click_random_within. cbv zeta.
  assert (Lw : 5 <= Z.max (5 + 1) (width - 5)) by lia.
  assert (Lh : 5 <= Z.max (5 + 1) (height - 5)) by lia.
  rewrite (bind_ok _ _ _ _ _ (randint_run env _ _ tr Lw)).
  rewrite (bind_ok _ _ _ _ _ (randint_run env _ _ (Random :: tr) Lh)).
  unfold log_info. rewrite bind_emit.
  pose proof (randint_range env _ _ tr Lw) as Rw.
  pose proof (randint_range env _ _ (Random :: tr) Lh) as Rh.
  set (dx := 5 + entropy env tr mod _) in *.
  set (dy := 5 + entropy env (Random :: tr) mod _) in *.
  destruct (click_at_clicks (x + dx) (y + dy) (Log INFO :: Random :: Random :: tr))
    as (added & E & C & _).
  exists (x + dx), (y + dy), (added ++ [Log INFO; Random; Random]).
  rewrite <- app_assoc. cbn [app]. rewrite E.
  split; [reflexivity|]. split.
  - change [Some (x + dx, y + dy)] with ([Some (x + dx, y + dy)] ++ []).
    apply clicks_at_app; [exact C|]. apply clicks_at_quiet. repeat constructor.
  - repeat split; lia.
Qed.

(** [click_random_within], for a rectangle of any size: it raises
    nothing, clicks once, and the click is 5 to [max(6, size - 5)] pixels
    from the corner in each direction.  For a rectangle less than 5 wide
    (or high) the click falls beyond its right (or lower) edge. *)
Theorem click_random_within_any_size (x y width height : Z) (tr : trace) :
  exists (rand_x rand_y : Z) (added : trace),
    click_random_within env x y width height tr = (Ok tt, added ++ tr) /\
    clicks_at added [Some (rand_x, rand_y)] /\
    x + 5 <= rand_x <= x + Z.max 6 (width - 5) /\
    y + 5 <= rand_y <= y + Z.max 6 (height - 5) /\
    (width < 5 -> x + width < rand_x) /\
    (height < 5 -> y + height < rand_y).
Proof. exact (click_random_within_shape x y width height tr). Qed.

End BlocksAgain.

Example type_text_demo :
  typed (trace_of (type_text (Demo.still []) "Zezima") []) = list_ascii_of_string "Zezima".
Proof. vm_compute. reflexivity. Qed.

Example click_random_within_tiny_demo :
  clicks (trace_of (click_random_within (Demo.still []) 100 200 3 3) []) = [Some (105, 206)].
Proof. vm_compute. reflexivity. Qed.

(** ** More on find_template *)

Section FindTemplateAgain.
Context {Image : Type} `{OpenCV Image} (env : Env Image).

(** What [match_template] computes, by the maximum of the score map. *)
Lemma match_template_run (log_score : M unit) (l : level)
    (screen_img template : Image) (threshold : Q) (return_bounds : bool) (tr : trace) :
  (forall tr0, log_score tr0 = (Ok tt, Log l :: tr0)) ->
  let r := matchTemplate_CCOEFF_NORMED (cvtColor_BGR2GRAY screen_img)
                                       (cvtColor_BGR2GRAY template) in
  let max_val := snd (fst (fst (minMaxLoc r))) in
  let max_loc := snd (minMaxLoc r) in
  match_template log_score screen_img template threshold return_bounds tr =
  (Ok (if Qle_bool threshold max_val
       then Some (if return_bounds
                  then Bounds (fst max_loc) (snd max_loc)
                              (snd (shape template)) (fst (shape template))
                  else Center (fst max_loc + snd (shape template) / 2)
                              (snd max_loc + fst (shape template) / 2))
       else None),
   Log l :: tr).
Proof.
  intros Hlog. cbv zeta. unfold match_template.
  destruct (minMaxLoc _) as [[[min_val max_val] min_loc] max_loc]. cbn [fst snd].
  rewrite (bind_ok _ _ _ _ _ (Hlog tr)).
  destruct (shape template) as [h w]. cbn [fst snd].
  destruct (Qle_bool threshold max_val); [destruct return_bounds|]; reflexivity.
Qed.

Lemma bolt_find_template_unfold (screen_img : Image) (name : string) (threshold : Q)
    (return_bounds : bool) (tr : trace) :
  BoltLogin.find_template env screen_img name threshold return_bounds tr =
  match templates env name with
  | Absent => (Ok None, Log ERROR :: tr)
  | Undecodable => (Ok None, Log ERROR :: Imread name :: tr)
  | Decoded template =>
    match_template log_info screen_img template threshold return_bounds (Imread name :: tr)
  end.
Proof.
  unfold BoltLogin.find_template, path_exists, imread.
  destruct (templates env name); reflexivity.
Qed.

Lemma post_find_template_unfold (screen_img : Image) (name : string) (threshold : Q)
    (return_bounds : bool) (tr : trace) :
  PostLaunch.find_template env screen_img name threshold return_bounds tr =
  match templates env name with
  | Decoded template =>
    match_template log_debug screen_img template threshold return_bounds (Imread name :: tr)
  | _ => (Ok None, Imread name :: tr)
  end.
Proof.
  unfold PostLaunch.find_template, imread.
  destruct (templates env name); reflexivity.
Qed.

Lemma Qle_bool_trans_true (a b c : Q) :
  (a <= b)%Q -> Qle_bool b c = true -> Qle_bool a c = true.
Proof.
  intros L E. apply Qle_bool_iff. apply Qle_bool_iff in E. eapply Qle_trans; eassumption.
Qed.

(** A match found at some threshold is found, the same, at any lower
    threshold: in both scripts. *)
Theorem find_template_lower_threshold
    (screen_img : Image) (name : string) (lower threshold : Q)
    (return_bounds : bool) (tr : trace) (c : found) :
  (lower <= threshold)%Q ->
  (result_of (BoltLogin.find_template env screen_img name threshold return_bounds) tr
     = Ok (Some c) ->
   result_of (BoltLogin.find_template env screen_img name lower return_bounds) tr
     = Ok (Some c)) /\
  (result_of (PostLaunch.find_template env screen_img name threshold return_bounds) tr
     = Ok (Some c) ->
   result_of (PostLaunch.find_template env screen_img name lower return_bounds) tr
     = Ok (Some c)).
Proof.
  intros L. unfold result_of. split.
  - rewrite !bolt_find_template_unfold.
    destruct (templates env name) as [| |template]; try discriminate.
    rewrite !(match_template_run log_info INFO) by reflexivity. cbn [fst].
    destruct (Qle_bool threshold _) eqn:Et; [|discriminate].
    now rewrite (Qle_bool_trans_true _ _ _ L Et).
  - rewrite !post_find_template_unfold.
    destruct (templates env name) as [| |template]; try discriminate.
    rewrite !(match_template_run log_debug DEBUG) by reflexivity. cbn [fst].
    destruct (Qle_bool threshold _) eqn:Et; [|discriminate].
    now rewrite (Qle_bool_trans_true _ _ _ L Et).
Qed.

(** The two return modes agree: where [find_template] with
    [return_bounds] finds [(x, y, w, h)], without it, on the same frame, it
    finds the centre [(x + w // 2, y + h // 2)]: in both scripts. *)
Theorem find_template_center_of_bounds
    (screen_img : Image) (name : string) (threshold : Q) (tr : trace) (x y w h : Z) :
  (result_of (BoltLogin.find_template env screen_img name threshold true) tr
     = Ok (Some (Bounds x y w h)) ->
   result_of (BoltLogin.find_template env screen_img name threshold false) tr
     = Ok (Some (Center (x + w / 2) (y + h / 2)))) /\
  (result_of (PostLaunch.find_template env screen_img name threshold true) tr
     = Ok (Some (Bounds x y w h)) ->
   result_of (PostLaunch.find_template env screen_img name threshold false) tr
     = Ok (Some (Center (x + w / 2) (y + h / 2)))).
Proof.
  unfold result_of. split.
  - rewrite !bolt_find_template_unfold.
    destruct (templates env name) as [| |template]; try discriminate.
    rewrite !(match_template_run log_info INFO) by reflexivity. cbn [fst].
    destruct (Qle_bool threshold _); [|discriminate].
    intros Eb. inversion Eb; subst. reflexivity.
  - rewrite !post_find_template_unfold.
    destruct (templates env name) as [| |template]; try discriminate.
    rewrite !(match_template_run log_debug DEBUG) by reflexivity. cbn [fst].
    destruct (Qle_bool threshold _); [|discriminate].
    intros Eb. inversion Eb; subst. reflexivity.
Qed.

Lemma bolt_find_template_looks_up (name : string) (threshold : Q) (return_bounds : bool) :
  looks_up (fun s => BoltLogin.find_template env s name threshold return_bounds).
Proof.
  intros s tr. rewrite bolt_find_template_unfold.
  destruct (templates env name) as [| |template].
  - exists None, [Log ERROR]. split; [reflexivity | repeat constructor].
  - exists None, [Log ERROR; Imread name]. split; [reflexivity | repeat constructor].
  - rewrite (match_template_run log_info INFO) by reflexivity.
    eexists. exists [Log INFO; Imread name]. split; [reflexivity | repeat constructor].
Qed.

Lemma post_find_template_looks_up (name : string) (threshold : Q) (return_bounds : bool) :
  looks_up (fun s => PostLaunch.find_template env s name threshold return_bounds).
Proof.
  intros s tr. rewrite post_find_template_unfold.
  destruct (templates env name) as [| |template].
  - exists None, [Imread name]. split; [reflexivity | repeat constructor].
  - exists None, [Imread name]. split; [reflexivity | repeat constructor].
  - rewrite (match_template_run log_debug DEBUG) by reflexivity.
    eexists. exists [Log DEBUG; Imread name]. split; [reflexivity | repeat constructor].
Qed.
End FindTemplateAgain.

Lemma find_template_lower_threshold_witness :
  (6 # 10 <= 8 # 10)%Q /\
  result_of (BoltLogin.find_template (Demo.still [("play_button.png"%string, (7, 9))])
               (Demo.frame [("play_button.png"%string, (7, 9))])
               "play_button.png" (6 # 10) false) [] = Ok (Some (Center 12 12)).
Proof.
  assert (L : (6 # 10 <= 8 # 10)%Q) by (unfold Qle; simpl; lia).
  split; [exact L|].
  apply (proj1 (find_template_lower_threshold
                  (Demo.still [("play_button.png"%string, (7, 9))])
                  (Demo.frame [("play_button.png"%string, (7, 9))])
                  "play_button.png" (6 # 10) (8 # 10) false [] (Center 12 12) L)).
  vm_compute. reflexivity.
Defined.

Lemma find_template_center_of_bounds_witness :
  result_of (BoltLogin.find_template (Demo.still [("play_button.png"%string, (7, 9))])
               (Demo.frame [("play_button.png"%string, (7, 9))])
               "play_button.png" MATCH_THRESHOLD true) [] = Ok (Some (Bounds 7 9 10 6)) /\
  result_of (BoltLogin.find_template (Demo.still [("play_button.png"%string, (7, 9))])
               (Demo.frame [("play_button.png"%string, (7, 9))])
               "play_button.png" MATCH_THRESHOLD false) []
  = Ok (Some (Center (7 + 10 / 2) (9 + 6 / 2))).
Proof.
  assert (Hb : result_of (BoltLogin.find_template
                            (Demo.still [("play_button.png"%string, (7, 9))])
                            (Demo.frame [("play_button.png"%string, (7, 9))])
                            "play_button.png" MATCH_THRESHOLD true) []
               = Ok (Some (Bounds 7 9 10 6))) by (vm_compute; reflexivity).
  split; [exact Hb|].
  exact (proj1 (find_template_center_of_bounds
                  (Demo.still [("play_button.png"%string, (7, 9))])
                  (Demo.frame [("play_button.png"%string, (7, 9))])
                  "play_button.png" MATCH_THRESHOLD [] 7 9 10 6) Hb).
Defined.

(** ** More on the poll loop *)

(** Equal traces, up to the nesting of [++]. *)
Ltac same_trace :=
  repeat (progress (try rewrite <- !app_assoc; cbn [app])); reflexivity.

Section PollLoopAgain.
Context {Image : Type} `{OpenCV Image} (env : Env Image).

Lemma take_screenshot_run (tr : trace) :
  exists r added,
    take_screenshot env tr = (Ok r, added ++ Import :: tr) /\
    Forall (fun e => lookup_event e = true) added.
Proof.
  unfold take_screenshot, log_error. rewrite bind_query.
  destruct (screen env tr) as [[]|img].
  - exists None, [Log ERROR]. split; [reflexivity | repeat constructor].
  - exists None, [Log ERROR]. split; [reflexivity | repeat constructor].
  - exists None, [Log ERROR]. split; [reflexivity | repeat constructor].
  - exists (Some img), []. split; [reflexivity | constructor].
Qed.

(** One look at the screen: one capture, and reading and logging. *)
Lemma look_run (find : Image -> M (option found)) (tr : trace) :
  looks_up find ->
  exists r added,
    look env find tr = (Ok r, added ++ Import :: tr) /\
    Forall (fun e => lookup_event e = true) added.
Proof.
  intros Hfind. unfold look.
  destruct (take_screenshot_run tr) as (s & a1 & E1 & F1).
  rewrite (bind_ok _ _ _ _ _ E1). destruct s as [s|].
  - destruct (Hfind s (a1 ++ Import :: tr)) as (r & a2 & E2 & F2).
    exists r, (a2 ++ a1). rewrite E2, <- app_assoc. split; [reflexivity|].
    apply Forall_app; split; assumption.
  - exists None, a1. split; [reflexivity | exact F1].
Qed.

Lemma lookup_not_click (added : trace) :
  Forall (fun e => lookup_event e = true) added ->
  Forall (fun e => not_click e = true) added /\
  Forall (fun e => not_keyboard e = true) added /\
  count_event is_import added = 0%nat.
Proof.
  intros F. repeat split.
  - eapply Forall_impl; [exact F|]. intros e; now destruct e.
  - eapply Forall_impl; [exact F|]. intros e; now destruct e.
  - apply (count_event_none _ lookup_event); [|exact F]. intros e; now destruct e.
Qed.

Lemma pointer_not_keyboard (added : trace) :
  Forall (fun e => pointer_event e = true) added ->
  Forall (fun e => not_keyboard e = true) added /\
  count_event is_import added = 0%nat.
Proof.
  intros F. split.
  - eapply Forall_impl; [exact F|]. intros e; now destruct e.
  - apply (count_event_none _ pointer_event); [|exact F]. intros e; now destruct e.
Qed.

(** The loop of [wait_and_click], whatever is on screen: it raises
    nothing; it returns [True] having clicked once, or [False] having
    clicked nowhere; it types nothing; and it makes no more than [n]
    captures when [n] sleeps reach the timeout. *)
Lemma poll_and_click_shape (find : Image -> M (option found)) (timeout : Q) :
  looks_up find ->
  forall (n fuel : nat) (elapsed : Q) (tr : trace),
    (n < fuel)%nat -> (timeout <= elapsed + elapsed_after n)%Q ->
    exists (b : bool) (added : trace),
      poll_and_click env fuel find timeout elapsed tr = (Ok b, added ++ tr) /\
      (if b then exists c, clicks_at added [Some c] else clicks_at added []) /\
      Forall (fun e => not_keyboard e = true) added /\
      (captures added <= n)%nat.
Proof.
  intros Hfind. induction n as [|n IH]; intros fuel elapsed tr Hfuel Ht;
    (destruct fuel as [|fuel]; [lia|]).
  - cbn [poll_and_click].
    assert (L : Qlt_bool elapsed timeout = false).
    { apply Qlt_bool_false. unfold elapsed_after in Ht.
      change (inject_Z (Z.of_nat 0)) with 0%Q in Ht. lra. }
    rewrite L. exists false, [Log WARN]. split; [reflexivity|].
    split; [apply clicks_at_quiet; repeat constructor|].
    split; [repeat constructor | reflexivity].
  - destruct (Qlt_le_dec elapsed timeout) as [L | L].
    + rewrite (poll_and_click_step env find _ _ _ _ L).
      destruct (look_run find tr Hfind) as (r & la & El & Fl).
      destruct (lookup_not_click la Fl) as (Flc & Flk & Fli).
      rewrite El. destruct r as [c|].
      * destruct (click_at_clicks env (item0 c) (item1 c) (Log INFO :: la ++ Import :: tr))
          as (ca & Ec & Cc & Fc).
        destruct (pointer_not_keyboard ca Fc) as (Fck & Fci).
        unfold log_info. rewrite bind_emit, (bind_ok _ _ _ _ _ Ec).
        exists true, (ca ++ Log INFO :: la ++ [Import]).
        split; [same_trace|].
        split; [|split].
        -- exists (item0 c, item1 c).
           change [Some (item0 c, item1 c)] with ([Some (item0 c, item1 c)] ++ []).
           apply clicks_at_app; [exact Cc|]. apply clicks_at_quiet.
           constructor; [reflexivity|]. apply Forall_app; split; [exact Flc|].
           repeat constructor.
        -- apply Forall_app; split; [exact Fck|]. constructor; [reflexivity|].
           apply Forall_app; split; [exact Flk | repeat constructor].
        -- unfold captures.
           change (Log INFO :: la ++ [Import]) with ([Log INFO] ++ la ++ [Import]).
           rewrite !count_event_app, Fci, Fli. cbn. lia.
      * destruct (IH fuel (elapsed + POLL_INTERVAL)%Q (Sleep POLL_INTERVAL :: la ++ Import :: tr))
          as (b & added & E & C & K & N).
        { lia. }
        { pose proof (elapsed_after_succ n). lra. }
        exists b, (added ++ Sleep POLL_INTERVAL :: la ++ [Import]).
        rewrite E. split; [same_trace|].
        assert (Q0 : clicks_at (Sleep POLL_INTERVAL :: la ++ [Import]) []).
        { apply clicks_at_quiet. constructor; [reflexivity|].
          apply Forall_app; split; [exact Flc | repeat constructor]. }
        split; [|split].
        -- destruct b.
           ++ destruct C as [c C]. exists c.
              change [Some c] with ([Some c] ++ []). now apply clicks_at_app.
           ++ change (@nil (option (Z * Z))) with (@nil (option (Z * Z)) ++ []).
              now apply clicks_at_app.
        -- apply Forall_app; split; [exact K|]. constructor; [reflexivity|].
           apply Forall_app; split; [exact Flk | repeat constructor].
        -- unfold captures in *.
           change (Sleep POLL_INTERVAL :: la ++ [Import])
             with ([Sleep POLL_INTERVAL] ++ la ++ [Import]).
           rewrite !count_event_app, Fli. cbn. lia.
    + cbn [poll_and_click]. apply Qlt_bool_false in L. rewrite L.
      exists false, [Log WARN]. split; [reflexivity|].
      split; [apply clicks_at_quiet; repeat constructor|].
      split; [repeat constructor | cbn; lia].
Qed.

(** The same for a [wait_and_click] that logs its step and runs the loop
    with the fuel of [polls]. *)
Lemma wait_and_click_shape (find : Image -> M (option found)) (timeout : Q) (tr : trace) :
  looks_up find ->
  exists (b : bool) (added : trace),
    (log_step;; poll_and_click env (polls timeout) find timeout 0) tr = (Ok b, added ++ tr) /\
    (if b then exists c, clicks_at added [Some c] else clicks_at added []) /\
    Forall (fun e => not_keyboard e = true) added /\
    (captures added = 0%nat \/
     (elapsed_after (captures added) < timeout + POLL_INTERVAL)%Q).
Proof.
  intros Hfind.
  destruct (polls_enough timeout) as (n & Ef & Hend & Hn).
  unfold log_step. rewrite bind_emit, Ef.
  destruct (poll_and_click_shape find timeout Hfind n (S n) 0 (Log STEP :: tr))
    as (b & added & E & C & K & N); [lia | lra |].
  exists b, (added ++ [Log STEP]). rewrite E, <- app_assoc.
  split; [reflexivity|].
  assert (Q0 : clicks_at [Log STEP] []) by (apply clicks_at_quiet; repeat constructor).
  split; [|split].
  - destruct b.
    + destruct C as [c C]. exists c. change [Some c] with ([Some c] ++ []).
      now apply clicks_at_app.
    + change (@nil (option (Z * Z))) with (@nil (option (Z * Z)) ++ []).
      now apply clicks_at_app.
  - apply Forall_app; split; [exact K | repeat constructor].
  - unfold captures in *. rewrite count_event_app. cbn [count_event List.filter is_import length].
    rewrite Nat.add_0_r.
    destruct (count_event is_import added) as [|k] eqn:Ek; [now left | right].
    assert (Hk : (k < n)%nat) by lia.
    apply Hn in Hk. pose proof (elapsed_after_succ k).
    assert (Hle : (elapsed_after (S k) <= elapsed_after k + POLL_INTERVAL)%Q) by lra.
    lra.
Qed.


(** [wait_and_click], in both scripts, captures the screen at most once
    per poll interval that begins before the timeout: with [k] the number
    of its captures, [k = 0] or [k * POLL_INTERVAL < timeout + POLL_INTERVAL]. *)
Theorem wait_and_click_bounded_captures
    (template_name : string) (timeout threshold : Q) (tr : trace) :
  (exists added,
     trace_of (BoltLogin.wait_and_click env template_name timeout) tr = added ++ tr /\
     (captures added = 0%nat \/
      (elapsed_after (captures added) < timeout + POLL_INTERVAL)%Q)) /\
  (exists added,
     trace_of (PostLaunch.wait_and_click env template_name timeout threshold) tr
     = added ++ tr /\
     (captures added = 0%nat \/
      (elapsed_after (captures added) < timeout + POLL_INTERVAL)%Q)).
Proof.
  unfold trace_of. split.
  - destruct (wait_and_click_shape _ timeout tr
                (bolt_find_template_looks_up env template_name MATCH_THRESHOLD false))
      as (b & added & E & _ & _ & N).
    exists added. split; [|exact N].
    unfold BoltLogin.wait_and_click. now rewrite E.
  - destruct (wait_and_click_shape _ timeout tr
                (post_find_template_looks_up env template_name threshold false))
      as (b & added & E & _ & _ & N).
    exists added. split; [|exact N].
    unfold PostLaunch.wait_and_click. now rewrite E.
Qed.
End PollLoopAgain.

Example wait_and_click_bounded_demo :
  captures (trace_of (PostLaunch.wait_and_click (Demo.still []) "runelite_play_button.png"
                        30 (6 # 10)) []) = 60%nat.
Proof. vm_compute. reflexivity. Qed.

(** ** The wait for a window *)

Section WaitForWindow.
Context {Image : Type} `{OpenCV Image} (env : Env Image).

Lemma wait_for_window_loop_shape (name : string) (timeout : Q) :
  forall (n fuel : nat) (elapsed : Q) (tr : trace),
    (n < fuel)%nat ->
    (timeout <= elapsed + elapsed_after n)%Q ->
    (forall j, (j < n)%nat -> (elapsed + elapsed_after j < timeout)%Q) ->
    exists (r : option string) (added : trace),
      BoltLogin.wait_for_window_loop env fuel name timeout elapsed tr = (Ok r, added ++ tr) /\
      Forall (fun e => window_event e = true) added /\
      (count_event is_search added <= n)%nat /\
      match r with
      | Some window_id =>
        exists before ids,
          added ++ tr = Log INFO :: Search name :: before /\
          windows env before name = SearchDone 0 (window_id :: ids)
      | None => count_event is_search added = n
      end.
Proof.
  induction n as [|n IH]; intros fuel elapsed tr Hfuel Hend Hbefore;
    (destruct fuel as [|fuel]; [lia|]); cbn [BoltLogin.wait_for_window_loop].
  - assert (L : Qlt_bool elapsed timeout = false).
    { apply Qlt_bool_false. unfold elapsed_after in Hend.
      change (inject_Z (Z.of_nat 0)) with 0%Q in Hend. lra. }
    rewrite L. exists None, [Log ERROR]. split; [reflexivity|].
    split; [repeat constructor|]. split; reflexivity.
  - assert (L : Qlt_bool elapsed timeout = true).
    { apply Qlt_bool_true. pose proof (Hbefore O ltac:(lia)) as H0.
      unfold elapsed_after in H0. change (inject_Z (Z.of_nat 0)) with 0%Q in H0. lra. }
    rewrite L, bind_query.
    assert (Hnext : exists (r : option string) (added : trace),
              bind (time_sleep POLL_INTERVAL)
                (fun _ => BoltLogin.wait_for_window_loop env fuel name timeout
                            (elapsed + POLL_INTERVAL)%Q) (Search name :: tr)
              = (Ok r, added ++ tr) /\
              Forall (fun e => window_event e = true) added /\
              (count_event is_search added <= S n)%nat /\
              match r with
              | Some window_id =>
                exists before ids,
                  added ++ tr = Log INFO :: Search name :: before /\
                  windows env before name = SearchDone 0 (window_id :: ids)
              | None => count_event is_search added = S n
              end).
    { unfold time_sleep. rewrite bind_emit.
      destruct (IH fuel (elapsed + POLL_INTERVAL)%Q (Sleep POLL_INTERVAL :: Search name :: tr))
        as (r & added & E & F & N & R).
      { lia. }
      { pose proof (elapsed_after_succ n). lra. }
      { intros j Hj. pose proof (Hbefore (S j) ltac:(lia)).
        pose proof (elapsed_after_succ j). lra. }
      exists r, (added ++ [Sleep POLL_INTERVAL; Search name]).
      rewrite E. split; [same_trace|].
      split; [apply Forall_app; split; [exact F | repeat constructor]|].
      rewrite count_event_app. cbn [count_event List.filter is_search length].
      split; [lia|]. destruct r as [window_id|].
      - destruct R as (before & ids & Eb & Ew). exists before, ids.
        split; [|exact Ew]. rewrite <- Eb. same_trace.
      - lia. }
    destruct (windows env tr name) as [|rc ids] eqn:Ew; [exact Hnext|].
    destruct rc; try exact Hnext. destruct ids as [|window_id ids]; [exact Hnext|].
    unfold log_info. rewrite bind_emit.
    exists (Some window_id), [Log INFO; Search name]. split; [reflexivity|].
    split; [repeat constructor|]. split; [cbn; lia|].
    exists tr, ids. split; [reflexivity | exact Ew].
Qed.

Lemma wait_for_window_shape (name : string) (timeout : Q) (tr : trace) :
  exists (r : option string) (added : trace),
    BoltLogin.wait_for_window env name timeout tr = (Ok r, added ++ tr) /\
    Forall (fun e => window_event e = true) added /\
    match r with
    | Some window_id =>
      exists before ids,
        added ++ tr = Log INFO :: Search name :: before /\
        windows env before name = SearchDone 0 (window_id :: ids)
    | None =>
      let n := count_event is_search added in
      (timeout <= elapsed_after n)%Q /\
      (n = O \/ (elapsed_after n < timeout + POLL_INTERVAL)%Q)
    end.
Proof.
  destruct (polls_enough timeout) as (n & Ef & Hend & Hn).
  unfold BoltLogin.wait_for_window, log_info. rewrite bind_emit, Ef.
  destruct (wait_for_window_loop_shape name timeout n (S n) 0 (Log INFO :: tr))
    as (r & added & E & F & N & R).
  { lia. }
  { lra. }
  { intros j Hj. apply Hn in Hj. lra. }
  exists r, (added ++ [Log INFO]). rewrite E. split; [same_trace|].
  split; [apply Forall_app; split; [exact F | repeat constructor]|].
  destruct r as [window_id|].
  - destruct R as (before & ids & Eb & Ew). exists before, ids.
    split; [|exact Ew]. rewrite <- Eb. same_trace.
  - cbv zeta. rewrite count_event_app. cbn [count_event List.filter is_search length].
    rewrite Nat.add_0_r, R. split; [exact Hend|].
    destruct n as [|k]; [now left | right].
    pose proof (proj1 (Hn k) ltac:(lia)). pose proof (elapsed_after_succ k). lra.
Qed.

End WaitForWindow.

Example wait_for_window_demo_timeout :
  let run := BoltLogin.wait_for_window
               (Demo.world (fun _ => inr (Demo.frame [])) (fun _ _ => SearchRaised)
                           ConfigMissing)
               "Bolt" 60 [] in
  fst run = Ok None /\ count_event is_search (snd run) = 120%nat.
Proof. vm_compute. split; reflexivity. Qed.

(** ** More rules for runs *)


Lemma yields_ret {A} (Q : A -> Prop) (a : A) : Q a -> yields Q (ret a).
Proof. intros HQ tr a' E. inversion E. now subst. Qed.

Lemma yields_raise {A} (Q : A -> Prop) (e : exn) : yields Q (@raise A e).
Proof. intros tr a E. discriminate E. Qed.

Lemma yields_bind {A B} (Q : B -> Prop) (m : M A) (k : A -> M B) :
  (forall a, yields Q (k a)) -> yields Q (bind m k).
Proof.
  intros Hk tr b. unfold bind. destruct (m tr) as [[a | e] tr1]; [apply Hk | discriminate].
Qed.

Ltac yields_auto :=
  repeat lazymatch goal with
         | |- yields _ (ret _) => apply yields_ret
         | |- yields _ (raise _) => apply yields_raise
         | |- yields _ (bind _ _) => apply yields_bind; intros ?
         | |- yields _ (match ?x with _ => _ end) => destruct x
         end.

(** One kind of events is part of another, by cases. *)
Ltac event_kinds :=
  let e := fresh "e" in
  let E := fresh "E" in
  intros e; destruct e; unfold click_event;
  cbn [pointer_event move_event vision_event capture_event window_event lookup_event
       look_event no_credentials hands_off_event not_keyboard not_click not_import
       not_pointer orb];
  intros E; try reflexivity; try discriminate E;
  repeat match goal with
         | H : String.eqb _ _ = true |- _ => apply String.eqb_eq in H; subst
         end;
  try reflexivity.

Section MoreBlocks.
Context {Image : Type} `{OpenCV Image} (env : Env Image).






End MoreBlocks.





(** ** What a run types *)





Lemma keyboard_use_weaken {A} (P Q : list ascii -> list string -> Prop) (m : M A) :
  (forall t k, P t k -> Q t k) -> keyboard_use P m -> keyboard_use Q m.
Proof.
  intros HPQ Hm tr. destruct (Hm tr) as (a & added & E & HP).
  exists a, added. split; [exact E | now apply HPQ].
Qed.


Section PostLaunchKeyboard.
Context {Image : Type} `{OpenCV Image} (env : Env Image).






End PostLaunchKeyboard.



Section PostLaunchTyping.
Context {Image : Type} `{OpenCV Image} (env : Env Image).


End PostLaunchTyping.

Example post_launch_demo_name_entry :
  let run := PostLaunch.main (Demo.still [("name_entry_field.png"%string, (5, 5))])
                             (Some "Zezima"%string) [] in
  fst run = Ok 0 /\ typed (snd run) = list_ascii_of_string "Zezima" /\
  keys (snd run) = ["Return"%string].
Proof. vm_compute. repeat split. Qed.

(** ** The start of the login script *)

Section Startup.
Context {Image : Type} `{OpenCV Image} (env : Env Image).

Lemma wait_for_window_searches (name : string) (timeout : Q) :
  adds search_event (BoltLogin.wait_for_window env name timeout).
Proof.
  intros tr. destruct (wait_for_window_shape env name timeout tr) as (r & added & E & _ & R).
  exists added. rewrite E. split; [reflexivity|].
  clear R. revert E. unfold BoltLogin.wait_for_window, log_info. rewrite bind_emit.
  generalize (polls timeout). intros fuel.
  assert (Hloop : forall fuel elapsed tr0 r0 tr1,
             BoltLogin.wait_for_window_loop env fuel name timeout elapsed tr0 = (Ok r0, tr1) ->
             exists a, tr1 = a ++ tr0 /\ Forall (fun e => search_event e = true) a).
  { clear. induction fuel as [|fuel IH]; intros elapsed tr0 r0 tr1;
      cbn [BoltLogin.wait_for_window_loop]; [discriminate|].
    destruct (Qlt_bool elapsed timeout).
    - rewrite bind_query. unfold time_sleep, log_info.
      assert (Hnext : bind (emit (Sleep POLL_INTERVAL))
                        (fun _ => BoltLogin.wait_for_window_loop env fuel name timeout
                                    (elapsed + POLL_INTERVAL)%Q) (Search name :: tr0)
                      = (Ok r0, tr1) ->
                      exists a, tr1 = a ++ tr0 /\ Forall (fun e => search_event e = true) a).
      { rewrite bind_emit. intros E. apply IH in E as (a & -> & F).
        exists (a ++ [Sleep POLL_INTERVAL; Search name]). split; [same_trace|].
        apply Forall_app; split; [exact F | repeat constructor]. }
      destruct (windows env tr0 name) as [|rc ids]; [exact Hnext|].
      destruct rc; try exact Hnext. destruct ids; [exact Hnext|].
      rewrite bind_emit. intros E. inversion E; subst.
      exists [Log INFO; Search name]. split; [reflexivity | repeat constructor].
    - unfold log_error. rewrite bind_emit. intros E. inversion E; subst.
      exists [Log ERROR]. split; [reflexivity | repeat constructor]. }
  intros E. apply Hloop in E as (a & Ea & F).
  assert (added = a ++ [Log INFO]).
  { apply (app_inv_tail tr). rewrite Ea. same_trace. }
  subst added. apply Forall_app; split; [exact F | repeat constructor].
Qed.

Lemma startup_hands_off (config_path : string) :
  adds hands_off_event (BoltLogin.startup env config_path).
Proof.
  unfold BoltLogin.startup, BoltLogin.load_config, BoltLogin.getitem.
  unfold log_info, log_warn, log_error, log_step, log_debug, time_sleep.
  repeat lazymatch goal with
         | |- adds _ (BoltLogin.wait_for_window _ _ _) =>
           eapply adds_mono; [|apply wait_for_window_searches]; solve [event_kinds]
         | |- _ => adds_step
         end.
Qed.

(** Until the launcher window is found, [main] of [bolt_login.py] touches
    neither screen, pointer nor keyboard: it only logs, reads the
    configuration, searches for windows and sleeps.  When it ends there,
    by an exception or because the game is already running (0) or the
    launcher does not show up (1), that is the whole run. *)
Theorem main_early_exit_is_hands_off (config_path : string) (tr : trace) :
  exists added,
    trace_of (BoltLogin.startup env config_path) tr = added ++ tr /\
    Forall (fun e => hands_off_event e = true) added /\
    (forall code,
       result_of (BoltLogin.startup env config_path) tr = Ok (inl code) ->
       BoltLogin.main env config_path tr = (Ok code, added ++ tr) /\ (code = 0 \/ code = 1)) /\
    (forall e,
       result_of (BoltLogin.startup env config_path) tr = Raise e ->
       BoltLogin.main env config_path tr = (Raise e, added ++ tr)).
Proof.
  destruct (startup_hands_off config_path tr) as (added & E & F).
  exists added. split; [exact E|]. split; [exact F|].
  unfold result_of, trace_of, BoltLogin.main in *.
  destruct (BoltLogin.startup env config_path tr) as [o tr1] eqn:Es.
  cbn [fst snd] in *. subst tr1. split.
  - intros code ->. rewrite (bind_ok _ _ _ _ _ Es). split; [reflexivity|].
    assert (Hy : yields (fun r : Z + gmap string json =>
                           match r with inl c => c = 0 \/ c = 1 | inr _ => True end)
                        (BoltLogin.startup env config_path)).
    { unfold BoltLogin.startup. yields_auto; auto. }
    specialize (Hy tr (inl code)). rewrite Es in Hy. now apply Hy.
  - intros e ->. now rewrite (bind_raise _ _ _ _ _ Es).
Qed.

(** With the game already running, [main] returns 0 at once: it has read
    the configuration and searched for the window once, nothing more. *)
Theorem main_nothing_to_do
    (config_path : string) (fields : gmap string json) (tr : trace)
    (window_id : string) (ids : list string) :
  config_files env config_path = ConfigObject fields ->
  Forall (fun k => is_Some (fields !! k)) BoltLogin.required_fields ->
  windows env (Log INFO :: Log INFO :: OpenConfig config_path
               :: Log INFO :: Log INFO :: Log INFO :: Log INFO :: tr) "RuneLite"
    = SearchDone 0 (window_id :: ids) ->
  BoltLogin.main env config_path tr =
    (Ok 0, Log INFO :: Search "RuneLite" :: Log INFO :: Log INFO :: OpenConfig config_path
           :: Log INFO :: Log INFO :: Log INFO :: Log INFO :: tr).
Proof.
  intros Ef Hall Ew.
  unfold BoltLogin.required_fields in Hall. rewrite !Forall_cons in Hall.
  destruct Hall as ([v1 E1] & [v2 E2] & [v3 E3] & [v4 E4] & _).
  unfold BoltLogin.main, BoltLogin.startup, BoltLogin.load_config, log_info.
  rewrite !bind_assoc, bind_emit, !bind_assoc, bind_emit, !bind_assoc, bind_emit,
    !bind_assoc, bind_emit, !bind_assoc, bind_query, Ef.
  rewrite !bind_assoc, (bind_ok _ _ _ _ _ (getitem_some _ _ _ _ E1)).
  rewrite !bind_assoc, (bind_ok _ _ _ _ _ (getitem_some _ _ _ _ E2)).
  rewrite !bind_assoc, (bind_ok _ _ _ _ _ (getitem_some _ _ _ _ E3)).
  rewrite !bind_assoc, (bind_ok _ _ _ _ _ (getitem_some _ _ _ _ E4)).
  rewrite bind_ret.
  rewrite !bind_assoc, (bind_ok _ _ _ _ _ (getitem_some _ _ _ _ E1)).
  rewrite !bind_assoc, bind_emit.
  rewrite !bind_assoc, (bind_ok _ _ _ _ _ (getitem_some _ _ _ _ E4)).
  rewrite !bind_assoc, bind_emit, !bind_assoc, bind_query, Ew.
  reflexivity.
Qed.
End Startup.

Lemma main_nothing_to_do_witness :
  config_files Demo.already_running "config.json" = ConfigObject Demo.full_config /\
  BoltLogin.main Demo.already_running "config.json" [] =
    (Ok 0, [Log INFO; Search "RuneLite"; Log INFO; Log INFO; OpenConfig "config.json";
            Log INFO; Log INFO; Log INFO; Log INFO]).
Proof.
  split; [reflexivity|].
  apply (main_nothing_to_do Demo.already_running "config.json" Demo.full_config []
           "6291457" []).
  - reflexivity.
  - unfold BoltLogin.required_fields. repeat constructor; vm_compute; eexists; reflexivity.
  - reflexivity.
Defined.

Section NoLauncher.
Context {Image : Type} `{OpenCV Image} (env : Env Image).

Lemma one_minute_of_polls (n : nat) :
  (60 <= elapsed_after n)%Q ->
  (n = O \/ (elapsed_after n < 60 + POLL_INTERVAL)%Q) ->
  n = 120%nat.
Proof.
  unfold elapsed_after, POLL_INTERVAL. intros Hlo Hhi.
  assert (L : (inject_Z 120 <= inject_Z (Z.of_nat n))%Q)
    by (change (inject_Z 120) with 120%Q; lra).
  rewrite <- Zle_Qle in L.
  destruct Hhi as [-> | Hhi]; [simpl in L; lia|].
  assert (U : (inject_Z (Z.of_nat n) < inject_Z 121)%Q)
    by (change (inject_Z 121) with 121%Q; lra).
  rewrite <- Zlt_Qlt in U. lia.
Qed.

(** When no window is ever found, neither the game's nor the launcher's,
    [main] gives up with 1 after 121 searches, one for the game and 120,
    a minute's worth, for the launcher; it has touched neither screen,
    pointer nor keyboard. *)
Theorem main_without_launcher
    (config_path : string) (fields : gmap string json) (tr : trace) :
  config_files env config_path = ConfigObject fields ->
  Forall (fun k => is_Some (fields !! k)) BoltLogin.required_fields ->
  (forall tr' name, exists rc ids,
      windows env tr' name = SearchDone rc ids /\ (rc <> 0 \/ ids = [])) ->
  exists added,
    BoltLogin.main env config_path tr = (Ok 1, added ++ tr) /\
    Forall (fun e => hands_off_event e = true) added /\
    count_event is_search added = 121%nat.
Proof.
  intros Ef Hall Hw.
  unfold BoltLogin.required_fields in Hall. rewrite !Forall_cons in Hall.
  destruct Hall as ([v1 E1] & [v2 E2] & [v3 E3] & [v4 E4] & _).
  set (t0 := Log INFO :: Log INFO :: OpenConfig config_path
             :: Log INFO :: Log INFO :: Log INFO :: Log INFO :: tr).
  destruct (wait_for_window_shape env "Bolt" 60 (Search "RuneLite" :: t0))
    as (r & a & Ea & _ & R).
  destruct (wait_for_window_searches env "Bolt" 60 (Search "RuneLite" :: t0))
    as (a' & Ea' & Fa).
  rewrite Ea in Ea'. cbn [snd] in Ea'. apply app_inv_tail in Ea'. subst a'.
  destruct r as [window_id|].
  { destruct R as (before & ids & _ & Ew).
    destruct (Hw before "Bolt"%string) as (rc & ids' & Ew' & Hbad).
    rewrite Ew in Ew'. inversion Ew'; subst. destruct Hbad; congruence. }
  cbv zeta in R. destruct R as [Rlo Rhi].
  pose proof (one_minute_of_polls _ Rlo Rhi) as Hn.
  assert (Es : BoltLogin.startup env config_path tr
               = (Ok (inl 1), Log ERROR :: a ++ Search "RuneLite" :: t0)).
  { unfold BoltLogin.startup, BoltLogin.load_config, log_info.
    rewrite ?bind_assoc, bind_emit, ?bind_assoc, bind_emit, ?bind_assoc, bind_emit,
      ?bind_assoc, bind_emit, ?bind_assoc, bind_query, Ef.
    rewrite ?bind_assoc, (bind_ok _ _ _ _ _ (getitem_some _ _ _ _ E1)).
    rewrite ?bind_assoc, (bind_ok _ _ _ _ _ (getitem_some _ _ _ _ E2)).
    rewrite ?bind_assoc, (bind_ok _ _ _ _ _ (getitem_some _ _ _ _ E3)).
    rewrite ?bind_assoc, (bind_ok _ _ _ _ _ (getitem_some _ _ _ _ E4)).
    rewrite bind_ret.
    rewrite ?bind_assoc, (bind_ok _ _ _ _ _ (getitem_some _ _ _ _ E1)).
    rewrite ?bind_assoc, bind_emit.
    rewrite ?bind_assoc, (bind_ok _ _ _ _ _ (getitem_some _ _ _ _ E4)).
    rewrite ?bind_assoc, bind_emit, ?bind_assoc, bind_query.
    fold t0. destruct (Hw t0 "RuneLite"%string) as (rc & ids & Ew & Hbad). rewrite Ew.
    assert (Hbranch :
      (bolt_window <- BoltLogin.wait_for_window env "Bolt" 60;;
       match bolt_window with
       | Some _ => time_sleep 2;; ret (inr fields)
       | None => emit (Log ERROR);; ret (inl 1)
       end) (Search "RuneLite" :: t0)
      = (Ok (@inl Z (gmap string json) 1), Log ERROR :: a ++ Search "RuneLite" :: t0)).
    { rewrite (bind_ok _ _ _ _ _ Ea). reflexivity. }
    destruct rc as [|p|p]; destruct ids as [|i ids];
      try exact Hbranch; destruct Hbad; congruence. }
  exists (Log ERROR :: a ++ Search "RuneLite" :: Log INFO :: Log INFO
          :: OpenConfig config_path :: [Log INFO; Log INFO; Log INFO; Log INFO]).
  split; [|split].
  - unfold BoltLogin.main. rewrite (bind_ok _ _ _ _ _ Es). cbn [bind ret].
    f_equal. unfold t0. same_trace.
  - constructor; [reflexivity|]. apply Forall_app; split.
    + eapply Forall_impl; [exact Fa|]. intros e; now destruct e.
    + repeat constructor.
  - change (Log ERROR :: a ++ Search "RuneLite" :: Log INFO :: Log INFO
            :: OpenConfig config_path :: [Log INFO; Log INFO; Log INFO; Log INFO])
      with ([Log ERROR] ++ a ++ Search "RuneLite" :: Log INFO :: Log INFO
            :: OpenConfig config_path :: [Log INFO; Log INFO; Log INFO; Log INFO]).
    rewrite !count_event_app, Hn. reflexivity.
Qed.
End NoLauncher.

Lemma main_without_launcher_witness :
  config_files Demo.no_windows "config.json" = ConfigObject Demo.full_config /\
  exists added,
    BoltLogin.main Demo.no_windows "config.json" [] = (Ok 1, added ++ []) /\
    Forall (fun e => hands_off_event e = true) added /\
    count_event is_search added = 121%nat.
Proof.
  split; [reflexivity|].
  apply (main_without_launcher Demo.no_windows "config.json" Demo.full_config []).
  - reflexivity.
  - unfold BoltLogin.required_fields. repeat constructor; vm_compute; eexists; reflexivity.
  - intros tr' name. exists 1, []. split; [reflexivity | now right].
Defined.

(** ** The exit code of the login script *)

Lemma ensures_bind {A B} (R : B -> trace -> Prop) (m : M A) (k : A -> M B) :
  (forall a, ensures R (k a)) -> ensures R (bind m k).
Proof.
  intros Hk tr b tr'. unfold bind.
  destruct (m tr) as [[a | e] tr1]; [apply Hk | discriminate].
Qed.

Lemma ensures_bind_yields {A B} (Q : A -> Prop) (R : B -> trace -> Prop)
    (m : M A) (k : A -> M B) :
  yields Q m -> (forall a, Q a -> ensures R (k a)) -> ensures R (bind m k).
Proof.
  intros Hm Hk tr b tr'. unfold bind. specialize (Hm tr).
  destruct (m tr) as [[a | e] tr1]; [|discriminate].
  apply Hk. now apply Hm.
Qed.

Lemma ensures_bind_ensures {A B} (R1 : A -> trace -> Prop) (R : B -> trace -> Prop)
    (m : M A) (k : A -> M B) :
  ensures R1 m ->
  (forall a tr1 b tr', R1 a tr1 -> k a tr1 = (Ok b, tr') -> R b tr') ->
  ensures R (bind m k).
Proof.
  intros Hm Hk tr b tr'. unfold bind. specialize (Hm tr).
  destruct (m tr) as [[a | e] tr1]; [|discriminate].
  apply Hk. now apply Hm.
Qed.

Lemma ensures_ret {A} (R : A -> trace -> Prop) (a : A) :
  (forall tr, R a tr) -> ensures R (ret a).
Proof. intros HR tr a' tr' E. inversion E; subst. apply HR. Qed.

Section ExitCode.
Context {Image : Type} `{OpenCV Image} (env : Env Image).

Lemma exit_ok_1 (tr : trace) : exit_ok env 1 tr.
Proof. split; [now right | discriminate]. Qed.

Lemma character_select_and_launch_exit :
  ensures (exit_ok env) (BoltLogin.character_select_and_launch env).
Proof.
  unfold BoltLogin.character_select_and_launch.
  repeat lazymatch goal with
         | |- ensures _ (bind (BoltLogin.wait_for_window _ _ _) _) => fail
         | |- ensures _ (bind _ _) => apply ensures_bind; intros ?
         end.
  intros tr code tr' E.
  destruct (wait_for_window_shape env "RuneLite" 300 tr) as (r & added & Ew & _ & R).
  rewrite (bind_ok _ _ _ _ _ Ew) in E. destruct r as [window_id|].
  - destruct R as (before & ids & Eb & Hw).
    unfold log_info, log_warn, time_sleep in E.
    rewrite !bind_emit, bind_query in E.
    assert (Hdone : exists post, code = 0 /\ tr' = post ++ added ++ tr).
    { destruct (windows env _ "RuneLite") as [|rc [|i ids']] in E.
      - rewrite bind_emit in E. inversion E. eexists (_ :: _ :: _ :: _ :: _ :: []).
        split; reflexivity.
      - inversion E. eexists (_ :: _ :: _ :: _ :: []). split; reflexivity.
      - rewrite !bind_assoc, !bind_emit in E. inversion E.
        eexists (_ :: _ :: _ :: _ :: _ :: _ :: _ :: []). split; reflexivity. }
    destruct Hdone as (post & -> & ->). split; [now left|]. intros _.
    exists (post ++ [Log INFO]), before, window_id, ids. split; [|exact Hw].
    rewrite Eb. same_trace.
  - unfold log_warn in E. rewrite bind_emit in E. inversion E. apply exit_ok_1.
Qed.

Lemma full_login_early (CONFIG : gmap string json) :
  yields (fun o => o = None \/ o = Some 1) (BoltLogin.full_login env CONFIG).
Proof.
  unfold BoltLogin.full_login, BoltLogin.step6_two_factor. yields_auto; auto.
Qed.

Lemma login_flow_exit (CONFIG : gmap string json) :
  ensures (exit_ok env) (BoltLogin.login_flow env CONFIG).
Proof.
  unfold BoltLogin.login_flow. apply ensures_bind. intros [|].
  - apply (ensures_bind_yields _ _ _ _ (full_login_early CONFIG)).
    intros o [-> | ->].
    + apply character_select_and_launch_exit.
    + apply ensures_ret, exit_ok_1.
  - apply ensures_bind. intros _. apply character_select_and_launch_exit.
Qed.

Lemma startup_exit (config_path : string) :
  ensures (fun r tr => match r with inl code => exit_ok env code tr | inr _ => True end)
          (BoltLogin.startup env config_path).
Proof.
  unfold BoltLogin.startup.
  repeat lazymatch goal with
         | |- ensures _ (bind (query _ _) _) => fail
         | |- ensures _ (bind _ _) => apply ensures_bind; intros ?
         end.
  intros tr r tr' E. rewrite bind_query in E.
  destruct (windows env tr "RuneLite") as [|rc ids] eqn:Ew; [discriminate E|].
  assert (Hwait : forall (C : gmap string json) t,
    (bolt_window <- BoltLogin.wait_for_window env "Bolt" 60;;
     match bolt_window with
     | Some _ => time_sleep 2;; ret (inr C)
     | None => log_error;; ret (inl 1)
     end) t = (Ok r, tr') ->
    match r with inl code => exit_ok env code tr' | inr _ => True end).
  { intros C t Et.
    assert (Hy : yields (fun r : Z + gmap string json =>
                           match r with inl c => c = 1 | inr _ => True end)
                   (bolt_window <- BoltLogin.wait_for_window env "Bolt" 60;;
                    match bolt_window with
                    | Some _ => time_sleep 2;; ret (inr C)
                    | None => log_error;; ret (inl 1)
                    end)).
    { yields_auto; auto. }
    specialize (Hy t r). rewrite Et in Hy. specialize (Hy eq_refl).
    destruct r as [code|]; [subst; apply exit_ok_1 | exact I]. }
  destruct rc as [|p|p]; try (now apply (Hwait _ _ E)).
  destruct ids as [|window_id ids]; [now apply (Hwait _ _ E)|].
  unfold log_info in E. rewrite bind_emit in E. inversion E; subst.
  split; [now left|]. intros _.
  exists [Log INFO], tr, window_id, ids. split; [reflexivity | exact Ew].
Qed.

(** When [main] of [bolt_login.py] returns, it returns 0 or 1; and it
    returns 0 only in a run in which a search for the game's window was
    answered with a window: either the game was already running or it was
    seen to launch. *)
Theorem main_success_means_game_window
    (config_path : string) (tr tr' : trace) (code : Z) :
  BoltLogin.main env config_path tr = (Ok code, tr') ->
  (code = 0 \/ code = 1) /\
  (code = 0 ->
   exists post before window_id ids,
     tr' = post ++ Search "RuneLite" :: before /\
     windows env before "RuneLite" = SearchDone 0 (window_id :: ids)).
Proof.
  revert tr code tr'. change (ensures (exit_ok env) (BoltLogin.main env config_path)).
  unfold BoltLogin.main.
  apply (ensures_bind_ensures _ _ _ _ (startup_exit config_path)).
  intros [code | CONFIG] tr1 b tr' R1 E.
  - inversion E; subst. exact R1.
  - exact (login_flow_exit CONFIG tr1 b tr' E).
Qed.
End ExitCode.

Lemma main_success_means_game_window_witness :
  BoltLogin.main (Demo.still []) "config.json" []
  = (Ok 0, trace_of (BoltLogin.main (Demo.still []) "config.json") []) /\
  (0 = 0 \/ 0 = 1).
Proof.
  assert (E : BoltLogin.main (Demo.still []) "config.json" []
              = (Ok 0, trace_of (BoltLogin.main (Demo.still []) "config.json") []))
    by (vm_compute; reflexivity).
  split; [exact E|].
  exact (proj1 (main_success_means_game_window (Demo.still []) "config.json" [] _ 0 E)).
Defined.

(** ** What the full login types *)



Lemma keyboard_quiet {A} (P : list ascii -> list string -> Prop) (m : M A) :
  P [] [] -> silent m -> keyboard_use P m.
Proof.
  intros HP Hm. eapply keyboard_use_weaken; [|exact Hm]. now intros t k [-> ->].
Qed.




Section FullLoginTyping.
Context {Image : Type} `{OpenCV Image} (env : Env Image).








End FullLoginTyping.

(** ** When no one-time code can be generated *)



Section FailingTotp.
Context {Image : Type} `{OpenCV Image} (env : Env Image).


End FailingTotp.

Section LoginTypingTheorems.
Context {Image : Type} `{OpenCV Image} (env : Env Image).


End LoginTypingTheorems.



(** ** Where a run clicks *)







Section PersistedClicks.
Context {Image : Type} `{OpenCV Image} (env : Env Image).






End PersistedClicks.

(** ** The Cloudflare checkbox *)

Section Cloudflare.
Context {Image : Type} `{OpenCV Image} (env : Env Image).



End Cloudflare.
